(** * QCoDeS instrument glue: QDevil QDAC driver, USB HID mixin, dond sweeps

    Shallow embedding of
      - [qcodes/instrument_drivers/QDevil/QDevil_QDAC.py]  (class [QDac]),
      - [qcodes/instrument_drivers/Minicircuits/USBHIDMixin.py],
      - [qcodes/dataset/dond/sweeps.py]  (class [LinSweep]).

    Conventions of the embedding.
      - The [float] values of the QDAC driver (voltages, times) are
        rationals [Q]: its arithmetic is taken without rounding.
        [numpy.linspace] is written once over the number system it runs
        in, and read both on IEEE 754 binary64 ([SpecFloat], the
        arithmetic of [numpy.float64]) and on rationals.
      - Python [int] values are [Z].
      - Python dictionaries are insertion-ordered association lists
        ([Dict]), because the driver picks "the first" entry of
        [items()] in several places.
      - Stateful methods are computations [M A] in a state-and-exception
        monad: an exception keeps the state reached when it was raised,
        exactly like a Python object mutated before a [raise].
      - The VISA handle is a queue of reply lines still to be delivered
        by the instrument, and every command written is appended to a
        chronological [trace], together with sleeps and logged warnings. *)

From Stdlib Require Import String Ascii ZArith QArith Qround Qabs Bool List.
From Stdlib Require Import Lia Lqa DecimalString Strings.Byte.
From Stdlib Require SpecFloat.
Import ListNotations.

Open Scope Z_scope.

(* ===================================================================== *)
(** * Python exceptions and results                                        *)
(* ===================================================================== *)

Inductive exn : Type :=
| ValueError (msg : string)
| RuntimeError (msg : string)
| KeyError
| IndexError
| StructError
| VisaIOError
| TimeoutError.

Inductive res (A : Type) : Type :=
| Ok (a : A)
| Raise (e : exn).
Arguments Ok {A} a.
Arguments Raise {A} e.

(* ===================================================================== *)
(** * State-and-exception computations                                     *)
(* ===================================================================== *)

Definition M (S A : Type) : Type := S -> res A * S.

Definition ret {S A : Type} (a : A) : M S A := fun s => (Ok a, s).

Definition raise {S A : Type} (e : exn) : M S A := fun s => (Raise e, s).

Definition bind {S A B : Type} (m : M S A) (f : A -> M S B) : M S B :=
  fun s =>
    match m s with
    | (Ok a, s') => f a s'
    | (Raise e, s') => (Raise e, s')
    end.

Declare Scope monad_scope.
Delimit Scope monad_scope with monad.
Notation "x <- c ;; k" := (bind c (fun x => k))
  (at level 61, c at next level, right associativity) : monad_scope.
Notation "c ;; k" := (bind c (fun _ => k))
  (at level 61, right associativity) : monad_scope.
Open Scope monad_scope.

Definition gets {S A : Type} (f : S -> A) : M S A := fun s => (Ok (f s), s).

Definition modify {S : Type} (f : S -> S) : M S unit := fun s => (Ok tt, f s).

(** A Python operation that raises [e] where the model has [None]. *)
Definition or_raise {S A : Type} (e : exn) (o : option A) : M S A :=
  match o with
  | Some a => ret a
  | None => raise e
  end.

(** [if c: raise e]. *)
Definition raise_if {S : Type} (c : bool) (e : exn) : M S unit :=
  if c then raise e else ret tt.

(** [for x in l: body(x)]. *)
Fixpoint for_each {S A : Type} (l : list A) (body : A -> M S unit)
  : M S unit :=
  match l with
  | [] => ret tt
  | x :: tl => body x ;; for_each tl body
  end.

(** [[f(x) for x in l]]. *)
Fixpoint map_m {S A B : Type} (f : A -> M S B) (l : list A) : M S (list B) :=
  match l with
  | [] => ret []
  | x :: tl => y <- f x ;; ys <- map_m f tl ;; ret (y :: ys)
  end.

(** [try: m  except KeyError: pass]. *)
Definition except_KeyError {S : Type} (m : M S unit) : M S unit :=
  fun s =>
    match m s with
    | (Raise KeyError, s') => (Ok tt, s')
    | r => r
    end.

(* ===================================================================== *)
(** * The Python built-ins the three files rely on                         *)
(* ===================================================================== *)

Module Py.

(** [x < y] and [x == y] on floats. *)
Definition ltb (x y : Q) : bool := negb (Qle_bool y x).
Definition leb (x y : Q) : bool := Qle_bool x y.
Definition eqb (x y : Q) : bool := Qeq_bool x y.

(** [int(x)] on a float: truncation toward zero. *)
Definition int (x : Q) : Z :=
  if Qle_bool 0 x then Qfloor x else Qceiling x.

(** ['{}'.format(n)] for an [int]. *)
Definition str (n : Z) : string := NilZero.string_of_int (Z.to_int n).

(** ['{}'.format(x)] for an object that may be [None]. *)
Definition str_opt (o : option Z) : string :=
  match o with
  | Some n => str n
  | None => "None"
  end.

(** [s.count(c)] for a one-character pattern. *)
Fixpoint count (c : ascii) (s : string) : nat :=
  match s with
  | EmptyString => O
  | String a rest =>
      if Ascii.eqb a c then S (count c rest) else count c rest
  end.

(** [s[:-1]]. *)
Fixpoint drop_last (s : string) : string :=
  match s with
  | EmptyString => EmptyString
  | String _ EmptyString => EmptyString
  | String a rest => String a (drop_last rest)
  end.

(** [s.split(c)] for a one-character separator. *)
Fixpoint split_aux (c : ascii) (cur : string) (s : string) : list string :=
  match s with
  | EmptyString => [cur]
  | String a rest =>
      if Ascii.eqb a c
      then cur :: split_aux c EmptyString rest
      else split_aux c (cur ++ String a EmptyString) rest
  end.
Definition split (c : ascii) (s : string) : list string :=
  split_aux c EmptyString s.

(** [x in range(lo, hi)] for an [int]. *)
Definition in_range (lo hi x : Z) : bool := (lo <=? x) && (x <? hi).

(** Position designated by [l[i]]: negative indices count from the
    end; [None] stands for [IndexError]. *)
Definition position (len : nat) (i : Z) : option nat :=
  if 0 <=? i then
    if i <? Z.of_nat len then Some (Z.to_nat i) else None
  else
    if - Z.of_nat len <=? i then Some (Z.to_nat (Z.of_nat len + i))
    else None.

Definition getitem {A : Type} (l : list A) (i : Z) : option A :=
  match position (length l) i with
  | Some n => nth_error l n
  | None => None
  end.

Fixpoint replace_nth {A : Type} (n : nat) (x : A) (l : list A) : list A :=
  match l, n with
  | [], _ => []
  | _ :: tl, O => x :: tl
  | hd :: tl, S n' => hd :: replace_nth n' x tl
  end.

(** [l[i] = x] (no effect where [getitem] has none). *)
Definition setitem {A : Type} (l : list A) (i : Z) (x : A) : list A :=
  match position (length l) i with
  | Some n => replace_nth n x l
  | None => l
  end.

(** [min(xs)] on ints and on floats; [None] stands for the
    [ValueError] of an empty argument. *)
Definition min_int (xs : list Z) : option Z :=
  match xs with
  | [] => None
  | x :: tl => Some (fold_left Z.min tl x)
  end.

Definition qmin (x y : Q) : Q := if Qle_bool x y then x else y.

Definition min_float (xs : list Q) : option Q :=
  match xs with
  | [] => None
  | x :: tl => Some (fold_left qmin tl x)
  end.

(** [s.difference(t)] on sets of ints, kept as duplicate-free lists. *)
Definition difference (s t : list Z) : list Z :=
  filter (fun x => negb (existsb (Z.eqb x) t)) s.

(** [range(lo, hi)] for ints. *)
Definition range (lo hi : Z) : list Z :=
  map (fun k => lo + Z.of_nat k) (seq 0 (Z.to_nat (hi - lo))).

End Py.

(* ===================================================================== *)
(** * Insertion-ordered dictionaries with [int] keys                       *)
(* ===================================================================== *)

Module Dict.

Definition t (V : Type) : Type := list (Z * V).

Section Ops.
Context {V : Type}.

(** [d.get(k)]; [None] also stands for the [KeyError] of [d[k]]. *)
Fixpoint get (k : Z) (d : t V) : option V :=
  match d with
  | [] => None
  | (k', v) :: tl => if k =? k' then Some v else get k tl
  end.

(** [k in d]. *)
Definition mem (k : Z) (d : t V) : bool :=
  match get k d with
  | Some _ => true
  | None => false
  end.

(** [d[k] = v]: an existing key keeps its place, a new key goes last. *)
Fixpoint set (k : Z) (v : V) (d : t V) : t V :=
  match d with
  | [] => [(k, v)]
  | (k', v') :: tl =>
      if k =? k' then (k', v) :: tl else (k', v') :: set k v tl
  end.

(** [d.pop(k, None)]. *)
Fixpoint pop (k : Z) (d : t V) : t V :=
  match d with
  | [] => []
  | (k', v') :: tl => if k =? k' then tl else (k', v') :: pop k tl
  end.

Definition keys (d : t V) : list Z := map fst d.
Definition values (d : t V) : list V := map snd d.

End Ops.

End Dict.

(* ===================================================================== *)
(** * dond sweeps: [LinSweep]                                              *)
(* ===================================================================== *)

Module Sweep.

(** The number system [numpy.linspace] computes in: the conversion of an
    [int], the four operations and the test [x == 0]. *)
Record Arithmetic (F : Type) : Type := {
  of_int : Z -> F;
  add : F -> F -> F;
  sub : F -> F -> F;
  mul : F -> F -> F;
  div : F -> F -> F;
  is_zero : F -> bool
}.
Arguments of_int {F}.
Arguments add {F}.
Arguments sub {F}.
Arguments mul {F}.
Arguments div {F}.
Arguments is_zero {F}.

(** [numpy.float64]: IEEE 754 binary64 with rounding to nearest, ties to
    even, as specified by [SpecFloat] for a 53-bit mantissa and
    [emax = 1024]. *)
Definition float64 : Type := SpecFloat.spec_float.

Definition binary64 : Arithmetic float64 := {|
  of_int := fun z => SpecFloat.binary_normalize 53 1024 z 0 false;
  add := SpecFloat.SFadd 53 1024;
  sub := SpecFloat.SFsub 53 1024;
  mul := SpecFloat.SFmul 53 1024;
  div := SpecFloat.SFdiv 53 1024;
  is_zero := fun x => SpecFloat.SFeqb x (SpecFloat.S754_zero false)
|}.

(** The same operations on rationals: no rounding, no overflow. *)
Definition exact : Arithmetic Q := {|
  of_int := inject_Z;
  add := Qplus;
  sub := Qminus;
  mul := Qmult;
  div := Qdiv;
  is_zero := fun x => Qeq_bool x 0
|}.

Section Linspace.

Context {F : Type} (A : Arithmetic F).

(** [arange(0, num)] in the number system at hand. *)
Definition arange (num : nat) : list F :=
  map (fun k => of_int A (Z.of_nat k)) (seq 0 num).

Definition overwrite_last (stop : F) (y : list F) : list F :=
  match y with
  | [] => []
  | _ => removelast y ++ [stop]
  end.

(** [numpy.linspace(start, stop, num)] with its default [endpoint=True],
    following numpy's own definition: [delta = stop - start],
    [step = delta / (num - 1)], samples [arange(num) * step + start] (or
    [arange(num) / div * delta + start] when the step is zero), and the
    last sample overwritten by [stop] when [num > 1].  A negative [num]
    is numpy's [ValueError].  (The conversion [start * 1.0] of the
    arguments is the identity on floats.) *)
Definition linspace (start stop : F) (num : Z) : res (list F) :=
  if num <? 0 then Raise (ValueError "Number of samples must be non-negative")
  else
    let n := Z.to_nat num in
    let div_ := of_int A (num - 1) in
    let delta := sub A stop start in
    let y := arange n in
    let y :=
      if 0 <? num - 1 then
        let step := div A delta div_ in
        if is_zero A step
        then map (fun k => mul A (div A k div_) delta) y
        else map (fun k => mul A k step) y
      else map (fun k => mul A k delta) y in
    let y := map (fun k => add A k start) y in
    Ok (if 1 <? num then overwrite_last stop y else y).

Record LinSweep : Type := {
  _start : F;
  _stop : F;
  _num_points : Z;
  _delay : F
}.

Definition get_setpoints (self : LinSweep) : res (list F) :=
  linspace (_start self) (_stop self) (_num_points self).

Definition num_points (self : LinSweep) : Z := _num_points self.

Definition delay (self : LinSweep) : F := _delay self.

End Linspace.

Arguments _start {F}.
Arguments _stop {F}.
Arguments _num_points {F}.
Arguments _delay {F}.
Arguments num_points {F}.
Arguments delay {F}.

(** Ordering of a setpoint sequence of rationals. *)
Fixpoint non_decreasing (l : list Q) : Prop :=
  match l with
  | x :: ((y :: _) as tl) => (x <= y)%Q /\ non_decreasing tl
  | _ => True
  end.

Fixpoint non_increasing (l : list Q) : Prop :=
  match l with
  | x :: ((y :: _) as tl) => (y <= x)%Q /\ non_increasing tl
  | _ => True
  end.

(** [x <= y] and [x == y] on [float64]; both are false on NaN. *)
Definition f64_le (x y : float64) : Prop := SpecFloat.SFleb x y = true.
Definition f64_eq (x y : float64) : Prop := SpecFloat.SFeqb x y = true.

(** Neither an infinity nor NaN. *)
Definition finite64 (x : float64) : bool :=
  match x with
  | SpecFloat.S754_zero _ | SpecFloat.S754_finite _ _ _ => true
  | _ => false
  end.

(** Every point of the sequence is related to the next. *)
Fixpoint chain {F : Type} (R : F -> F -> Prop) (l : list F) : Prop :=
  match l with
  | x :: ((y :: _) as tl) => R x y /\ chain R tl
  | _ => True
  end.

End Sweep.

(* ===================================================================== *)
(** * USB HID transport mixin                                              *)
(* ===================================================================== *)

Module HID.

(** The mixin together with the opened device.  [device_accepts] is the
    answer of [send_output_report]; [output_reports] lists the reports
    handed to the device, oldest first; [arrivals] is, sleep after
    sleep, the packet (if any) that the raw-data handler receives while
    [ask_hid] sleeps; [sleeps] counts the polling sleeps taken. *)
Record USBHIDMixin : Type := {
  packet_size : Z;
  _timeout : Q;
  _data_buffer : option (list byte);
  device_accepts : bool;
  output_reports : list (list byte);
  arrivals : list (option (list byte));
  sleeps : nat
}.

Definition with_data_buffer (b : option (list byte)) (self : USBHIDMixin)
  : USBHIDMixin :=
  {| packet_size := packet_size self; _timeout := _timeout self;
     _data_buffer := b; device_accepts := device_accepts self;
     output_reports := output_reports self; arrivals := arrivals self;
     sleeps := sleeps self |}.

Definition with_output_report (r : list byte) (self : USBHIDMixin)
  : USBHIDMixin :=
  {| packet_size := packet_size self; _timeout := _timeout self;
     _data_buffer := _data_buffer self; device_accepts := device_accepts self;
     output_reports := output_reports self ++ [r]; arrivals := arrivals self;
     sleeps := sleeps self |}.

(** [self._handler(data)]. *)
Definition _handler (data : list byte) (self : USBHIDMixin) : USBHIDMixin :=
  with_data_buffer (Some data) self.

(** [time.sleep(1 / tries_per_second)]: the handler may run meanwhile. *)
Definition sleep_once : M USBHIDMixin unit :=
  fun self =>
    let woke (a : list (option (list byte))) (b : option (list byte)) :=
      {| packet_size := packet_size self; _timeout := _timeout self;
         _data_buffer := b; device_accepts := device_accepts self;
         output_reports := output_reports self; arrivals := a;
         sleeps := S (sleeps self) |} in
    match arrivals self with
    | [] => (Ok tt, woke [] (_data_buffer self))
    | None :: rest => (Ok tt, woke rest (_data_buffer self))
    | Some data :: rest => (Ok tt, woke rest (Some data))
    end.

Definition _get_data_buffer : M USBHIDMixin (option (list byte)) :=
  data <- gets _data_buffer ;;
  modify (with_data_buffer None) ;;
  ret data.

(** [struct.pack(f"B{data_len}s{pad_len}x", feature_id, data)]: one
    unsigned byte, [data_len] bytes of [data] (cut or null-padded to that
    length), [pad_len] null bytes. *)
Definition struct_pack (feature_id : Z) (data : list byte)
  (data_len pad_len : Z) : option (list byte) :=
  if Py.in_range 0 256 feature_id then
    match Byte.of_N (Z.to_N feature_id) with
    | Some b =>
        let n := Z.to_nat data_len in
        Some (b :: firstn n data
                ++ repeat x00 (n - List.length data)
                ++ repeat x00 (Z.to_nat pad_len))
    | None => None
    end
  else None.

Definition send_output_report (packed : list byte) : M USBHIDMixin bool :=
  modify (with_output_report packed) ;;
  gets device_accepts.

Definition send_hid (feature_id : Z) (data : list byte) : M USBHIDMixin unit :=
  self <- gets (fun s => s) ;;
  let data_len := Z.of_nat (List.length data) in
  let pad_len := packet_size self - data_len in
  raise_if (pad_len <? 0) (ValueError "Length of data exceeds packet_size B") ;;
  packed_data <- or_raise StructError
                   (struct_pack feature_id data data_len pad_len) ;;
  result <- send_output_report packed_data ;;
  raise_if (negb result) (RuntimeError "Communication with device failed").

(** The polling loop of [ask_hid]; the result is the final [response]. *)
Fixpoint poll (number_of_tries : nat) : M USBHIDMixin (option (list byte)) :=
  match number_of_tries with
  | O => ret None
  | S n =>
      sleep_once ;;
      response <- _get_data_buffer ;;
      match response with
      | Some _ => ret response
      | None => poll n
      end
  end.

Definition ask_hid (feature_id : Z) (data : list byte)
  : M USBHIDMixin (list byte) :=
  send_hid feature_id data ;;
  timeout <- gets _timeout ;;
  let tries_per_second := 5%Q in
  let number_of_tries := Py.int (tries_per_second * timeout)%Q in
  response <- poll (Z.to_nat number_of_tries) ;;
  match response with
  | None => raise TimeoutError
  | Some r => ret (tl r)
  end.

End HID.

(* ===================================================================== *)
(** * Decimal text of numbers, used to run the driver on examples         *)
(* ===================================================================== *)

(** The driver is parametrised below by Python's number parsing and
    float formatting.  [Text] gives decimal instances of them:
    [parse_float] and [parse_int] read plain literals ([-12], [0.25]),
    [format_f6] prints six decimals as ['{:.6f}'] does, and
    [format_float] prints the shortest decimal with at least one
    decimal place, as [repr] does for values with at most six. *)
Module Text.

Definition digit_of (a : ascii) : option Z :=
  let n := Z.of_nat (nat_of_ascii a) in
  if Py.in_range 48 58 n then Some (n - 48) else None.

Fixpoint digits_aux (acc : Z) (s : string) : option Z :=
  match s with
  | EmptyString => Some acc
  | String a rest =>
      match digit_of a with
      | Some d => digits_aux (10 * acc + d) rest
      | None => None
      end
  end.

Definition digits (s : string) : option Z :=
  match s with
  | EmptyString => None
  | _ => digits_aux 0 s
  end.

Definition unsigned_float (s : string) : option Q :=
  match Py.split "." s with
  | [i] => option_map inject_Z (digits i)
  | [i; f] =>
      match digits i, digits f with
      | Some a, Some b =>
          Some (inject_Z a
                + inject_Z b / inject_Z (10 ^ Z.of_nat (String.length f)))%Q
      | _, _ => None
      end
  | _ => None
  end.

Definition parse_float (s : string) : option Q :=
  match s with
  | String "-" rest => option_map Qopp (unsigned_float rest)
  | _ => unsigned_float s
  end.

Definition parse_int (s : string) : option Z :=
  match s with
  | String "-" rest => option_map Z.opp (digits rest)
  | _ => digits s
  end.

(** Nearest integer, ties to even. *)
Definition round_half_even (x : Q) : Z :=
  let f := Qfloor x in
  let r := (x - inject_Z f)%Q in
  if Py.ltb r (1 # 2) then f
  else if Py.ltb (1 # 2) r then f + 1
  else if Z.even f then f else f + 1.

Fixpoint pad_zeros (width : nat) (s : string) : string :=
  if (String.length s <? width)%nat
  then match width with
       | O => s
       | S w => String "0" (pad_zeros w s)
       end
  else s.

Fixpoint strip_zeros (fuel : nat) (k : Z) (width : nat) : Z * nat :=
  match fuel with
  | O => (k, width)
  | S fuel' =>
      if (1 <? width)%nat && (k mod 10 =? 0)
      then strip_zeros fuel' (k / 10) (pred width)
      else (k, width)
  end.

Definition format_f6 (x : Q) : string :=
  let n := round_half_even (x * 1000000)%Q in
  let a := Z.abs n in
  ((if Py.ltb x 0 then "-" else "")
   ++ Py.str (a / 1000000) ++ "."
   ++ pad_zeros 6 (Py.str (a mod 1000000)))%string.

Definition format_float (x : Q) : string :=
  let n := round_half_even (x * 1000000)%Q in
  let a := Z.abs n in
  let '(k, w) := strip_zeros 6 (a mod 1000000) 6 in
  ((if Py.ltb x 0 then "-" else "")
   ++ Py.str (a / 1000000) ++ "." ++ pad_zeros w (Py.str k))%string.

End Text.

(* ===================================================================== *)
(** * QDevil QDAC: data model                                              *)
(* ===================================================================== *)

(** [class Mode(Enum)] with its [_ModeTuple(v, i)] values. *)
Inductive Mode : Type := vhigh_ihigh | vhigh_ilow | vlow_ilow.

Definition mode_v (m : Mode) : Z :=
  match m with
  | vhigh_ihigh => 0
  | vhigh_ilow => 0
  | vlow_ilow => 1
  end.

Definition mode_i (m : Mode) : Z :=
  match m with
  | vhigh_ihigh => 1
  | vhigh_ilow => 0
  | vlow_ilow => 0
  end.

Definition mode_eqb (a b : Mode) : bool :=
  match a, b with
  | vhigh_ihigh, vhigh_ihigh | vhigh_ilow, vhigh_ilow
  | vlow_ilow, vlow_ilow => true
  | _, _ => false
  end.

(** [class Waveform]. *)
Module Waveform.
Definition sine : Z := 1.
Definition square : Z := 2.
Definition triangle : Z := 3.
Definition staircase : Z := 4.
End Waveform.

(** [class Generator]: a fresh generator ends at [9.9e9]. *)
Record Generator : Type := { fg : Z; t_end : Q }.

Definition new_Generator (generator_number : Z) : Generator :=
  {| fg := generator_number; t_end := 9900000000 |}.

Definition with_t_end (t : Q) (g : Generator) : Generator :=
  {| fg := fg g; t_end := t |}.

(** [vals.Numbers(min_value, max_value)], the validator of [v]. *)
Record Numbers : Type := { min_value : Q; max_value : Q }.

Definition in_bounds (vals : Numbers) (x : Q) : bool :=
  Py.leb (min_value vals) x && Py.leb x (max_value vals).

(** One entry [{'Min': .., 'Max': ..}] of [self.vranges[chan]]. *)
Record MinMax : Type := { Min : Q; Max : Q }.

(** [QDacChannel]: the cached values and validators of the parameters
    [v], [mode], [sync], [sync_delay] and [sync_duration] of the channel
    numbered [channum]. *)
Record QDacChannel : Type := {
  channum : Z;
  v_cache : Q;
  v_vals : Numbers;
  mode_cache : Mode;
  sync_cache : option Z;
  sync_delay : Q;
  sync_duration : Q
}.

Definition with_v_cache (x : Q) (c : QDacChannel) : QDacChannel :=
  {| channum := channum c; v_cache := x; v_vals := v_vals c;
     mode_cache := mode_cache c; sync_cache := sync_cache c;
     sync_delay := sync_delay c; sync_duration := sync_duration c |}.

Definition with_v_vals (vals : Numbers) (c : QDacChannel) : QDacChannel :=
  {| channum := channum c; v_cache := v_cache c; v_vals := vals;
     mode_cache := mode_cache c; sync_cache := sync_cache c;
     sync_delay := sync_delay c; sync_duration := sync_duration c |}.

Definition with_sync_cache (s : option Z) (c : QDacChannel) : QDacChannel :=
  {| channum := channum c; v_cache := v_cache c; v_vals := v_vals c;
     mode_cache := mode_cache c; sync_cache := s;
     sync_delay := sync_delay c; sync_duration := sync_duration c |}.

(** What the driver does that can be observed from outside, in order. *)
Inductive warning : Type :=
| StepLengthTooShort
| RampTimeTooShort
| VoltageClipped
| WaitingForGenerator.

Inductive event : Type :=
| Written (cmd : string)
| Slept (duration : Q)
| Warned (w : warning).

(** [QDac]: the attributes of the instrument object, the VISA handle
    ([visa_status] is the status code its [write] returns,
    [visa_incoming] the reply lines the instrument will deliver), the
    wall clock read by [time.time()], and the trace of events. *)
Record QDac : Type := {
  num_chans : Z;
  channels : list QDacChannel;
  vranges : Dict.t (Dict.t MinMax);
  mode_force : bool;
  _slopes : Dict.t Q;
  _assigned_fgs : Dict.t Generator;
  _assigned_triggers : Dict.t Z;
  _syncoutputs : Dict.t Z;
  _write_response : string;
  visa_status : Z;
  visa_incoming : list string;
  clock : Q;
  trace : list event
}.

Definition with_channels (x : list QDacChannel) (q : QDac) : QDac :=
  {| num_chans := num_chans q; channels := x; vranges := vranges q;
     mode_force := mode_force q; _slopes := _slopes q;
     _assigned_fgs := _assigned_fgs q;
     _assigned_triggers := _assigned_triggers q;
     _syncoutputs := _syncoutputs q; _write_response := _write_response q;
     visa_status := visa_status q; visa_incoming := visa_incoming q;
     clock := clock q; trace := trace q |}.

Definition with_slopes (x : Dict.t Q) (q : QDac) : QDac :=
  {| num_chans := num_chans q; channels := channels q; vranges := vranges q;
     mode_force := mode_force q; _slopes := x;
     _assigned_fgs := _assigned_fgs q;
     _assigned_triggers := _assigned_triggers q;
     _syncoutputs := _syncoutputs q; _write_response := _write_response q;
     visa_status := visa_status q; visa_incoming := visa_incoming q;
     clock := clock q; trace := trace q |}.

Definition with_assigned_fgs (x : Dict.t Generator) (q : QDac) : QDac :=
  {| num_chans := num_chans q; channels := channels q; vranges := vranges q;
     mode_force := mode_force q; _slopes := _slopes q;
     _assigned_fgs := x;
     _assigned_triggers := _assigned_triggers q;
     _syncoutputs := _syncoutputs q; _write_response := _write_response q;
     visa_status := visa_status q; visa_incoming := visa_incoming q;
     clock := clock q; trace := trace q |}.

Definition with_assigned_triggers (x : Dict.t Z) (q : QDac) : QDac :=
  {| num_chans := num_chans q; channels := channels q; vranges := vranges q;
     mode_force := mode_force q; _slopes := _slopes q;
     _assigned_fgs := _assigned_fgs q;
     _assigned_triggers := x;
     _syncoutputs := _syncoutputs q; _write_response := _write_response q;
     visa_status := visa_status q; visa_incoming := visa_incoming q;
     clock := clock q; trace := trace q |}.

Definition with_syncoutputs (x : Dict.t Z) (q : QDac) : QDac :=
  {| num_chans := num_chans q; channels := channels q; vranges := vranges q;
     mode_force := mode_force q; _slopes := _slopes q;
     _assigned_fgs := _assigned_fgs q;
     _assigned_triggers := _assigned_triggers q;
     _syncoutputs := x; _write_response := _write_response q;
     visa_status := visa_status q; visa_incoming := visa_incoming q;
     clock := clock q; trace := trace q |}.

Definition with_write_response (x : string) (q : QDac) : QDac :=
  {| num_chans := num_chans q; channels := channels q; vranges := vranges q;
     mode_force := mode_force q; _slopes := _slopes q;
     _assigned_fgs := _assigned_fgs q;
     _assigned_triggers := _assigned_triggers q;
     _syncoutputs := _syncoutputs q; _write_response := x;
     visa_status := visa_status q; visa_incoming := visa_incoming q;
     clock := clock q; trace := trace q |}.

Definition with_incoming (x : list string) (q : QDac) : QDac :=
  {| num_chans := num_chans q; channels := channels q; vranges := vranges q;
     mode_force := mode_force q; _slopes := _slopes q;
     _assigned_fgs := _assigned_fgs q;
     _assigned_triggers := _assigned_triggers q;
     _syncoutputs := _syncoutputs q; _write_response := _write_response q;
     visa_status := visa_status q; visa_incoming := x;
     clock := clock q; trace := trace q |}.

Definition with_clock (x : Q) (q : QDac) : QDac :=
  {| num_chans := num_chans q; channels := channels q; vranges := vranges q;
     mode_force := mode_force q; _slopes := _slopes q;
     _assigned_fgs := _assigned_fgs q;
     _assigned_triggers := _assigned_triggers q;
     _syncoutputs := _syncoutputs q; _write_response := _write_response q;
     visa_status := visa_status q; visa_incoming := visa_incoming q;
     clock := x; trace := trace q |}.

Definition with_trace (x : list event) (q : QDac) : QDac :=
  {| num_chans := num_chans q; channels := channels q; vranges := vranges q;
     mode_force := mode_force q; _slopes := _slopes q;
     _assigned_fgs := _assigned_fgs q;
     _assigned_triggers := _assigned_triggers q;
     _syncoutputs := _syncoutputs q; _write_response := _write_response q;
     visa_status := visa_status q; visa_incoming := visa_incoming q;
     clock := clock q; trace := x |}.

(** [self._fgs] and [self._trigs], set once by [_reset_bookkeeping]. *)
Definition _fgs : list Z := Py.range 1 9.
Definition _trigs : list Z := Py.range 1 10.

(** Error messages of the driver. *)
Definition MSG_CHANNEL_NUMBER (num_chans : Z) : string :=
  ("Channel number must be 1-" ++ Py.str num_chans ++ ".")%string.
Definition MSG_BOTH_GROUPS : string :=
  "Channel cannot be in both slow_chans and fast_chans!".
Definition MSG_VOLTAGES_INCONSISTENT : string :=
  "Number of channels and number of voltages inconsistent!".
Definition MSG_START_VOLTAGES : string :=
  "Number of start voltages do not match number of channels!".
Definition MSG_NO_GENERATOR : string :=
  "Trying to ramp more channels than there are generators available. Please insert delays allowing channels to finish ramping before trying to ramp other channels, or reduce the number of ramped channels. Or increase fgs_timeout.".
Definition NON_ZERO_VOLTAGE_MSG : string :=
  "Please set the voltage to zero before changing the voltage range in order to avoid jumps or spikes. Or set mode_force=True to allow voltage range change for non-zero voltages.".
Definition MSG_VALIDATOR : string := "value is invalid: outside the validator bounds".
Definition MSG_FLOAT : string := "could not convert string to float".
Definition MSG_INT : string := "invalid literal for int() with base 10".
Definition MSG_UNPACK : string := "wrong number of values to unpack".
Definition MSG_MIN_EMPTY : string := "min() arg is an empty sequence".

(** An object used as a key when probing a dictionary whose stored keys
    are ints.  A [Generator] instance defines neither [__eq__] nor
    [__hash__], so it never equals a stored int. *)
Inductive pykey : Type :=
| KeyInt (n : Z)
| KeyGenerator (g : Generator).

(** [d.pop(key)] on a dictionary with int keys: [None] is [KeyError]. *)
Definition pop_key {V : Type} (key : pykey) (d : Dict.t V)
  : option (Dict.t V) :=
  match key with
  | KeyInt n => if Dict.mem n d then Some (Dict.pop n d) else None
  | KeyGenerator _ => None
  end.

(** The [slope] argument of [_setslope]: ['Inf'] or a number. *)
Inductive slope_value : Type :=
| Inf
| Slope (v_per_s : Q).

(* ===================================================================== *)
(** * QDevil QDAC: the methods of [QDac]                                   *)
(* ===================================================================== *)

Section Driver.

(** Python's number parsing and float formatting: [float(s)] and
    [int(s)] ([None] is their [ValueError]), ['{}'.format(x)] and
    ['{:.6f}'.format(x)] for a float [x]. *)
Variable float_of_str : string -> option Q.
Variable int_of_str : string -> option Z.
Variable format_float : Q -> string.
Variable format_f6 : Q -> string.

Local Abbreviation QM := (M QDac).

Definition emit (e : event) : QM unit :=
  modify (fun q => with_trace (trace q ++ [e]) q).

(** [LOG.warning(...)]. *)
Definition log_warning (w : warning) : QM unit := emit (Warned w).

(** [time.time()] and [time.sleep(d)]. *)
Definition time_time : QM Q := gets clock.

Definition time_sleep (d : Q) : QM unit :=
  emit (Slept d) ;;
  modify (fun q => with_clock (clock q + d)%Q q).

(** ** The VISA handle *)

(** [self.visa_handle.write(cmd)], returning the status code. *)
Definition visa_write (cmd : string) : QM Z :=
  emit (Written cmd) ;;
  gets visa_status.

(** [self.visa_handle.read()]: the next reply line; with none pending
    the read times out. *)
Definition visa_read : QM string :=
  fun q =>
    match visa_incoming q with
    | [] => (Raise VisaIOError, q)
    | line :: rest => (Ok line, with_incoming rest q)
    end.

Definition check_error (ret_code : Z) : QM unit :=
  raise_if (negb (ret_code =? 0)) VisaIOError.

(** [for _ in range(n): self._write_response = self.visa_handle.read()]. *)
Fixpoint read_responses (n : nat) : QM unit :=
  match n with
  | O => ret tt
  | S k =>
      line <- visa_read ;;
      modify (with_write_response line) ;;
      read_responses k
  end.

(** [QDac.write]. *)
Definition write (cmd : string) : QM unit :=
  ret_code <- visa_write cmd ;;
  check_error ret_code ;;
  read_responses (Py.count ";" cmd + 1).

(** [self.ask(cmd)] of the VISA instrument: one write, one read. *)
Definition ask (cmd : string) : QM string :=
  visa_write cmd ;;
  visa_read.

(** ** Channel parameters *)

(** [self.channels[i]]. *)
Definition channel (i : Z) : QM QDacChannel :=
  chs <- gets channels ;;
  or_raise IndexError (Py.getitem chs i).

Definition update_channel (i : Z) (f : QDacChannel -> QDacChannel)
  : QM unit :=
  c <- channel i ;;
  modify (fun q => with_channels (Py.setitem (channels q) i (f c)) q).

(** [self.channels[i].v.cache()] and [.v.cache.set(x)]. *)
Definition v_cache_get (i : Z) : QM Q :=
  c <- channel i ;;
  ret (v_cache c).

Definition v_cache_set (i : Z) (x : Q) : QM unit :=
  update_channel i (with_v_cache x).

(** [self.channels[i].v.get()]: asks ['set <channum>'], parses the reply
    with [float] and stores it in the cache. *)
Definition v_get (i : Z) : QM Q :=
  c <- channel i ;;
  reply <- ask ("set " ++ Py.str (channum c)) ;;
  v <- or_raise (ValueError MSG_FLOAT) (float_of_str reply) ;;
  v_cache_set i v ;;
  ret v.

(** [self.channels[i].v.validate(x)]. *)
Definition v_validate (i : Z) (x : Q) : QM unit :=
  c <- channel i ;;
  raise_if (negb (in_bounds (v_vals c) x)) (ValueError MSG_VALIDATOR).

(** [_getsync], the [get_cmd] of the [sync] parameter:
    [self._syncoutputs.get(chan, 0)]. *)
Definition _getsync (chan : Z) : QM Z :=
  syncs <- gets _syncoutputs ;;
  ret (match Dict.get chan syncs with
       | Some sync => sync
       | None => 0
       end).

(** [self.channels[i].sync.cache()]: the value last set or read.  The
    cache of the parameter framework reads a parameter that was never
    set or read before answering, here with [_getsync], and keeps the
    value; [sync_cache = None] is that initial state. *)
Definition sync_cache_get (i : Z) : QM (option Z) :=
  c <- channel i ;;
  match sync_cache c with
  | Some sync => ret (Some sync)
  | None =>
      sync <- _getsync (channum c) ;;
      update_channel i (with_sync_cache (Some sync)) ;;
      ret (Some sync)
  end.

(** ['set {ch} {voltage:.6f};wav {ch} 0 0 0']: channel in DC mode. *)
Definition dc_command (ch : Z) (voltage : Q) : string :=
  "set " ++ Py.str ch ++ " " ++ format_f6 voltage
  ++ ";wav " ++ Py.str ch ++ " 0 0 0".

(** ** [_setsync] and [sync.set] *)

Definition _setsync (chan sync : Z) : QM unit :=
  n <- gets num_chans ;;
  raise_if (negb (Py.in_range 1 (n + 1) chan))
           (ValueError (MSG_CHANNEL_NUMBER n)) ;;
  if sync =? 0 then
    oldsync <- sync_cache_get (chan - 1) ;;
    modify (fun q => with_syncoutputs (Dict.pop chan (_syncoutputs q)) q) ;;
    match oldsync with
    | Some _ => write ("syn " ++ Py.str_opt oldsync ++ " 0 0 0")
    | None => ret tt
    end
  else
    syncs <- gets _syncoutputs ;;
    (if Dict.mem chan syncs then
       oldsync <- sync_cache_get (chan - 1) ;;
       match oldsync with
       | Some o =>
           if sync =? o then ret tt
           else write ("syn " ++ Py.str_opt oldsync ++ " 0 0 0")
       | None => write ("syn " ++ Py.str_opt oldsync ++ " 0 0 0")
       end
     else if existsb (Z.eqb sync) (Dict.values syncs) then
       let oldchan :=
         map fst (filter (fun cs => snd cs =? sync) syncs) in
       first <- or_raise IndexError (nth_error oldchan 0) ;;
       modify (fun q => with_syncoutputs (Dict.pop first (_syncoutputs q)) q) ;;
       write ("syn " ++ Py.str sync ++ " 0 0 0")
     else ret tt) ;;
    modify (fun q => with_syncoutputs (Dict.set chan sync (_syncoutputs q)) q).

(** [self.channels[chan-1].sync.set(value)]: the set command, then the
    cache of the parameter. *)
Definition sync_set (chan value : Z) : QM unit :=
  _setsync chan value ;;
  update_channel (chan - 1) (with_sync_cache (Some value)).

(** ** [_setslope] *)

(** The [try] block of [_setslope]: [fg] is the [Generator] object
    itself, and it is that object which is looked up in
    [_assigned_triggers]. *)
Definition release_generator (chan : Z) : QM unit :=
  except_KeyError
    (assigned <- gets _assigned_fgs ;;
     fg <- or_raise KeyError (Dict.get chan assigned) ;;
     modify (fun q =>
       with_assigned_fgs (Dict.set chan (with_t_end 0 fg) (_assigned_fgs q)) q) ;;
     triggers <- gets _assigned_triggers ;;
     popped <- or_raise KeyError (pop_key (KeyGenerator fg) triggers) ;;
     modify (with_assigned_triggers popped)).

Definition _setslope (chan : Z) (slope : slope_value) : QM unit :=
  n <- gets num_chans ;;
  raise_if (negb (Py.in_range 1 (n + 1) chan))
           (ValueError (MSG_CHANNEL_NUMBER n)) ;;
  match slope with
  | Inf =>
      v_set <- v_get (chan - 1) ;;
      write (dc_command chan v_set) ;;
      release_generator chan ;;
      syncs <- gets _syncoutputs ;;
      (if Dict.mem chan syncs then sync_set chan 0 else ret tt) ;;
      modify (fun q => with_slopes (Dict.pop chan (_slopes q)) q)
  | Slope s =>
      modify (fun q => with_slopes (Dict.set chan s (_slopes q)) q)
  end.

(** ** [_get_functiongenerator] *)

Definition fgs_timeout : Q := 2.

Definition _get_functiongenerator (chan : Z) : QM Z :=
  assigned <- gets _assigned_fgs ;;
  if (List.length assigned <? 8)%nat then
    fg <- or_raise (ValueError MSG_MIN_EMPTY)
            (Py.min_int (Py.difference _fgs (map fg (Dict.values assigned)))) ;;
    modify (fun q =>
      with_assigned_fgs (Dict.set chan (new_Generator fg) (_assigned_fgs q)) q) ;;
    ret fg
  else
    time_now <- time_time ;;
    let fgs_t_end_ok :=
      map t_end
        (filter (fun g => Py.ltb (t_end g) (time_now + fgs_timeout)%Q)
                (Dict.values assigned)) in
    available_fgs_chans <-
      match Py.min_float fgs_t_end_ok with
      | Some first_ready_t =>
          let available :=
            map fst
              (filter (fun cg => Py.eqb (t_end (snd cg)) first_ready_t)
                      assigned) in
          (if Py.ltb time_now first_ready_t then
             log_warning WaitingForGenerator ;;
             time_sleep (first_ready_t - time_now)%Q
           else ret tt) ;;
          ret available
      | None => ret []
      end ;;
    match available_fgs_chans with
    | oldchan :: _ =>
        assigned <- gets _assigned_fgs ;;
        old <- or_raise KeyError (Dict.get oldchan assigned) ;;
        let fg := fg old in
        modify (fun q =>
          with_assigned_fgs (Dict.pop oldchan (_assigned_fgs q)) q) ;;
        modify (fun q =>
          with_assigned_fgs
            (Dict.set chan (new_Generator fg) (_assigned_fgs q)) q) ;;
        v_set <- v_cache_get (oldchan - 1) ;;
        write (dc_command oldchan v_set) ;;
        ret fg
    | [] => raise (RuntimeError MSG_NO_GENERATOR)
    end.

(** ** [ramp_voltages_2d] and [ramp_voltages] *)

(** [ch in chans]. *)
Definition contains (chans : list Z) (ch : Z) : bool := existsb (Z.eqb ch) chans.

(** [any([ch in fast_chans for ch in slow_chans])]. *)
Definition groups_overlap (slow_chans fast_chans : list Z) : bool :=
  existsb (contains fast_chans) slow_chans.

(** The loop over [channellist] that checks each channel number and
    gets a generator for every channel that has none. *)
Definition acquire_generators (channellist : list Z) : QM unit :=
  for_each channellist (fun chan =>
    n <- gets num_chans ;;
    raise_if (negb (Py.in_range 1 (n + 1) chan))
             (ValueError (MSG_CHANNEL_NUMBER n)) ;;
    assigned <- gets _assigned_fgs ;;
    if negb (Dict.mem chan assigned)
    then _get_functiongenerator chan ;; ret tt
    else ret tt).

(** [for i in range(no_channels):
       self.channels[channellist[i]-1].v.validate(voltages[i])]. *)
Definition validate_voltages (channellist : list Z) (voltages : list Q)
  : QM unit :=
  for_each (seq 0 (List.length channellist)) (fun i =>
    ch <- or_raise IndexError (nth_error channellist i) ;;
    c <- channel (ch - 1) ;;
    v <- or_raise IndexError (nth_error voltages i) ;;
    v_validate (ch - 1) v).

(** [[self.channels[ch-1].v.get() for ch in chans]] when no start
    voltages were given for the group. *)
Definition start_voltages (vstart : list Q) (chans : list Z) : QM (list Q) :=
  match vstart with
  | [] => map_m (fun ch => v_get (ch - 1)) chans
  | _ => ret vstart
  end.

(** The trigger of the ramp: none for one channel, else the lowest
    trigger not in use. *)
Definition find_trigger (no_channels : nat) : QM Z :=
  if (no_channels =? 1)%nat then ret 0
  else
    triggers <- gets _assigned_triggers ;;
    or_raise (ValueError MSG_MIN_EMPTY)
      (Py.min_int (Py.difference _trigs (Dict.values triggers))).

(** The loop that configures the sync output of each channel owning one. *)
Definition configure_syncs (channellist : list Z) : QM unit :=
  for_each channellist (fun chan =>
    syncs <- gets _syncoutputs ;;
    match Dict.get chan syncs with
    | Some sync =>
        c <- channel (chan - 1) ;;
        let sync_duration := Py.int (1000 * sync_duration c)%Q in
        c <- channel (chan - 1) ;;
        let sync_delay := Py.int (1000 * sync_delay c)%Q in
        assigned <- gets _assigned_fgs ;;
        g <- or_raise KeyError (Dict.get chan assigned) ;;
        write ("syn " ++ Py.str sync ++ " " ++ Py.str (fg g) ++ " "
               ++ Py.str sync_delay ++ " " ++ Py.str sync_duration)
    | None => ret tt
    end).

(** One round of the loop that programs the channel amplitudes and the
    function generators; [msg] is the message built so far. *)
Definition program_channel (slow_chans fast_chans channellist : list Z)
  (v_startlist v_endlist : list Q) (step_length_ms slow_steps fast_steps : Z)
  (trigger : Z) (msg : string) (i : nat) : QM string :=
  v_end <- or_raise IndexError (nth_error v_endlist i) ;;
  v_start <- or_raise IndexError (nth_error v_startlist i) ;;
  let amplitude := (v_end - v_start)%Q in
  ch <- or_raise IndexError (nth_error channellist i) ;;
  assigned <- gets _assigned_fgs ;;
  g <- or_raise KeyError (Dict.get ch assigned) ;;
  let fg := fg g in
  (if 0 <? trigger then
     modify (fun q =>
       with_assigned_triggers (Dict.set fg trigger (_assigned_triggers q)) q)
   else ret tt) ;;
  let msg :=
    (msg ++ "wav " ++ Py.str ch ++ " " ++ Py.str fg ++ " "
         ++ format_float amplitude ++ " " ++ format_float v_start)%string in
  let nsteps := if contains slow_chans ch then slow_steps else fast_steps in
  let repetitions := if contains fast_chans ch then slow_steps else 1 in
  let delay :=
    if contains fast_chans ch then step_length_ms
    else fast_steps * step_length_ms in
  let msg :=
    (msg ++ ";fun " ++ Py.str fg ++ " " ++ Py.str Waveform.staircase ++ " "
         ++ Py.str delay ++ " " ++ Py.str nsteps ++ " "
         ++ Py.str repetitions ++ " " ++ Py.str trigger ++ ";")%string in
  v_cache_set (ch - 1) v_end ;;
  ret msg.

Fixpoint program_channels (body : string -> nat -> QM string)
  (indices : list nat) (msg : string) : QM string :=
  match indices with
  | [] => ret msg
  | i :: rest => msg' <- body msg i ;; program_channels body rest msg'
  end.

(** [for chan in channellist: self._assigned_fgs[chan].t_end = time_end]. *)
Definition set_end_times (channellist : list Z) (time_end : Q) : QM unit :=
  for_each channellist (fun chan =>
    assigned <- gets _assigned_fgs ;;
    g <- or_raise KeyError (Dict.get chan assigned) ;;
    modify (fun q =>
      with_assigned_fgs
        (Dict.set chan (with_t_end time_end g) (_assigned_fgs q)) q)).

(** [step_length_ms], after the clamp to one millisecond. *)
Definition step_length_ms_of (step_length : Q) : Z :=
  if Py.ltb step_length (1 # 1000) then 1 else Py.int (step_length * 1000)%Q.

Definition ramp_voltages_2d (slow_chans : list Z) (slow_vstart slow_vend : list Q)
  (fast_chans : list Z) (fast_vstart fast_vend : list Q)
  (step_length : Q) (slow_steps fast_steps : Z) : QM Q :=
  let channellist := slow_chans ++ fast_chans in
  let v_endlist := slow_vend ++ fast_vend in
  let v_startlist := slow_vstart ++ fast_vstart in
  (if Py.ltb step_length (1 # 1000)
   then log_warning StepLengthTooShort else ret tt) ;;
  let step_length_ms := step_length_ms_of step_length in
  raise_if (groups_overlap slow_chans fast_chans) (ValueError MSG_BOTH_GROUPS) ;;
  let no_channels := List.length channellist in
  raise_if (negb (no_channels =? List.length v_endlist)%nat)
           (ValueError MSG_VOLTAGES_INCONSISTENT) ;;
  acquire_generators channellist ;;
  (* Voltage validation *)
  validate_voltages channellist v_endlist ;;
  match v_startlist with
  | [] => ret tt
  | _ => validate_voltages channellist v_startlist
  end ;;
  (* Get start voltages if not provided *)
  slow_vstart <- start_voltages slow_vstart slow_chans ;;
  fast_vstart <- start_voltages fast_vstart fast_chans ;;
  let v_startlist := slow_vstart ++ fast_vstart in
  raise_if (negb (no_channels =? List.length v_startlist)%nat)
           (ValueError MSG_START_VOLTAGES) ;;
  (* Find trigger not already used *)
  trigger <- find_trigger no_channels ;;
  (* Make sure any sync outputs are configured *)
  configure_syncs channellist ;;
  (* Now program the channel amplitudes and function generators *)
  msg <- program_channels
           (program_channel slow_chans fast_chans channellist
              v_startlist v_endlist step_length_ms slow_steps fast_steps
              trigger)
           (seq 0 no_channels) "" ;;
  write (Py.drop_last msg) ;;
  (* Fire trigger to start generators simultaneously *)
  (if 0 <? trigger then write ("trig " ++ Py.str trigger) else ret tt) ;;
  (* Update fgs dict so that we know when the ramp is supposed to end *)
  let time_ramp :=
    (inject_Z (slow_steps * fast_steps * step_length_ms) / 1000)%Q in
  now <- time_time ;;
  let time_end := (time_ramp + now)%Q in
  set_end_times channellist time_end ;;
  ret time_ramp.

Definition ramp_voltages (channellist : list Z) (v_startlist v_endlist : list Q)
  (ramptime : Q) : QM Q :=
  ramptime <-
    (if Py.ltb ramptime (2 # 1000)
     then log_warning RampTimeTooShort ;; ret (2 # 1000)
     else ret ramptime) ;;
  let steps := Py.int (ramptime * 1000)%Q in
  ramp_voltages_2d [] [] [] channellist v_startlist v_endlist
    (1 # 1000) 1 steps.

(** ** [_set_mode] *)

Definition _clipto (value min_ max_ : Q) : QM Q :=
  if Py.ltb max_ value then log_warning VoltageClipped ;; ret max_
  else if Py.ltb value min_ then log_warning VoltageClipped ;; ret min_
  else ret value.

Definition wav_or_set_msg (chan : Z) (new_voltage : Q) : QM string :=
  write ("wav " ++ Py.str chan) ;;
  fw_str <- gets _write_response ;;
  match Py.split "," fw_str with
  | [gen; _; _] =>
      gen <- or_raise (ValueError MSG_INT) (int_of_str gen) ;;
      if 0 <? gen then
        ret ("wav " ++ Py.str chan ++ " " ++ Py.str gen ++ " "
             ++ format_f6 0 ++ " " ++ format_f6 new_voltage)%string
      else
        ret ("set " ++ Py.str chan ++ " " ++ format_f6 new_voltage)%string
  | _ => raise (ValueError MSG_UNPACK)
  end.

(** [max_zero_voltage = {0: 20e-6, 1: 3e-6}]. *)
Definition max_zero_voltage : Dict.t Q :=
  [(0, 20 # 1000000); (1, 3 # 1000000)].

(** [self.vranges[chan][vrange_int]]. *)
Definition vrange_entry (chan vrange_int : Z) : QM MinMax :=
  all <- gets vranges ;;
  of_chan <- or_raise KeyError (Dict.get chan all) ;;
  or_raise KeyError (Dict.get vrange_int of_chan).

Definition _v_vals (chan vrange_int : Z) : QM Numbers :=
  lo <- vrange_entry chan vrange_int ;;
  hi <- vrange_entry chan vrange_int ;;
  ret {| min_value := Min lo; max_value := Max hi |}.

Definition _set_mode (chan : Z) (new_mode : Mode) : QM unit :=
  c <- channel (chan - 1) ;;
  let old_mode := mode_cache c in
  let new_vrange := mode_v new_mode in
  let old_vrange := mode_v old_mode in
  let new_irange := mode_i new_mode in
  let old_irange := mode_i old_mode in
  let message := ""%string in
  if mode_eqb old_mode new_mode then ret tt
  else
    message <-
      (if negb (new_irange =? old_irange)
          && ((new_vrange =? old_vrange) && (old_vrange =? 0))
       then
         (* Only the current sensor relay has to switch *)
         ret (message ++ "cur " ++ Py.str chan ++ " "
                      ++ Py.str new_irange)%string
       else
         (* Current sensor relay on->off before voltage relay off->on *)
         let message :=
           if (new_irange <? old_irange) && (old_vrange <? new_vrange)
           then (message ++ "cur " ++ Py.str chan ++ " "
                         ++ Py.str new_irange ++ ";")%string
           else message in
         old_voltage <- v_get (chan - 1) ;;
         (* Check if voltage is non-zero and mode_force is off *)
         force <- gets mode_force ;;
         too_large <-
           (if negb force then
              limit <- or_raise KeyError (Dict.get old_vrange max_zero_voltage) ;;
              ret (Py.ltb limit (Qabs old_voltage))
            else ret false) ;;
         raise_if too_large (ValueError NON_ZERO_VOLTAGE_MSG) ;;
         lo <- vrange_entry chan new_vrange ;;
         hi <- vrange_entry chan new_vrange ;;
         new_voltage <- _clipto old_voltage (Min lo) (Max hi) ;;
         let message :=
           (message ++ "vol " ++ Py.str chan ++ " "
                    ++ Py.str new_vrange ++ ";")%string in
         m <- wav_or_set_msg chan new_voltage ;;
         let message := (message ++ m)%string in
         (* Current sensor relay off->on after voltage relay on->off *)
         let message :=
           if (old_irange <? new_irange) && (new_vrange <? old_vrange)
           then (message ++ ";cur " ++ Py.str chan ++ " "
                         ++ Py.str new_irange)%string
           else message in
         vals <- _v_vals chan new_vrange ;;
         update_channel (chan - 1) (with_v_vals vals) ;;
         v_cache_set (chan - 1) new_voltage ;;
         ret message) ;;
    write message.

End Driver.

(* ===================================================================== *)
(** * QDevil QDAC: further methods of [QDac]                               *)
(* ===================================================================== *)

(** [_reset_bookkeeping] ([self._fgs] and [self._trigs] are constants of
    the model). *)
Definition _reset_bookkeeping : M QDac unit :=
  modify (fun q =>
    with_syncoutputs []
      (with_assigned_triggers []
         (with_assigned_fgs [] (with_slopes [] q)))).

(** [_getslope]: [self._slopes.get(chan, 'Inf')]. *)
Definition _getslope (chan : Z) : M QDac slope_value :=
  slopes <- gets _slopes ;;
  ret (match Dict.get chan slopes with
       | Some slope => Slope slope
       | None => Inf
       end).

Section DriverVoltage.

Variable float_of_str : string -> option Q.
Variable format_float : Q -> string.
Variable format_f6 : Q -> string.

(** ['wav {ch} 0 0 0;set {ch} {voltage:.6f}']. *)
Definition direct_command (ch : Z) (voltage : Q) : string :=
  "wav " ++ Py.str ch ++ " 0 0 0;set " ++ Py.str ch ++ " "
  ++ format_f6 voltage.

(** [_set_voltage]: [if slope:] holds for a recorded slope other than
    zero. *)
Definition _set_voltage (chan : Z) (v_set : Q) : M QDac unit :=
  slopes <- gets _slopes ;;
  match Dict.get chan slopes with
  | Some slope =>
      if Py.eqb slope 0 then write (direct_command chan v_set)
      else
        v_start <- v_get float_of_str (chan - 1) ;;
        let duration := (Qabs (v_set - v_start) / slope)%Q in
        ramp_voltages float_of_str format_float format_f6
          [chan] [v_start] [v_set] duration ;;
        ret tt
  | None => write (direct_command chan v_set)
  end.

End DriverVoltage.

(* ===================================================================== *)
(** * Example instruments                                                  *)
(* ===================================================================== *)

(** A channel as [QDacChannel.__init__] and the first [_update_cache]
    leave it on an instrument whose outputs are at 0 V. *)
Definition fresh_channel (n : Z) : QDacChannel :=
  {| channum := n; v_cache := 0;
     v_vals := {| min_value := - (999 # 100); max_value := 999 # 100 |};
     mode_cache := vhigh_ihigh; sync_cache := None;
     sync_delay := 0; sync_duration := 1 # 100 |}.

Definition calibrated_ranges : Dict.t MinMax :=
  [(0, {| Min := - (999 # 100); Max := 999 # 100 |});
   (1, {| Min := - (11 # 10); Max := 11 # 10 |})].

(** An instrument with [n] channels just after initialisation, at clock
    time [now], whose VISA handle will deliver the lines [replies]. *)
Definition fresh_qdac (n : Z) (now : Q) (replies : list string) : QDac :=
  {| num_chans := n;
     channels := map fresh_channel (Py.range 1 (n + 1));
     vranges := map (fun ch => (ch, calibrated_ranges)) (Py.range 1 (n + 1));
     mode_force := false;
     _slopes := [];
     _assigned_fgs := [];
     _assigned_triggers := [];
     _syncoutputs := [];
     _write_response := "";
     visa_status := 0;
     visa_incoming := replies;
     clock := now;
     trace := [] |}.

(** The same instrument with generators [1..k] assigned to channels
    [1..k], all ending at [t]. *)
Definition busy_qdac (n : Z) (now : Q) (replies : list string)
  (k : Z) (t : Q) : QDac :=
  with_assigned_fgs
    (map (fun ch => (ch, {| fg := ch; t_end := t |})) (Py.range 1 (k + 1)))
    (fresh_qdac n now replies).

(** A device with 4-byte packets that accepts every report, a 2 s
    timeout, and a reply arriving during the second polling sleep. *)
Definition small_device : HID.USBHIDMixin :=
  {| HID.packet_size := 4; HID._timeout := 2; HID._data_buffer := None;
     HID.device_accepts := true; HID.output_reports := [];
     HID.arrivals := [None; Some [x01; x2a; x2b; x00; x00]];
     HID.sleeps := O |}.

(** An instrument, 1000 s after the epoch, whose 8 generators serve
    channels 1 to 8 in ramps ending 5 s later, generators 1 and 2 having
    been started by trigger 1; channel 1 will report 0.5 V. *)
Definition ramping_qdac : QDac :=
  with_assigned_triggers [(1, 1); (2, 1)]
    (busy_qdac 24 1000 ["0.5"; "ok"; "ok"; "ok"; "ok"]%string 8 1005).

(** An instrument with [mode_force] set whose channel 1 reports 5 V and
    is attached to no generator. *)
Definition forced_qdac : QDac :=
  let q := fresh_qdac 24 1000 ["5.0"; "0,0,0"; "a"; "b"; "c"]%string in
  {| num_chans := num_chans q; channels := channels q; vranges := vranges q;
     mode_force := true; _slopes := _slopes q;
     _assigned_fgs := _assigned_fgs q;
     _assigned_triggers := _assigned_triggers q;
     _syncoutputs := _syncoutputs q; _write_response := _write_response q;
     visa_status := visa_status q; visa_incoming := visa_incoming q;
     clock := clock q; trace := trace q |}.

(** Channels 1 and 2 of a fresh 24-channel instrument, both at 0 V, and
    the seven reply lines a two-channel ramp takes. *)
Definition two_channel_qdac : QDac :=
  fresh_qdac 24 1000
    ["0.000000"; "0.000000"; "ok"; "ok"; "ok"; "ok"; "ok"]%string.

(** An instrument whose 8 generators serve channels 1 to 8 in ramps that
    ended long ago, with two reply lines pending. *)
Definition idle_full_qdac : QDac :=
  busy_qdac 24 1000 ["ok"; "ok"]%string 8 0.

(** Channels 1 and 2 of a fresh 24-channel instrument own the sync
    outputs 1 and 2, as [sync.set] records them; one reply line is
    pending. *)
Definition synced_qdac : QDac :=
  snd (sync_set 2 2 (snd (sync_set 1 1 (fresh_qdac 24 1000 ["ok"%string])))).

(* ===================================================================== *)
(** * Vocabulary of the statements                                         *)
(* ===================================================================== *)

(** [preserves R m]: whatever [m] returns or raises, the state it leaves
    is related by [R] to the state it started from. *)
Definition preserves {S A : Type} (R : S -> S -> Prop) (m : M S A) : Prop :=
  forall s, R s (snd (m s)).

(** [keeps view]: the part of the instrument selected by [view] is left
    as it was.  [emits P]: the trace grows, by events satisfying [P]. *)
Definition keeps {T : Type} (view : QDac -> T) (q q' : QDac) : Prop :=
  view q' = view q.

Definition emits (P : event -> Prop) (q q' : QDac) : Prop :=
  exists evs, trace q' = trace q ++ evs /\ Forall P evs.

(** Everything of the instrument object except the VISA queue, the
    retained reply and the trace. *)
Definition settings (q : QDac) :=
  (num_chans q, channels q, vranges q, mode_force q, _slopes q,
   _assigned_fgs q, _assigned_triggers q, _syncoutputs q, visa_status q,
   clock q).

(** An event other than the firing of a trigger. *)
Definition quiet (e : event) : Prop :=
  match e with
  | Written cmd => String.prefix "trig " cmd = false
  | _ => True
  end.

(** [raises_within R q0 x]: the outcome [x] is an exception, raised in a
    state related by [R] to [q0]. *)
Definition raises_within {A : Type} (R : QDac -> QDac -> Prop) (q0 : QDac)
  (x : res A * QDac) : Prop :=
  (exists e, fst x = Raise e) /\ R q0 (snd x).

(** What a rejected request leaves untouched: the channels with their
    cached voltages and validators, the trigger, sync and slope
    bookkeeping. *)
Definition untouched (q : QDac) :=
  (num_chans q, channels q, _assigned_triggers q, _syncoutputs q, _slopes q).

(** The only commands written before a request is rejected on its
    channel numbers or voltages: a channel displaced from its generator
    is put back in DC mode.  Before a rejection on the number of start
    voltages, present voltages may have been queried as well. *)
Definition reset_only (format_f6 : Q -> string) (e : event) : Prop :=
  match e with
  | Written cmd => exists ch v, cmd = dc_command format_f6 ch v
  | _ => True
  end.

Definition reset_or_query (format_f6 : Q -> string) (e : event) : Prop :=
  match e with
  | Written cmd =>
      (exists ch v, cmd = dc_command format_f6 ch v)
      \/ (exists n, cmd = ("set " ++ Py.str n)%string)
  | _ => True
  end.

Definition rejected_early (format_f6 : Q -> string) (q q' : QDac) : Prop :=
  keeps untouched q q' /\ emits (reset_only format_f6) q q'.

Definition rejected_late (format_f6 : Q -> string) (q q' : QDac) : Prop :=
  keeps (fun s => (_assigned_triggers s, _syncoutputs s, _slopes s)) q q'
  /\ emits (reset_or_query format_f6) q q'.

(** The channel number of a request outside [1..num_chans]. *)
Definition invalid_channel (q : QDac) (channellist : list Z) : Prop :=
  exists ch, In ch channellist /\ Py.in_range 1 (num_chans q + 1) ch = false.

(** A voltage of a request outside the validator of its channel. *)
Definition out_of_range (q : QDac) (channellist : list Z) (voltages : list Q)
  : Prop :=
  exists i ch c v,
    nth_error channellist i = Some ch
    /\ Py.getitem (channels q) (ch - 1) = Some c
    /\ nth_error voltages i = Some v
    /\ in_bounds (v_vals c) v = false.

(** [slow_steps * fast_steps * step_length_ms / 1000]: the duration
    computed with the step length cut to whole milliseconds and clamped
    to at least one. *)
Definition expected_duration (step_length : Q) (slow_steps fast_steps : Z)
  : Q :=
  (inject_Z (slow_steps * fast_steps * step_length_ms_of step_length)
   / 1000)%Q.

(** The near-zero threshold of a voltage range, as [max_zero_voltage]
    has it: 20 uV in the high range, 3 uV in the low range. *)
Definition near_zero_threshold (m : Mode) : Q :=
  match m with
  | vlow_ilow => 3 # 1000000
  | _ => 20 # 1000000
  end.

(** The relay message [_set_mode] sends when the voltage range changes,
    for a channel attached to generator [gen] (0: none). *)
Definition range_change_message (format_f6 : Q -> string) (chan : Z)
  (old_mode new_mode : Mode) (gen : Z) (new_voltage : Q) : string :=
  let new_vrange := mode_v new_mode in
  let old_vrange := mode_v old_mode in
  let new_irange := mode_i new_mode in
  let old_irange := mode_i old_mode in
  let message :=
    if (new_irange <? old_irange) && (old_vrange <? new_vrange)
    then ("" ++ "cur " ++ Py.str chan ++ " " ++ Py.str new_irange ++ ";")%string
    else ""%string in
  let message :=
    (message ++ "vol " ++ Py.str chan ++ " "
             ++ Py.str new_vrange ++ ";")%string in
  let m :=
    if 0 <? gen
    then ("wav " ++ Py.str chan ++ " " ++ Py.str gen ++ " "
                 ++ format_f6 0%Q ++ " " ++ format_f6 new_voltage)%string
    else ("set " ++ Py.str chan ++ " " ++ format_f6 new_voltage)%string in
  let message := (message ++ m)%string in
  if (old_irange <? new_irange) && (new_vrange <? old_vrange)
  then (message ++ ";cur " ++ Py.str chan ++ " " ++ Py.str new_irange)%string
  else message.

(** A message that starts with a waveform command and goes on. *)
Definition wav_headed (s : string) : Prop :=
  exists r, r <> EmptyString /\ s = ("wav " ++ r)%string.

(** A message whose last function command carries trigger [t]. *)
Definition ends_with_trigger (t : Z) (s : string) : Prop :=
  exists body, s = (((body ++ " ") ++ Py.str t) ++ ";")%string.

(** The report [send_hid] builds: feature id, payload, zero padding. *)
Definition hid_report (id : byte) (data : list byte) (packet_size : Z)
  : list byte :=
  id :: data ++ repeat x00 (Z.to_nat (packet_size - Z.of_nat (List.length data))).

(** The samples of [linspace] before the last one is overwritten. *)
Definition sample {F : Type} (A : Sweep.Arithmetic F) (start stop : F)
  (num : Z) (k : nat) : F :=
  let div_ := Sweep.of_int A (num - 1) in
  let delta := Sweep.sub A stop start in
  let i := Sweep.of_int A (Z.of_nat k) in
  if Sweep.is_zero A (Sweep.div A delta div_)
  then Sweep.add A (Sweep.mul A (Sweep.div A i div_) delta) start
  else Sweep.add A (Sweep.mul A i (Sweep.div A delta div_)) start.

(** The generator pool is well formed: no channel is listed twice, no
    generator is held by two channels, and every generator held is one
    of the 8 of the instrument. *)
Definition well_formed_pool (d : Dict.t Generator) : Prop :=
  NoDup (Dict.keys d)
  /\ NoDup (map fg (Dict.values d))
  /\ Forall (fun g => 1 <= fg g <= 8) (Dict.values d).

Definition pool_ok (q : QDac) : Prop := well_formed_pool (_assigned_fgs q).

(** [maintains I q q']: if [I] held before, it holds after. *)
Definition maintains (I : QDac -> Prop) (q q' : QDac) : Prop := I q -> I q'.

(** No sync output is owned by two channels. *)
Definition syncs_ok (q : QDac) : Prop :=
  NoDup (Dict.keys (_syncoutputs q)) /\ NoDup (Dict.values (_syncoutputs q)).

(* ===================================================================== *)
(** * Reasoning about computations                                         *)
(* ===================================================================== *)

Lemma Ok_inj {A : Type} (a b : A) : Ok a = Ok b -> a = b.
Proof. intros H. now injection H. Qed.

Lemma bind_Ok {S A B : Type} (m : M S A) (f : A -> M S B) s a s' :
  m s = (Ok a, s') -> bind m f s = f a s'.
Proof. intros H. unfold bind. now rewrite H. Qed.

Lemma bind_Raise {S A B : Type} (m : M S A) (f : A -> M S B) s e s' :
  m s = (Raise e, s') -> bind m f s = (Raise e, s').
Proof. intros H. unfold bind. now rewrite H. Qed.

(** A successful sequence ran both of its parts successfully. *)
Lemma bind_Ok_inv {S A B : Type} (m : M S A) (f : A -> M S B) s b s2 :
  bind m f s = (Ok b, s2) ->
  exists a s1, m s = (Ok a, s1) /\ f a s1 = (Ok b, s2).
Proof.
  unfold bind. destruct (m s) as [[a | e] s1]; intros H.
  - now exists a, s1.
  - discriminate.
Qed.

Lemma or_raise_Ok_inv {S A : Type} e (o : option A) (s : S) a s' :
  or_raise e o s = (Ok a, s') -> o = Some a /\ s' = s.
Proof.
  destruct o; unfold or_raise, ret, raise; intros H; inversion H; auto.
Qed.

Lemma raise_if_Ok_inv {S : Type} c e (s : S) u s' :
  raise_if c e s = (Ok u, s') -> c = false /\ s' = s.
Proof.
  destruct c; unfold raise_if, ret, raise; intros H; inversion H; auto.
Qed.

(** ** Relations between the state before and after a computation *)

Section Frame.

Context {S : Type} (R : S -> S -> Prop).
Hypothesis R_refl : forall s, R s s.
Hypothesis R_trans : forall s1 s2 s3, R s1 s2 -> R s2 s3 -> R s1 s3.

Lemma preserves_ret {A : Type} (a : A) : preserves R (ret a).
Proof. intros s. apply R_refl. Qed.

Lemma preserves_raise {A : Type} e : preserves R (@raise S A e).
Proof. intros s. apply R_refl. Qed.

Lemma preserves_gets {A : Type} (f : S -> A) : preserves R (gets f).
Proof. intros s. apply R_refl. Qed.

Lemma preserves_or_raise {A : Type} e (o : option A) :
  preserves R (or_raise e o).
Proof. destruct o; intros s; apply R_refl. Qed.

Lemma preserves_raise_if c e : preserves R (raise_if c e).
Proof. destruct c; intros s; apply R_refl. Qed.

Lemma preserves_modify (f : S -> S) :
  (forall s, R s (f s)) -> preserves R (modify f).
Proof. intros H s. apply H. Qed.

Lemma preserves_bind {A B : Type} (m : M S A) (f : A -> M S B) :
  preserves R m -> (forall a, preserves R (f a)) -> preserves R (bind m f).
Proof.
  intros Hm Hf s. unfold bind. specialize (Hm s).
  destruct (m s) as [[a | e] s1]; simpl in *.
  - apply R_trans with s1; [assumption | apply Hf].
  - assumption.
Qed.

Lemma preserves_for_each {A : Type} (l : list A) (body : A -> M S unit) :
  (forall x, preserves R (body x)) -> preserves R (for_each l body).
Proof.
  intros Hb. induction l as [| x tl IH]; simpl.
  - apply preserves_ret.
  - apply preserves_bind; auto.
Qed.

Lemma preserves_map_m {A B : Type} (f : A -> M S B) (l : list A) :
  (forall x, preserves R (f x)) -> preserves R (map_m f l).
Proof.
  intros Hf. induction l as [| x tl IH]; simpl.
  - apply preserves_ret.
  - apply preserves_bind; [apply Hf | intros y].
    apply preserves_bind; [apply IH | intros ys; apply preserves_ret].
Qed.

Lemma preserves_except_KeyError (m : M S unit) :
  preserves R m -> preserves R (except_KeyError m).
Proof.
  intros Hm s. unfold except_KeyError. specialize (Hm s).
  destruct (m s) as [[a | []] s1]; simpl in *; assumption.
Qed.

End Frame.

Lemma keeps_refl {T : Type} (view : QDac -> T) q : keeps view q q.
Proof. reflexivity. Qed.

Lemma keeps_trans {T : Type} (view : QDac -> T) q1 q2 q3 :
  keeps view q1 q2 -> keeps view q2 q3 -> keeps view q1 q3.
Proof. unfold keeps. congruence. Qed.

Lemma emits_refl P q : emits P q q.
Proof. exists []. split; [now rewrite app_nil_r | constructor]. Qed.

Lemma emits_trans P q1 q2 q3 :
  emits P q1 q2 -> emits P q2 q3 -> emits P q1 q3.
Proof.
  intros (e1 & H1 & F1) (e2 & H2 & F2). exists (e1 ++ e2). split.
  - now rewrite H2, H1, app_assoc.
  - apply Forall_app; auto.
Qed.

Lemma emits_one (P : event -> Prop) e q :
  P e -> emits P q (with_trace (trace q ++ [e]) q).
Proof. intros H. exists [e]. split; [reflexivity | now constructor]. Qed.

Lemma emits_weaken (P P' : event -> Prop) q q' :
  (forall e, P e -> P' e) -> emits P q q' -> emits P' q q'.
Proof.
  intros H (evs & E & F). exists evs. split; [assumption |].
  eapply Forall_impl; eauto.
Qed.

(* ===================================================================== *)
(** * The line protocol: [QDac.write]                                      *)
(* ===================================================================== *)

Lemma read_responses_Ok (n : nat) :
  forall q, (n <= List.length (visa_incoming q))%nat ->
  exists q',
    read_responses n q = (Ok tt, q')
    /\ visa_incoming q' = skipn n (visa_incoming q)
    /\ (forall k, n = S k ->
        nth_error (visa_incoming q) k = Some (_write_response q'))
    /\ (n = O -> _write_response q' = _write_response q)
    /\ trace q' = trace q
    /\ settings q' = settings q.
Proof.
  induction n as [| n IH]; intros q Hlen.
  - exists q. repeat split; try reflexivity. intros k Hk. discriminate.
  - destruct (visa_incoming q) as [| line rest] eqn:Hin;
      [simpl in Hlen; lia |].
    set (q1 := with_write_response line (with_incoming rest q)).
    destruct (IH q1) as (q' & Hrun & Hrest & Hlast & Hzero & Htr & Hset).
    { simpl in *. lia. }
    exists q'. cbn [read_responses]. unfold bind at 1, visa_read.
    rewrite Hin. unfold bind at 1, modify. fold q1.
    repeat split.
    + exact Hrun.
    + exact Hrest.
    + intros k Hk. injection Hk as <-. destruct n as [| n'].
      * rewrite Hzero by reflexivity. reflexivity.
      * simpl. apply (Hlast n' eq_refl).
    + intros Hk. discriminate.
    + exact Htr.
    + exact Hset.
Qed.

(** With too few reply lines pending, the read loop times out. *)
Lemma read_responses_short (n : nat) :
  forall q, (List.length (visa_incoming q) < n)%nat ->
  exists q', read_responses n q = (Raise VisaIOError, q')
             /\ visa_incoming q' = [].
Proof.
  induction n as [| n IH]; intros q Hlen; [lia |].
  cbn [read_responses]. unfold bind at 1, visa_read.
  destruct (visa_incoming q) as [| line rest] eqn:Hin.
  - exists q. split; [reflexivity | assumption].
  - unfold bind at 1, modify.
    apply IH. simpl in *. lia.
Qed.

Lemma write_Ok (cmd : string) (q : QDac) :
  visa_status q = 0 ->
  (Py.count ";" cmd + 1 <= List.length (visa_incoming q))%nat ->
  exists q',
    write cmd q = (Ok tt, q')
    /\ visa_incoming q' = skipn (Py.count ";" cmd + 1) (visa_incoming q)
    /\ nth_error (visa_incoming q) (Py.count ";" cmd)
       = Some (_write_response q')
    /\ trace q' = trace q ++ [Written cmd]
    /\ settings q' = settings q.
Proof.
  intros Hst Hlen.
  set (q1 := with_trace (trace q ++ [Written cmd]) q).
  destruct (read_responses_Ok (Py.count ";" cmd + 1) q1)
    as (q' & Hrun & Hrest & Hlast & _ & Htr & Hset); [exact Hlen |].
  exists q'. repeat split.
  - unfold write, visa_write, emit, check_error, raise_if, bind, modify,
      gets, ret. fold q1. cbn [visa_status q1 with_trace]. rewrite Hst.
    simpl negb. cbv iota. exact Hrun.
  - exact Hrest.
  - apply (Hlast (Py.count ";" cmd)). lia.
  - exact Htr.
  - exact Hset.
Qed.

(** C7. For every command string passed to [write] (on a healthy link
    whose instrument answers every sub-command), the call succeeds,
    takes exactly [count(';') + 1] reply lines off the transport - one
    per semicolon-joined sub-command - and keeps in [_write_response]
    the last of them, the reply to the final sub-command; it sends the
    command once and touches nothing else. *)
Theorem write_drains_one_reply_per_subcommand (cmd : string) (q : QDac) :
  visa_status q = 0 ->
  (Py.count ";" cmd + 1 <= List.length (visa_incoming q))%nat ->
  exists q',
    write cmd q = (Ok tt, q')
    /\ List.length (visa_incoming q')
       = (List.length (visa_incoming q) - (Py.count ";" cmd + 1))%nat
    /\ visa_incoming q' = skipn (Py.count ";" cmd + 1) (visa_incoming q)
    /\ nth_error (visa_incoming q) (Py.count ";" cmd)
       = Some (_write_response q')
    /\ trace q' = trace q ++ [Written cmd]
    /\ settings q' = settings q.
Proof.
  intros Hst Hlen.
  destruct (write_Ok cmd q Hst Hlen) as (q' & Hrun & Hrest & Hlast & Htr & Hset).
  exists q'. repeat split; try assumption.
  rewrite Hrest. apply length_skipn.
Qed.

(* ===================================================================== *)
(** * The generator pool: [_get_functiongenerator]                         *)
(* ===================================================================== *)

Section PoolFacts.

Variable format_f6 : Q -> string.

Lemma filter_none {A : Type} (p : A -> bool) (l : list A) :
  (forall x, In x l -> p x = false) -> filter p l = [].
Proof.
  induction l as [| x tl IH]; intros H; simpl; [reflexivity |].
  rewrite (H x) by now left. apply IH. intros y Hy. apply H. now right.
Qed.

Lemma ltb_false_iff (x y : Q) : Py.ltb x y = false <-> ~ (x < y)%Q.
Proof.
  unfold Py.ltb. rewrite negb_false_iff, Qle_bool_iff. split.
  - intros H. now apply Qle_not_lt.
  - intros H. now apply Qnot_lt_le.
Qed.

Lemma ltb_true_iff (x y : Q) : Py.ltb x y = true <-> (x < y)%Q.
Proof.
  unfold Py.ltb. rewrite negb_true_iff. split.
  - intros H. apply Qnot_le_lt. intros Hle.
    apply Qle_bool_iff in Hle. congruence.
  - intros H. destruct (Qle_bool y x) eqn:E; [| reflexivity].
    apply Qle_bool_iff in E. exfalso. now apply (Qle_not_lt _ _ E).
Qed.

(** C2. With (at least) 8 generators assigned and no recorded end time
    below [time.time() + 2], asking for a generator raises the
    resource-exhaustion [RuntimeError] at once: no sleep, no write, no
    change of state. *)
Theorem get_functiongenerator_exhausted (chan : Z) (q : QDac) :
  (8 <= List.length (_assigned_fgs q))%nat ->
  (forall c g, In (c, g) (_assigned_fgs q) ->
               ~ (t_end g < clock q + fgs_timeout)%Q) ->
  _get_functiongenerator format_f6 chan q
  = (Raise (RuntimeError MSG_NO_GENERATOR), q).
Proof.
  intros Hlen Hlate.
  unfold _get_functiongenerator, time_time, bind, gets.
  destruct (Nat.ltb_spec (List.length (_assigned_fgs q)) 8) as [Hlt | _];
    [lia |].
  rewrite filter_none.
  - reflexivity.
  - intros g Hg. apply ltb_false_iff.
    unfold Dict.values in Hg. apply in_map_iff in Hg.
    destruct Hg as ([c g'] & <- & Hin). now apply (Hlate c g').
Qed.

End PoolFacts.

(** The pool of an instrument whose 8 generators all end 5 s from now. *)
Lemma get_functiongenerator_exhausted_witness :
  (8 <= List.length (_assigned_fgs (busy_qdac 24 1000 [] 8 1005)))%nat
  /\ _get_functiongenerator Text.format_f6 9 (busy_qdac 24 1000 [] 8 1005)
     = (Raise (RuntimeError MSG_NO_GENERATOR), busy_qdac 24 1000 [] 8 1005).
Proof.
  split; [vm_compute; lia |].
  apply (get_functiongenerator_exhausted Text.format_f6 9
           (busy_qdac 24 1000 [] 8 1005)).
  - vm_compute. lia.
  - intros c g Hin Hlt.
    assert (Hall : Forall (fun cg : Z * Generator =>
                             t_end (snd cg) == 1005)
                          (_assigned_fgs (busy_qdac 24 1000 [] 8 1005))).
    { vm_compute. repeat constructor. }
    rewrite Forall_forall in Hall. specialize (Hall _ Hin). simpl in Hall.
    rewrite Hall in Hlt. vm_compute in Hlt. discriminate.
Defined.

(* ===================================================================== *)
(** * The HID wire format                                                  *)
(* ===================================================================== *)

Lemma hid_report_length id data packet_size :
  Z.of_nat (List.length data) <= packet_size ->
  Z.of_nat (List.length (hid_report id data packet_size)) = packet_size + 1.
Proof.
  intros H. unfold hid_report. cbn [List.length].
  rewrite length_app, repeat_length. lia.
Qed.

Lemma struct_pack_report fid id data packet_size :
  0 <= fid < 256 -> Byte.of_N (Z.to_N fid) = Some id ->
  Z.of_nat (List.length data) <= packet_size ->
  HID.struct_pack fid data (Z.of_nat (List.length data))
    (packet_size - Z.of_nat (List.length data))
  = Some (hid_report id data packet_size).
Proof.
  intros Hfid Hid Hlen. unfold HID.struct_pack, Py.in_range.
  replace ((0 <=? fid) && (fid <? 256)) with true
    by (symmetry; apply andb_true_iff; split; lia).
  rewrite Hid, Nat2Z.id, firstn_all, Nat.sub_diag. reflexivity.
Qed.

(** A reply returned by the polling loop was in the mailbox or was
    delivered by the handler during one of the sleeps. *)
Lemma poll_reply (n : nat) :
  forall dev reply dev',
    HID.poll n dev = (Ok (Some reply), dev') ->
    HID._data_buffer dev = Some reply \/ In (Some reply) (HID.arrivals dev).
Proof.
  induction n as [| n IH]; intros dev reply dev' H.
  - discriminate.
  - cbn [HID.poll] in H. unfold bind at 1 in H. unfold HID.sleep_once in H.
    destruct (HID.arrivals dev) as [| [data |] rest] eqn:Harr;
      unfold bind at 1, HID._get_data_buffer, bind, gets, modify, ret in H;
      cbn in H.
    + destruct (HID._data_buffer dev) as [b |] eqn:Hbuf.
      * left. congruence.
      * apply IH in H. cbn in H. destruct H as [H | []]. discriminate.
    + right. left. congruence.
    + destruct (HID._data_buffer dev) as [b |] eqn:Hbuf.
      * left. congruence.
      * apply IH in H. cbn in H. destruct H as [H | H]; [discriminate |].
        right. now right.
Qed.

(** C8 (as the code has it). [send_hid] accepts a payload of at most
    [packet_size] bytes and raises [ValueError], sending nothing, for a
    longer one; the report it hands to the device has [packet_size + 1]
    bytes: one feature-id byte, the payload, zero padding.  [ask_hid]
    returns a reply, taken from the mailbox, without its first byte. *)
Theorem hid_wire_format (fid : Z) (id : byte) (data : list byte)
  (dev : HID.USBHIDMixin) :
  0 <= fid < 256 -> Byte.of_N (Z.to_N fid) = Some id ->
  let len := Z.of_nat (List.length data) in
  let report := hid_report id data (HID.packet_size dev) in
  HID.send_hid fid data dev
  = (if HID.packet_size dev <? len
     then (Raise (ValueError "Length of data exceeds packet_size B"), dev)
     else (if HID.device_accepts dev then Ok tt
           else Raise (RuntimeError "Communication with device failed"),
           HID.with_output_report report dev))
  /\ (len <= HID.packet_size dev ->
      Z.of_nat (List.length report) = HID.packet_size dev + 1
      /\ firstn (S (List.length data)) report = id :: data
      /\ Forall (eq x00) (skipn (S (List.length data)) report))
  /\ (forall r dev',
        HID.ask_hid fid data dev = (Ok r, dev') ->
        exists reply,
          (HID._data_buffer dev = Some reply
           \/ In (Some reply) (HID.arrivals dev))
          /\ r = tl reply).
Proof.
  intros Hfid Hid len report.
  assert (Hsend :
    HID.send_hid fid data dev
    = (if HID.packet_size dev <? len
       then (Raise (ValueError "Length of data exceeds packet_size B"), dev)
       else (if HID.device_accepts dev then Ok tt
             else Raise (RuntimeError "Communication with device failed"),
             HID.with_output_report report dev))).
  { unfold HID.send_hid, bind at 1, gets. fold len.
    destruct (Z.ltb_spec (HID.packet_size dev) len) as [Hlong | Hfits].
    - replace (HID.packet_size dev - len <? 0) with true
        by (symmetry; apply Z.ltb_lt; lia).
      reflexivity.
    - replace (HID.packet_size dev - len <? 0) with false
        by (symmetry; apply Z.ltb_ge; lia).
      unfold bind at 1, raise_if, ret. unfold bind at 1. unfold len.
      rewrite (struct_pack_report fid id data (HID.packet_size dev) Hfid Hid Hfits).
      fold report. unfold or_raise, ret, bind at 1.
      unfold HID.send_output_report, bind, modify, gets. cbn.
      destruct (HID.device_accepts dev); reflexivity. }
  split; [exact Hsend |]. split.
  - intros Hfits. split; [now apply hid_report_length |].
    unfold report, hid_report. split.
    + cbn [firstn]. f_equal.
      rewrite firstn_app, firstn_all, Nat.sub_diag. cbn. apply app_nil_r.
    + cbn [skipn]. rewrite skipn_app, skipn_all, Nat.sub_diag. cbn.
      apply Forall_forall. intros x Hx. apply repeat_spec in Hx. now subst.
  - intros r dev' Hask. unfold HID.ask_hid in Hask.
    apply bind_Ok_inv in Hask. destruct Hask as ([] & dev1 & Hs & Hask).
    rewrite Hsend in Hs.
    destruct (HID.packet_size dev <? len); [discriminate |].
    injection Hs as _ <-.
    apply bind_Ok_inv in Hask. destruct Hask as (t & dev2 & Ht & Hask).
    unfold gets in Ht. injection Ht as <- <-.
    apply bind_Ok_inv in Hask. destruct Hask as ([reply |] & dev3 & Hp & Hask).
    + apply poll_reply in Hp. cbn in Hp.
      exists reply. split; [exact Hp |].
      unfold ret in Hask. congruence.
    + discriminate.
Qed.

Lemma hid_wire_format_witness :
  HID.send_hid 1 [x2a; x2b] small_device
  = (Ok tt, HID.with_output_report [x01; x2a; x2b; x00; x00] small_device)
  /\ fst (HID.ask_hid 1 [x2a; x2b] small_device) = Ok [x2a; x2b; x00; x00].
Proof.
  destruct (hid_wire_format 1 x01 [x2a; x2b] small_device)
    as (Hsend & _ & _); [lia | reflexivity |].
  split; [exact Hsend | reflexivity].
Defined.

(** C8, refuted as stated: a payload of [packet_size] bytes (more than
    [packet_size - 1]) is accepted, and the report sent has
    [packet_size + 1] bytes, not [packet_size]. *)
Lemma send_hid_full_payload_counterexample :
  let data := [x0a; x0b; x0c; x0d] in
  HID.packet_size small_device - 1 < Z.of_nat (List.length data)
  /\ fst (HID.send_hid 1 data small_device) = Ok tt
  /\ HID.output_reports (snd (HID.send_hid 1 data small_device))
     = [[x01; x0a; x0b; x0c; x0d]]
  /\ Z.of_nat (List.length [x01; x0a; x0b; x0c; x0d])
     <> HID.packet_size small_device.
Proof.
  cbv zeta. repeat split; try reflexivity; vm_compute; congruence.
Qed.

(* ===================================================================== *)
(** * Linear sweeps                                                        *)
(* ===================================================================== *)

Lemma seq_snoc (a n : nat) : seq a (S n) = seq a n ++ [(a + n)%nat].
Proof. apply seq_S. Qed.

Lemma overwrite_last_map {A F : Type} (g : A -> F) (l : list A) (x : A) stop :
  Sweep.overwrite_last stop (map g (l ++ [x])) = map g l ++ [stop].
Proof.
  unfold Sweep.overwrite_last. rewrite map_app. cbn [map].
  destruct (map g l ++ [g x]) eqn:E.
  - destruct (map g l); discriminate.
  - rewrite <- E. now rewrite removelast_last.
Qed.

Lemma linspace_samples {F : Type} (A : Sweep.Arithmetic F) (start stop : F)
  (num : Z) :
  2 <= num ->
  Sweep.linspace A start stop num
  = Ok (map (sample A start stop num) (seq 0 (Z.to_nat (num - 1))) ++ [stop]).
Proof.
  intros Hn. unfold Sweep.linspace.
  replace (num <? 0) with false by (symmetry; apply Z.ltb_ge; lia).
  replace (0 <? num - 1) with true by (symmetry; apply Z.ltb_lt; lia).
  replace (1 <? num) with true by (symmetry; apply Z.ltb_lt; lia).
  f_equal. unfold Sweep.arange.
  replace (Z.to_nat num) with (S (Z.to_nat (num - 1))) by lia.
  rewrite seq_snoc. cbv zeta.
  destruct (Sweep.is_zero A
              (Sweep.div A (Sweep.sub A stop start) (Sweep.of_int A (num - 1))))
    eqn:E;
    rewrite !map_map, overwrite_last_map; f_equal;
    apply map_ext; intros k; unfold sample; rewrite E; reflexivity.
Qed.

Lemma non_decreasing_snoc (g : nat -> Q) (z : Q) (m : nat) :
  forall a,
    (forall i, (a <= i)%nat -> (S i < a + m)%nat -> (g i <= g (S i))%Q) ->
    (forall i, (S i = a + m)%nat -> (0 < m)%nat -> (g i <= z)%Q) ->
    Sweep.non_decreasing (map g (seq a m) ++ [z]).
Proof.
  induction m as [| m IH]; intros a Hstep Hlast; [exact I |].
  cbn [seq map app]. destruct m as [| m'].
  - cbn. split; [| exact I]. apply Hlast; lia.
  - change (Sweep.non_decreasing
              (g a :: (map g (seq (S a) (S m')) ++ [z]))).
    assert (Htail := IH (S a)). cbn [seq map app] in Htail |- *.
    split.
    + apply Hstep; lia.
    + apply Htail.
      * intros i H1 H2. apply Hstep; lia.
      * intros i H1 H2. apply Hlast; lia.
Qed.

Lemma non_increasing_snoc (g : nat -> Q) (z : Q) (m : nat) :
  forall a,
    (forall i, (a <= i)%nat -> (S i < a + m)%nat -> (g (S i) <= g i)%Q) ->
    (forall i, (S i = a + m)%nat -> (0 < m)%nat -> (z <= g i)%Q) ->
    Sweep.non_increasing (map g (seq a m) ++ [z]).
Proof.
  induction m as [| m IH]; intros a Hstep Hlast; [exact I |].
  cbn [seq map app]. destruct m as [| m'].
  - cbn. split; [| exact I]. apply Hlast; lia.
  - change (Sweep.non_increasing
              (g a :: (map g (seq (S a) (S m')) ++ [z]))).
    assert (Htail := IH (S a)). cbn [seq map app] in Htail |- *.
    split.
    + apply Hstep; lia.
    + apply Htail.
      * intros i H1 H2. apply Hstep; lia.
      * intros i H1 H2. apply Hlast; lia.
Qed.

Lemma sample_value (start stop : Q) (num : Z) (k : nat) :
  2 <= num ->
  (sample Sweep.exact start stop num k
   == start + inject_Z (Z.of_nat k) * ((stop - start) / inject_Z (num - 1)))%Q.
Proof.
  intros Hn. unfold sample.
  cbn [Sweep.add Sweep.sub Sweep.mul Sweep.div Sweep.is_zero Sweep.of_int
         Sweep.exact].
  assert (Hdiv : ~ (inject_Z (num - 1) == 0)%Q).
  { intros H. unfold Qeq in H. simpl in H. lia. }
  destruct (Qeq_bool ((stop - start) / inject_Z (num - 1)) 0) eqn:E.
  - field. exact Hdiv.
  - ring.
Qed.

Lemma step_sign (start stop : Q) (num : Z) :
  2 <= num ->
  ((start <= stop)%Q -> (0 <= (stop - start) / inject_Z (num - 1))%Q)
  /\ ((stop <= start)%Q -> ((stop - start) / inject_Z (num - 1) <= 0)%Q).
Proof.
  intros Hn.
  assert (Hpos : (0 < inject_Z (num - 1))%Q).
  { unfold Qlt. simpl. lia. }
  assert (Hinv : (0 < / inject_Z (num - 1))%Q) by now apply Qinv_lt_0_compat.
  unfold Qdiv. split; intros H.
  - apply Qmult_le_0_compat; lra.
  - setoid_replace ((stop - start) * / inject_Z (num - 1))%Q
      with (- ((start - stop) * / inject_Z (num - 1)))%Q by ring.
    assert (0 <= (start - stop) * / inject_Z (num - 1))%Q
      by (apply Qmult_le_0_compat; lra).
    lra.
Qed.

Lemma last_sample (start stop : Q) (num : Z) (i : nat) :
  2 <= num -> S i = Z.to_nat (num - 1) ->
  (start + inject_Z (Z.of_nat (S i)) * ((stop - start) / inject_Z (num - 1))
   == stop)%Q.
Proof.
  intros Hn Hi.
  assert (Hdiv : ~ (inject_Z (num - 1) == 0)%Q).
  { intros H. unfold Qeq in H. simpl in H. lia. }
  replace (Z.of_nat (S i)) with (num - 1) by lia.
  field. exact Hdiv.
Qed.

(** ** On binary64 *)

Section Float64.

Import SpecFloat.

Lemma digits2_size (p : positive) : digits2_pos p = Pos.size p.
Proof. induction p; cbn; now rewrite ?IHp. Qed.

Lemma digits2_iter (p k : positive) :
  digits2_pos (Pos.iter xO p k) = (digits2_pos p + k)%positive.
Proof.
  induction k using Pos.peano_ind.
  - cbn. lia.
  - rewrite Pos.iter_succ. cbn. rewrite IHk. lia.
Qed.

Lemma digits2_bound (p : positive) :
  Zpos p < 2 ^ 53 -> Zpos (digits2_pos p) <= 53.
Proof.
  intros H. rewrite digits2_size.
  pose proof (Pos.size_le p) as Hle.
  assert (Hz : 2 ^ Zpos (Pos.size p) <= 2 * Zpos p).
  { rewrite <- Pos2Z.inj_pow. change (2 * Zpos p) with (Zpos p~0).
    apply Pos2Z.pos_le_pos. exact Hle. }
  destruct (Z.le_gt_cases (Zpos (Pos.size p)) 53) as [Hok | Hbig];
    [exact Hok | exfalso].
  assert (2 ^ 54 <= 2 ^ Zpos (Pos.size p))
    by (apply Z.pow_le_mono_r; lia).
  change (2 ^ 54) with (2 * 2 ^ 53) in H0. lia.
Qed.

(** A mantissa of 53 digits with an exponent in range needs no
    rounding. *)
Lemma round_canonical (sx : bool) (m : positive) (e : Z) :
  Zpos (digits2_pos m) = 53 -> -1074 <= e <= 971 ->
  binary_round_aux 53 1024 sx (Zpos m) e loc_Exact = S754_finite sx m e.
Proof.
  intros Hd He.
  assert (Hshift : fexp 53 1024 (Zdigits2 (Zpos m) + e) - e = 0).
  { unfold fexp, emin. cbn [Zdigits2]. rewrite Hd. lia. }
  unfold binary_round_aux, shr_fexp. rewrite Hshift.
  cbn [shr shr_record_of_loc shr_m shr_r shr_s loc_of_shr_record
         round_nearest_even].
  rewrite Hshift.
  cbn [shr shr_record_of_loc shr_m shr_r shr_s loc_of_shr_record
         round_nearest_even].
  change (1024 - 53) with 971.
  replace (e <=? 971) with true by (symmetry; apply Z.leb_le; lia).
  reflexivity.
Qed.

(** An [int] below [2^53] converts to a finite, positive float. *)
Lemma of_int_finite (z : Z) :
  0 < z < 2 ^ 53 ->
  exists m e, Sweep.of_int Sweep.binary64 z = S754_finite false m e.
Proof.
  intros [Hpos Hlt]. destruct z as [| p |]; try lia.
  pose proof (digits2_bound p Hlt) as Hd.
  assert (Hd1 : 1 <= Zpos (digits2_pos p)) by lia.
  cbn [Sweep.of_int Sweep.binary64 binary_normalize]. unfold binary_round.
  assert (Hf : fexp 53 1024 (Zpos (digits2_pos p) + 0)
               = Zpos (digits2_pos p) - 53)
    by (unfold fexp, emin; lia).
  rewrite Hf. unfold shl_align.
  destruct (Zpos (digits2_pos p) - 53 - 0) as [| k | k] eqn:Hk.
  - exists p, 0. apply round_canonical; lia.
  - lia.
  - exists (Pos.iter xO p k), (Zpos (digits2_pos p) - 53).
    apply round_canonical; [| lia].
    rewrite digits2_iter. lia.
Qed.

Lemma f64_eq_refl (x : Sweep.float64) : x <> S754_nan -> Sweep.f64_eq x x.
Proof.
  unfold Sweep.f64_eq, SFeqb, SFcompare.
  destruct x as [s | s | | s m e]; intros H.
  - reflexivity.
  - now destruct s.
  - congruence.
  - destruct s; now rewrite Z.compare_refl, Pos.compare_cont_refl.
Qed.

(** Adding a zero changes no number. *)
Lemma zero_plus (s : bool) (x : Sweep.float64) :
  x <> S754_nan -> Sweep.f64_eq (SFadd 53 1024 (S754_zero s) x) x.
Proof.
  intros H. destruct x as [s' | s' | | s' m e].
  - now destruct s, s'.
  - now apply f64_eq_refl.
  - congruence.
  - now apply f64_eq_refl.
Qed.

Lemma first_sample (start stop : Sweep.float64) (n : Z) :
  2 <= n <= 2 ^ 53 ->
  start <> S754_nan ->
  Sweep.finite64
    (SFdiv 53 1024 (SFsub 53 1024 stop start)
       (Sweep.of_int Sweep.binary64 (n - 1))) = true ->
  Sweep.f64_eq (sample Sweep.binary64 start stop n 0) start.
Proof.
  intros Hn Hstart Hfin. unfold sample.
  change (Sweep.of_int Sweep.binary64 (Z.of_nat 0)) with (S754_zero false).
  destruct (of_int_finite (n - 1)) as (m & e & Hdiv); [lia |].
  cbn [Sweep.add Sweep.sub Sweep.mul Sweep.div Sweep.is_zero Sweep.binary64]
    in *.
  rewrite Hdiv in *.
  destruct (SFsub 53 1024 stop start) as [sd | sd | | sd md ed] eqn:Hdelta.
  - (* start and stop cancel *)
    change (SFdiv 53 1024 (S754_zero sd) (S754_finite false m e))
      with (S754_zero (xorb sd false)).
    change (SFeqb (S754_zero (xorb sd false)) (S754_zero false)) with true.
    cbv iota. now apply zero_plus.
  - discriminate Hfin.
  - discriminate Hfin.
  - destruct (SFdiv 53 1024 (S754_finite sd md ed) (S754_finite false m e))
      as [ss | ss | | ss ms es] eqn:Hstep; try discriminate Hfin.
    + change (SFeqb (S754_zero ss) (S754_zero false)) with true. cbv iota.
      now apply zero_plus.
    + assert (Hnz : SFeqb (S754_finite ss ms es) (S754_zero false) = false)
        by now destruct ss.
      rewrite Hnz. now apply zero_plus.
Qed.

End Float64.




Lemma write_drains_one_reply_per_subcommand_witness :
  exists q',
    write "wav 1 1 1 0;fun 2 1 100 1 1" (fresh_qdac 24 1000 ["a"; "b"; "c"]%string)
    = (Ok tt, q')
    /\ visa_incoming q' = ["c"%string]
    /\ _write_response q' = "b"%string.
Proof.
  destruct (write_drains_one_reply_per_subcommand
              "wav 1 1 1 0;fun 2 1 100 1 1"
              (fresh_qdac 24 1000 ["a"; "b"; "c"]%string))
    as (q' & Hrun & _ & Hrest & Hlast & _).
  - reflexivity.
  - vm_compute. lia.
  - exists q'. split; [exact Hrun |]. split.
    + rewrite Hrest. reflexivity.
    + change (Some "b"%string = Some (_write_response q')) in Hlast.
      now injection Hlast.
Defined.

(* ===================================================================== *)
(** * Frames of the driver's building blocks                               *)
(* ===================================================================== *)

(** [frame_step] peels one constructor of a computation off a
    [preserves] goal; the side conditions left are about single state
    updates. *)
Ltac frame_step R_refl R_trans :=
  match goal with
  | |- preserves _ (bind _ _) =>
      apply (preserves_bind _ R_trans); [| intro]
  | |- preserves _ (ret _) => apply (preserves_ret _ R_refl)
  | |- preserves _ (raise _) => apply (preserves_raise _ R_refl)
  | |- preserves _ (gets _) => apply (preserves_gets _ R_refl)
  | |- preserves _ (or_raise _ _) => apply (preserves_or_raise _ R_refl)
  | |- preserves _ (raise_if _ _) => apply (preserves_raise_if _ R_refl)
  | |- preserves _ (for_each _ _) =>
      apply (preserves_for_each _ R_refl R_trans); intro
  | |- preserves _ (map_m _ _) =>
      apply (preserves_map_m _ R_refl R_trans); intro
  | |- preserves _ (except_KeyError _) =>
      apply preserves_except_KeyError
  | |- preserves _ (modify _) => apply preserves_modify; intro
  | |- preserves _ (if ?c then _ else _) => destruct c
  | |- preserves _ (match ?x with _ => _ end) => destruct x
  end.

Section KeepsFacts.

Context {T : Type} (view : QDac -> T).

(** The updates that [view] does not see. *)
Hypothesis view_trace : forall x q, view (with_trace x q) = view q.
Hypothesis view_incoming : forall x q, view (with_incoming x q) = view q.
Hypothesis view_response :
  forall x q, view (with_write_response x q) = view q.

Ltac keeps_step :=
  frame_step (keeps_refl view) (keeps_trans view).

Lemma emit_keeps e : preserves (keeps view) (emit e).
Proof. unfold emit. keeps_step. apply view_trace. Qed.

Lemma visa_read_keeps : preserves (keeps view) visa_read.
Proof.
  intros q. unfold visa_read.
  destruct (visa_incoming q); [reflexivity | apply view_incoming].
Qed.

Lemma read_responses_keeps n : preserves (keeps view) (read_responses n).
Proof.
  induction n as [| n IH]; cbn [read_responses].
  - keeps_step.
  - keeps_step; [apply visa_read_keeps |].
    keeps_step; [| exact IH].
    keeps_step. apply view_response.
Qed.

Lemma write_keeps cmd : preserves (keeps view) (write cmd).
Proof.
  unfold write, visa_write, check_error.
  repeat keeps_step; try apply emit_keeps. apply read_responses_keeps.
Qed.

Lemma ask_keeps cmd : preserves (keeps view) (ask cmd).
Proof.
  unfold ask, visa_write.
  repeat keeps_step; try apply emit_keeps. apply visa_read_keeps.
Qed.

Lemma channel_keeps i : preserves (keeps view) (channel i).
Proof. unfold channel. repeat keeps_step. Qed.

End KeepsFacts.

Section EmitsFacts.

Variable P : event -> Prop.

Ltac emits_step := frame_step (emits_refl P) (emits_trans P).

Lemma emits_untraced (f : QDac -> QDac) :
  (forall q, trace (f q) = trace q) -> forall q, emits P q (f q).
Proof. intros H q. exists []. rewrite H, app_nil_r. split; constructor. Qed.

Lemma emit_emits e : P e -> preserves (emits P) (emit e).
Proof. intros H. unfold emit. emits_step. now apply emits_one. Qed.

Lemma visa_read_emits : preserves (emits P) visa_read.
Proof.
  intros q. unfold visa_read.
  destruct (visa_incoming q); [apply emits_refl |].
  now apply emits_untraced.
Qed.

Lemma read_responses_emits n : preserves (emits P) (read_responses n).
Proof.
  induction n as [| n IH]; cbn [read_responses].
  - emits_step.
  - emits_step; [apply visa_read_emits |].
    emits_step; [| exact IH].
    emits_step. now apply emits_untraced.
Qed.

Lemma write_emits cmd : P (Written cmd) -> preserves (emits P) (write cmd).
Proof.
  intros H. unfold write, visa_write, check_error.
  repeat emits_step; try (now apply emit_emits).
  apply read_responses_emits.
Qed.

Lemma ask_emits cmd : P (Written cmd) -> preserves (emits P) (ask cmd).
Proof.
  intros H. unfold ask, visa_write.
  repeat emits_step; try (now apply emit_emits). apply visa_read_emits.
Qed.

Lemma channel_emits i : preserves (emits P) (channel i).
Proof. unfold channel. repeat emits_step. Qed.

Lemma update_channel_emits i f : preserves (emits P) (update_channel i f).
Proof.
  unfold update_channel. emits_step; [apply channel_emits |].
  emits_step. now apply emits_untraced.
Qed.

End EmitsFacts.

Section DriverKeeps.

Variable float_of_str : string -> option Q.
Variable int_of_str : string -> option Z.
Variable format_float : Q -> string.
Variable format_f6 : Q -> string.

Context {T : Type} (view : QDac -> T).

Hypothesis view_trace : forall x q, view (with_trace x q) = view q.
Hypothesis view_incoming : forall x q, view (with_incoming x q) = view q.
Hypothesis view_response :
  forall x q, view (with_write_response x q) = view q.
Hypothesis view_channels : forall x q, view (with_channels x q) = view q.
Hypothesis view_fgs : forall x q, view (with_assigned_fgs x q) = view q.
Hypothesis view_triggers :
  forall x q, view (with_assigned_triggers x q) = view q.
Hypothesis view_syncoutputs :
  forall x q, view (with_syncoutputs x q) = view q.
Hypothesis view_slopes : forall x q, view (with_slopes x q) = view q.
Hypothesis view_clock : forall x q, view (with_clock x q) = view q.

Ltac keeps_step :=
  frame_step (keeps_refl view) (keeps_trans view).

Ltac known_keeps :=
  first
    [ apply (emit_keeps view view_trace)
    | apply (write_keeps view view_trace view_incoming view_response)
    | apply (ask_keeps view view_trace view_incoming)
    | apply (channel_keeps view) ].

Lemma update_channel_keeps i f : preserves (keeps view) (update_channel i f).
Proof.
  unfold update_channel. repeat keeps_step; try known_keeps.
  apply view_channels.
Qed.

Lemma v_get_keeps i : preserves (keeps view) (v_get float_of_str i).
Proof.
  unfold v_get, v_cache_set. repeat keeps_step; try known_keeps.
  apply update_channel_keeps.
Qed.

Lemma v_validate_keeps i x : preserves (keeps view) (v_validate i x).
Proof. unfold v_validate. repeat keeps_step; known_keeps. Qed.

Lemma time_sleep_keeps d : preserves (keeps view) (time_sleep d).
Proof.
  unfold time_sleep. repeat keeps_step; try known_keeps. apply view_clock.
Qed.

Lemma get_functiongenerator_keeps chan :
  preserves (keeps view) (_get_functiongenerator format_f6 chan).
Proof.
  unfold _get_functiongenerator, time_time, log_warning, v_cache_get.
  repeat keeps_step; try known_keeps;
    try apply time_sleep_keeps; apply view_fgs.
Qed.

Lemma acquire_generators_keeps l :
  preserves (keeps view) (acquire_generators format_f6 l).
Proof.
  unfold acquire_generators.
  repeat keeps_step. apply get_functiongenerator_keeps.
Qed.

Lemma validate_voltages_keeps l vs :
  preserves (keeps view) (validate_voltages l vs).
Proof.
  unfold validate_voltages.
  repeat keeps_step; try known_keeps. apply v_validate_keeps.
Qed.

Lemma start_voltages_keeps vs l :
  preserves (keeps view) (start_voltages float_of_str vs l).
Proof.
  unfold start_voltages. repeat keeps_step. apply v_get_keeps.
Qed.

Lemma configure_syncs_keeps l : preserves (keeps view) (configure_syncs l).
Proof. unfold configure_syncs. repeat keeps_step; known_keeps. Qed.

Lemma sync_cache_get_keeps i : preserves (keeps view) (sync_cache_get i).
Proof.
  unfold sync_cache_get, _getsync.
  repeat keeps_step; try known_keeps. apply update_channel_keeps.
Qed.

Lemma setsync_keeps chan sync : preserves (keeps view) (_setsync chan sync).
Proof.
  unfold _setsync.
  repeat keeps_step; try known_keeps;
    try apply sync_cache_get_keeps; apply view_syncoutputs.
Qed.

Lemma sync_set_keeps chan value :
  preserves (keeps view) (sync_set chan value).
Proof.
  unfold sync_set. repeat keeps_step;
    [apply setsync_keeps | apply update_channel_keeps].
Qed.

(** The [try] block never reaches the update of [_assigned_triggers]:
    the lookup of the [Generator] object raises [KeyError] first. *)
Lemma release_generator_keeps chan :
  preserves (keeps view) (release_generator chan).
Proof.
  intros q. unfold release_generator, except_KeyError, bind, gets, modify.
  destruct (Dict.get chan (_assigned_fgs q)) as [g |]; cbn.
  - apply view_fgs.
  - reflexivity.
Qed.

Lemma setslope_keeps chan slope :
  preserves (keeps view) (_setslope float_of_str format_f6 chan slope).
Proof.
  unfold _setslope.
  repeat keeps_step; try known_keeps;
    try apply v_get_keeps; try apply release_generator_keeps;
    try apply sync_set_keeps; apply view_slopes.
Qed.

End DriverKeeps.

Section DriverEmits.

Variable float_of_str : string -> option Q.
Variable format_float : Q -> string.
Variable format_f6 : Q -> string.

Variable P : event -> Prop.

Hypothesis P_warned : forall w, P (Warned w).
Hypothesis P_slept : forall d, P (Slept d).
Hypothesis P_dc : forall ch v, P (Written (dc_command format_f6 ch v)).
Hypothesis P_query : forall n, P (Written ("set " ++ Py.str n)).
Hypothesis P_syn : forall args, P (Written ("syn " ++ args)).

Ltac emits_step := frame_step (emits_refl P) (emits_trans P).

Ltac untraced := apply emits_untraced; reflexivity.

Lemma v_get_emits i : preserves (emits P) (v_get float_of_str i).
Proof.
  unfold v_get, v_cache_set. repeat emits_step;
    [apply channel_emits | apply ask_emits; apply P_query
    | apply update_channel_emits].
Qed.

Lemma time_sleep_emits d : preserves (emits P) (time_sleep d).
Proof.
  unfold time_sleep. repeat emits_step;
    [apply emit_emits; apply P_slept | untraced].
Qed.

Lemma get_functiongenerator_emits chan :
  preserves (emits P) (_get_functiongenerator format_f6 chan).
Proof.
  unfold _get_functiongenerator, time_time, log_warning, v_cache_get.
  repeat emits_step;
    try untraced;
    try (apply emit_emits; apply P_warned);
    try apply time_sleep_emits;
    try apply channel_emits;
    apply write_emits; apply P_dc.
Qed.

Lemma acquire_generators_emits l :
  preserves (emits P) (acquire_generators format_f6 l).
Proof.
  unfold acquire_generators.
  repeat emits_step. apply get_functiongenerator_emits.
Qed.

Lemma start_voltages_emits vs l :
  preserves (emits P) (start_voltages float_of_str vs l).
Proof.
  unfold start_voltages. repeat emits_step. apply v_get_emits.
Qed.

Lemma configure_syncs_emits l : preserves (emits P) (configure_syncs l).
Proof.
  unfold configure_syncs.
  repeat emits_step; try apply channel_emits.
  apply write_emits. apply P_syn.
Qed.

End DriverEmits.

(* ===================================================================== *)
(** * Releasing a slope: [_setslope(chan, 'Inf')]                          *)
(* ===================================================================== *)

(** For every state and channel, [_setslope] leaves
    [_assigned_triggers] exactly as it was: the [pop] in its [try] block
    is given the [Generator] object, raises [KeyError], and is skipped. *)
Lemma setslope_never_drops_trigger float_of_str format_f6 chan slope q :
  _assigned_triggers (snd (_setslope float_of_str format_f6 chan slope q))
  = _assigned_triggers q.
Proof.
  apply (setslope_keeps float_of_str format_f6 _assigned_triggers);
    intros; reflexivity.
Qed.

(** C3, at the failing input.  Setting channel 1's slope to ['Inf'] puts
    the channel in DC mode and marks its generator's end time as elapsed
    (0), and the next acquisition, for channel 9, gets generator 1
    without sleeping; but trigger 1 is still bound to generator 1
    afterwards, where the claim says it is dropped. *)
Theorem setslope_inf_leaves_trigger_bound :
  let released := _setslope Text.parse_float Text.format_f6 1 Inf ramping_qdac in
  let acquired := _get_functiongenerator Text.format_f6 9 (snd released) in
  fst released = Ok tt
  /\ trace (snd released)
     = [Written "set 1"; Written "set 1 0.500000;wav 1 0 0 0"]
  /\ Dict.get 1 (_assigned_fgs (snd released)) = Some {| fg := 1; t_end := 0 |}
  /\ Dict.get 1 (_assigned_triggers ramping_qdac) = Some 1
  /\ Dict.get 1 (_assigned_triggers (snd released)) = Some 1
  /\ fst acquired = Ok 1
  /\ trace (snd acquired)
     = trace (snd released) ++ [Written "set 1 0.500000;wav 1 0 0 0"].
Proof.
  cbv zeta. repeat split; vm_compute; reflexivity.
Qed.

(* ===================================================================== *)
(** * Triggers                                                             *)
(* ===================================================================== *)

Lemma fold_min_spec (l : list Z) :
  forall x,
    (fold_left Z.min l x = x \/ In (fold_left Z.min l x) l)
    /\ fold_left Z.min l x <= x
    /\ (forall y, In y l -> fold_left Z.min l x <= y).
Proof.
  induction l as [| a tl IH]; intros x; cbn [fold_left].
  - repeat split; [now left | lia | intros y []].
  - destruct (IH (Z.min x a)) as (Hin & Hle & Hall). repeat split.
    + destruct Hin as [Heq | Hin].
      * rewrite Heq. destruct (Z.min_spec x a) as [[_ ->] | [_ ->]].
        -- now left.
        -- right. now left.
      * right. now right.
    + lia.
    + intros y [<- | Hy]; [lia | now apply Hall].
Qed.

Lemma min_int_spec (l : list Z) (m : Z) :
  Py.min_int l = Some m -> In m l /\ (forall y, In y l -> m <= y).
Proof.
  destruct l as [| x tl]; [discriminate |]. cbn. intros H. injection H as <-.
  destruct (fold_min_spec tl x) as (Hin & Hle & Hall). split.
  - destruct Hin as [-> | Hin]; [now left | now right].
  - intros y [<- | Hy]; [exact Hle | now apply Hall].
Qed.

Lemma difference_spec (s t : list Z) (x : Z) :
  In x (Py.difference s t) <-> In x s /\ ~ In x t.
Proof.
  unfold Py.difference. rewrite filter_In, negb_true_iff. split.
  - intros [Hs Hn]. split; [assumption |]. intros Hin.
    assert (existsb (Z.eqb x) t = true)
      by (apply existsb_exists; exists x; split; [assumption | apply Z.eqb_refl]).
    congruence.
  - intros [Hs Hn]. split; [assumption |].
    destruct (existsb (Z.eqb x) t) eqn:E; [| reflexivity].
    apply existsb_exists in E. destruct E as (y & Hy & Heq).
    apply Z.eqb_eq in Heq. subst. contradiction.
Qed.

Lemma trigs_spec (t : Z) : In t _trigs <-> 1 <= t <= 9.
Proof.
  change _trigs with [1; 2; 3; 4; 5; 6; 7; 8; 9]. cbn [In]. lia.
Qed.

(** With at most 8 triggers recorded, one of the 9 is free; the one
    chosen is the lowest. *)
Lemma free_trigger (used : list Z) :
  (List.length used <= 8)%nat ->
  exists t,
    Py.min_int (Py.difference _trigs used) = Some t
    /\ 1 <= t <= 9 /\ ~ In t used
    /\ (forall t', 1 <= t' <= 9 -> ~ In t' used -> t <= t').
Proof.
  intros Hlen.
  destruct (Py.difference _trigs used) as [| x tl] eqn:E.
  - exfalso.
    assert (Hincl : incl _trigs used).
    { intros t Ht. destruct (in_dec Z.eq_dec t used) as [Hin | Hout];
        [assumption |].
      assert (In t (Py.difference _trigs used))
        by (apply difference_spec; now split).
      rewrite E in H. destruct H. }
    assert (Hnd : NoDup _trigs).
    { change _trigs with [1; 2; 3; 4; 5; 6; 7; 8; 9].
      repeat constructor; cbn [In]; lia. }
    pose proof (NoDup_incl_length Hnd Hincl) as Hle.
    change _trigs with [1; 2; 3; 4; 5; 6; 7; 8; 9] in Hle. cbn in Hle. lia.
  - destruct (Py.min_int (x :: tl)) as [t |] eqn:Hmin; [| discriminate].
    exists t. split; [reflexivity |].
    apply min_int_spec in Hmin. destruct Hmin as [Hin Hall].
    rewrite <- E in Hin, Hall. apply difference_spec in Hin.
    destruct Hin as [Ht Hfree]. apply trigs_spec in Ht.
    repeat split; try lia; try assumption.
    intros t' Ht' Hfree'. apply Hall. apply difference_spec.
    split; [now apply trigs_spec | assumption].
Qed.

Lemma count_trig (t : Z) :
  1 <= t <= 9 -> Py.count ";" ("trig " ++ Py.str t) = O.
Proof.
  intros H.
  assert (t = 1 \/ t = 2 \/ t = 3 \/ t = 4 \/ t = 5 \/ t = 6 \/ t = 7
          \/ t = 8 \/ t = 9) as Hc by lia.
  repeat (destruct Hc as [-> | Hc]; [reflexivity |]). now subst.
Qed.

(* ===================================================================== *)
(** * Ramps: the expected duration                                         *)
(* ===================================================================== *)

Lemma step_length_ms_whole (k : Z) :
  1 <= k -> step_length_ms_of (inject_Z k / 1000) = k.
Proof.
  intros Hk. unfold step_length_ms_of.
  assert (Hlt : Py.ltb (inject_Z k / 1000) (1 # 1000) = false).
  { apply ltb_false_iff. intros H. unfold Qlt, Qdiv in H. cbn in H. lia. }
  rewrite Hlt. unfold Py.int.
  assert (Heq : (inject_Z k / 1000 * 1000 == inject_Z k)%Q) by field.
  rewrite (Qfloor_comp _ _ Heq), Qfloor_Z.
  destruct (Qle_bool 0 (inject_Z k / 1000 * 1000)) eqn:E; [reflexivity |].
  assert (0 <= inject_Z k / 1000 * 1000)%Q.
  { rewrite Heq. unfold Qle. cbn. lia. }
  apply Qle_bool_iff in H. congruence.
Qed.

Lemma step_length_ms_of_comp (x y : Q) :
  (x == y)%Q -> step_length_ms_of x = step_length_ms_of y.
Proof.
  intros H. unfold step_length_ms_of, Py.ltb, Py.int.
  assert (H1 : Qle_bool (1 # 1000) x = Qle_bool (1 # 1000) y)
    by (now rewrite H).
  assert (H2 : (x * 1000 == y * 1000)%Q) by (now rewrite H).
  assert (H3 : Qle_bool 0 (x * 1000) = Qle_bool 0 (y * 1000))
    by (now rewrite H2).
  now rewrite H1, H3, (Qfloor_comp _ _ H2), (Qceiling_comp _ _ H2).
Qed.

Lemma expected_duration_whole (k slow_steps fast_steps : Z) :
  1 <= k ->
  (expected_duration (inject_Z k / 1000) slow_steps fast_steps
   == inject_Z slow_steps * inject_Z fast_steps * (inject_Z k / 1000))%Q.
Proof.
  intros Hk. unfold expected_duration. rewrite step_length_ms_whole by assumption.
  rewrite !inject_Z_mult. field.
Qed.

(** The step length in whole milliseconds: 1 below a millisecond, else
    the number of milliseconds with the fraction cut off. *)
Lemma step_length_ms_spec (step_length : Q) :
  ((step_length < 1 # 1000)%Q -> step_length_ms_of step_length = 1)
  /\ (~ (step_length < 1 # 1000)%Q ->
      (inject_Z (step_length_ms_of step_length) <= step_length * 1000)%Q
      /\ (step_length * 1000 < inject_Z (step_length_ms_of step_length) + 1)%Q).
Proof.
  unfold step_length_ms_of. split; intros H.
  - apply ltb_true_iff in H. now rewrite H.
  - pose proof H as Hb. apply ltb_false_iff in Hb. rewrite Hb.
    assert (Hpos : (0 <= step_length * 1000)%Q) by lra.
    unfold Py.int. apply Qle_bool_iff in Hpos. rewrite Hpos. split.
    + apply Qfloor_le.
    + pose proof (Qlt_floor (step_length * 1000)) as Hlt.
      rewrite inject_Z_plus in Hlt. exact Hlt.
Qed.

Section EmptyRamp.

Variable float_of_str : string -> option Q.
Variable format_float : Q -> string.
Variable format_f6 : Q -> string.


End EmptyRamp.


(* ===================================================================== *)
(** * Text of commands                                                     *)
(* ===================================================================== *)

Lemma count_app (c : ascii) (a b : string) :
  Py.count c (a ++ b) = (Py.count c a + Py.count c b)%nat.
Proof.
  induction a as [| x a IH]; cbn; [reflexivity |].
  destruct (Ascii.eqb x c); cbn; now rewrite IH.
Qed.

Lemma count_uint (u : Decimal.uint) :
  Py.count ";" (NilEmpty.string_of_uint u) = O.
Proof. induction u; cbn; assumption || reflexivity. Qed.

(** The decimal text of an int holds no semicolon. *)
Lemma count_str (n : Z) : Py.count ";" (Py.str n) = O.
Proof.
  unfold Py.str, NilZero.string_of_int, NilZero.string_of_uint.
  destruct (Z.to_int n) as [u | u]; [| cbn [Py.count Ascii.eqb]];
    destruct u; try reflexivity; apply count_uint.
Qed.

(* ===================================================================== *)
(** * Channel access                                                       *)
(* ===================================================================== *)

Lemma replace_nth_length {A : Type} (n : nat) (x : A) (l : list A) :
  List.length (Py.replace_nth n x l) = List.length l.
Proof.
  revert n. induction l as [| a tl IH]; intros [| n]; cbn; auto.
Qed.

Lemma replace_nth_same {A : Type} (n : nat) (x : A) (l : list A) :
  (n < List.length l)%nat -> nth_error (Py.replace_nth n x l) n = Some x.
Proof.
  revert n. induction l as [| a tl IH]; intros [| n] H; cbn in *;
    try lia; [reflexivity | apply IH; lia].
Qed.

Lemma setitem_length {A : Type} (l : list A) (i : Z) (x : A) :
  List.length (Py.setitem l i x) = List.length l.
Proof.
  unfold Py.setitem. destruct (Py.position (List.length l) i);
    [apply replace_nth_length | reflexivity].
Qed.

(** After [l[i] = x], [l[i]] is [x]. *)
Lemma getitem_setitem {A : Type} (l : list A) (i : Z) (x c : A) :
  Py.getitem l i = Some c -> Py.getitem (Py.setitem l i x) i = Some x.
Proof.
  unfold Py.getitem. rewrite setitem_length. unfold Py.setitem.
  destruct (Py.position (List.length l) i) as [n |]; [| discriminate].
  intros H. apply replace_nth_same. apply nth_error_Some. congruence.
Qed.

Lemma settings_inv (q q' : QDac) :
  settings q' = settings q ->
  num_chans q' = num_chans q /\ channels q' = channels q
  /\ vranges q' = vranges q /\ mode_force q' = mode_force q
  /\ _slopes q' = _slopes q /\ _assigned_fgs q' = _assigned_fgs q
  /\ _assigned_triggers q' = _assigned_triggers q
  /\ _syncoutputs q' = _syncoutputs q /\ visa_status q' = visa_status q
  /\ clock q' = clock q.
Proof. unfold settings. intros H. injection H. intuition. Qed.

Section ChannelFacts.

Variable float_of_str : string -> option Q.

(** [v.get()] on an answering instrument: one query written, one reply
    line taken, the cache of the channel refreshed. *)
Lemma v_get_Ok (i : Z) (q : QDac) (c : QDacChannel) reply rest v :
  Py.getitem (channels q) i = Some c ->
  visa_incoming q = reply :: rest ->
  float_of_str reply = Some v ->
  v_get float_of_str i q
  = (Ok v,
     with_channels (Py.setitem (channels q) i (with_v_cache v c))
       (with_incoming rest
          (with_trace (trace q ++ [Written ("set " ++ Py.str (channum c))]) q))).
Proof.
  intros Hc Hin Hf.
  unfold v_get, channel, ask, visa_write, emit, visa_read, v_cache_set,
    update_channel, bind, gets, modify, or_raise, ret.
  cbn. rewrite Hc. cbn. rewrite Hin, Hf. cbn. rewrite Hc. reflexivity.
Qed.

End ChannelFacts.

(* ===================================================================== *)
(** * Mode changes: [_set_mode]                                            *)
(* ===================================================================== *)

Lemma max_zero_voltage_threshold (m : Mode) :
  Dict.get (mode_v m) max_zero_voltage = Some (near_zero_threshold m).
Proof. destruct m; reflexivity. Qed.

Section ModeFacts.

Variable float_of_str : string -> option Q.
Variable int_of_str : string -> option Z.
Variable format_f6 : Q -> string.

Lemma range_change_branch (old_mode new_mode : Mode) :
  mode_v new_mode <> mode_v old_mode ->
  mode_eqb old_mode new_mode = false
  /\ negb (mode_i new_mode =? mode_i old_mode)
     && ((mode_v new_mode =? mode_v old_mode) && (mode_v old_mode =? 0))
     = false.
Proof. destruct old_mode, new_mode; cbn; intros H; auto; congruence. Qed.

(** C6.  When [_set_mode] changes the voltage range of a channel:
    (a) with [mode_force] unset and the present voltage (as the
    instrument reports it) larger in magnitude than the near-zero
    threshold of the old range - 20e-6 V in the high range, 3e-6 V in
    the low range - the call raises the non-zero-voltage [ValueError],
    having written nothing but the voltage query;
    (b) with [mode_force] set and the present voltage outside the
    calibrated bounds of the new range, the call succeeds on an
    answering instrument: it logs the clipping warning, sends the relay
    message carrying the clipped voltage, and leaves the channel with
    the validator of the new range and the clipped voltage cached. *)
Theorem set_mode_range_change (q : QDac) (chan : Z) (new_mode : Mode)
  (c : QDacChannel) (reply : string) (rest : list string) (v : Q) :
  Py.getitem (channels q) (chan - 1) = Some c ->
  mode_v new_mode <> mode_v (mode_cache c) ->
  visa_incoming q = reply :: rest ->
  float_of_str reply = Some v ->
  let query := Written ("set " ++ Py.str (channum c)) in
  (mode_force q = false ->
   (near_zero_threshold (mode_cache c) < Qabs v)%Q ->
   exists q',
     _set_mode float_of_str int_of_str format_f6 chan new_mode q
     = (Raise (ValueError NON_ZERO_VOLTAGE_MSG), q')
     /\ trace q' = trace q ++ [query])
  /\ (mode_force q = true ->
      forall ranges bounds wav_reply gen_text amplitude offset gen rest',
        Dict.get chan (vranges q) = Some ranges ->
        Dict.get (mode_v new_mode) ranges = Some bounds ->
        (Max bounds < v \/ v < Min bounds)%Q ->
        visa_status q = 0 ->
        rest = wav_reply :: rest' ->
        Py.split "," wav_reply = [gen_text; amplitude; offset] ->
        int_of_str gen_text = Some gen ->
        let clipped := if Py.ltb (Max bounds) v then Max bounds else Min bounds in
        let message :=
          range_change_message format_f6 chan (mode_cache c) new_mode gen clipped in
        (Py.count ";" message + 1 <= List.length rest')%nat ->
        exists q' c',
          _set_mode float_of_str int_of_str format_f6 chan new_mode q
          = (Ok tt, q')
          /\ trace q'
             = trace q ++ [query; Warned VoltageClipped;
                           Written ("wav " ++ Py.str chan); Written message]
          /\ Py.getitem (channels q') (chan - 1) = Some c'
          /\ v_cache c' = clipped
          /\ v_vals c' = {| min_value := Min bounds; max_value := Max bounds |}
          /\ (Min bounds <= Max bounds -> in_bounds (v_vals c') clipped = true)%Q).
Proof.
  intros Hc Hrange Hin Hf query.
  destruct (range_change_branch (mode_cache c) new_mode Hrange) as [Hneq Hbr].
  pose proof (v_get_Ok float_of_str (chan - 1) q c reply rest v Hc Hin Hf) as Hget.
  set (q1 := with_channels (Py.setitem (channels q) (chan - 1) (with_v_cache v c))
               (with_incoming rest
                  (with_trace (trace q ++ [query]) q))) in *.
  assert (Hchan : channel (chan - 1) q = (Ok c, q)).
  { unfold channel, bind, gets, or_raise. now rewrite Hc. }
  split.
  - intros Hforce Hbig. exists q1. split; [| reflexivity].
    unfold _set_mode. rewrite (bind_Ok _ _ _ _ _ Hchan). rewrite Hneq.
    apply bind_Raise. rewrite Hbr.
    rewrite (bind_Ok _ _ _ _ _ Hget).
    rewrite (bind_Ok _ _ q1 false q1) by (unfold gets; cbn; now rewrite Hforce).
    cbn [negb].
    rewrite (bind_Ok _ _ q1 true q1).
    2:{ unfold bind, or_raise, ret. rewrite max_zero_voltage_threshold.
        f_equal. f_equal. now apply ltb_true_iff. }
    reflexivity.
  - intros Hforce ranges bounds wav_reply gen_text amplitude offset gen rest'
      Hranges Hbounds Hout Hst Hrest Hsplit Hgen clipped message Hlen.
    set (vals := {| min_value := Min bounds; max_value := Max bounds |}).
    (* the clipping *)
    set (q2 := with_trace (trace q1 ++ [Warned VoltageClipped]) q1).
    assert (Hclip : _clipto v (Min bounds) (Max bounds) q1 = (Ok clipped, q2)).
    { unfold _clipto, clipped, log_warning, emit, bind, modify, ret.
      destruct (Py.ltb (Max bounds) v) eqn:E; [reflexivity |].
      destruct Hout as [Hhi | Hlo].
      - apply ltb_true_iff in Hhi. congruence.
      - apply ltb_true_iff in Hlo. now rewrite Hlo. }
    (* the generator query *)
    destruct (write_Ok ("wav " ++ Py.str chan) q2)
      as (q3 & Hw3 & Hin3 & Hresp3 & Htr3 & Hset3).
    { exact Hst. }
    { rewrite count_app, count_str.
      change (visa_incoming q2) with rest. rewrite Hrest. cbn. lia. }
    change (visa_incoming q2) with rest in Hin3, Hresp3.
    rewrite Hrest in Hin3, Hresp3.
    assert (Hcount : Py.count ";" ("wav " ++ Py.str chan) = O)
      by (now rewrite count_app, count_str).
    rewrite Hcount in Hin3, Hresp3. cbn in Hin3, Hresp3.
    injection Hresp3 as Hresp3.
    destruct (settings_inv _ _ Hset3)
      as (_ & Hch3 & Hvr3 & _ & _ & _ & _ & _ & Hst3 & _).
    change (channels q2) with (channels q1) in Hch3.
    change (vranges q2) with (vranges q) in Hvr3.
    change (visa_status q2) with (visa_status q) in Hst3.
    rewrite Hst in Hst3.
    assert (Hentry : forall s, vranges s = vranges q ->
              vrange_entry chan (mode_v new_mode) s = (Ok bounds, s)).
    { intros s Hs. unfold vrange_entry, bind, gets, or_raise.
      rewrite Hs, Hranges. cbn. now rewrite Hbounds. }
    set (c1 := with_v_vals vals (with_v_cache v c)).
    set (q4 := with_channels (Py.setitem (channels q3) (chan - 1) c1) q3).
    set (c2 := with_v_cache clipped c1).
    set (q5 := with_channels (Py.setitem (channels q4) (chan - 1) c2) q4).
    assert (Hget1 : Py.getitem (channels q3) (chan - 1)
                    = Some (with_v_cache v c)).
    { rewrite Hch3. apply (getitem_setitem _ _ _ c Hc). }
    assert (Hget4 : Py.getitem (channels q4) (chan - 1) = Some c1)
      by (apply (getitem_setitem _ _ _ _ Hget1)).
    assert (Hget5 : Py.getitem (channels q5) (chan - 1) = Some c2)
      by (apply (getitem_setitem _ _ _ _ Hget4)).
    destruct (write_Ok message q5) as (q6 & Hw6 & _ & _ & Htr6 & Hset6).
    { exact Hst3. }
    { change (visa_incoming q5) with (visa_incoming q3). now rewrite Hin3. }
    exists q6, c2. split.
    + unfold _set_mode. rewrite (bind_Ok _ _ _ _ _ Hchan). rewrite Hneq, Hbr.
      erewrite bind_Ok; [exact Hw6 |].
      rewrite (bind_Ok _ _ _ _ _ Hget).
      rewrite (bind_Ok _ _ q1 true q1) by (unfold gets; cbn; now rewrite Hforce).
      cbn [negb].
      rewrite (bind_Ok _ _ q1 false q1) by reflexivity.
      rewrite (bind_Ok _ _ q1 tt q1) by reflexivity.
      rewrite (bind_Ok _ _ q1 bounds q1) by (now apply Hentry).
      rewrite (bind_Ok _ _ q1 bounds q1) by (now apply Hentry).
      rewrite (bind_Ok _ _ _ _ _ Hclip).
      rewrite (bind_Ok _ _ q2
                 (if 0 <? gen
                  then ("wav " ++ Py.str chan ++ " " ++ Py.str gen ++ " "
                        ++ format_f6 0 ++ " " ++ format_f6 clipped)%string
                  else ("set " ++ Py.str chan ++ " "
                        ++ format_f6 clipped)%string) q3).
      2:{ unfold wav_or_set_msg. rewrite (bind_Ok _ _ _ _ _ Hw3).
          rewrite (bind_Ok _ _ q3 wav_reply q3)
            by (unfold gets; now rewrite Hresp3).
          rewrite Hsplit.
          rewrite (bind_Ok _ _ q3 gen q3)
            by (unfold or_raise; now rewrite Hgen).
          destruct (0 <? gen); reflexivity. }
      rewrite (bind_Ok _ _ q3 vals q3).
      2:{ unfold _v_vals. rewrite !(bind_Ok _ _ q3 bounds q3) by (now apply Hentry).
          reflexivity. }
      rewrite (bind_Ok _ _ q3 tt q4).
      2:{ unfold update_channel, channel, bind, gets, or_raise, modify, ret.
          now rewrite Hget1. }
      rewrite (bind_Ok _ _ q4 tt q5).
      2:{ unfold v_cache_set, update_channel, channel, bind, gets, or_raise,
            modify, ret. now rewrite Hget4. }
      reflexivity.
    + split.
      { rewrite Htr6. change (trace q5) with (trace q3). rewrite Htr3.
        unfold q2, q1. cbn [trace with_trace with_channels with_incoming].
        rewrite <- !app_assoc. reflexivity. }
      split.
      { destruct (settings_inv _ _ Hset6) as (_ & Hch6 & _).
        now rewrite Hch6. }
      split; [reflexivity |]. split; [reflexivity |].
      intros Hle. unfold in_bounds, c2, c1, clipped, vals. cbn.
      unfold Py.leb.
      destruct (Py.ltb (Max bounds) v);
        apply andb_true_iff; split; apply Qle_bool_iff;
        assumption || apply Qle_refl.
Qed.

End ModeFacts.

Lemma set_mode_range_change_witness :
  fst (_set_mode Text.parse_float Text.parse_int Text.format_f6 1 vlow_ilow
         (fresh_qdac 24 1000 ["0.5"%string]))
  = Raise (ValueError NON_ZERO_VOLTAGE_MSG)
  /\ exists q' c',
       _set_mode Text.parse_float Text.parse_int Text.format_f6 1 vlow_ilow
         forced_qdac = (Ok tt, q')
       /\ trace q'
          = [Written "set 1"; Warned VoltageClipped; Written "wav 1";
             Written "cur 1 0;vol 1 1;set 1 1.100000"]
       /\ Py.getitem (channels q') 0 = Some c'
       /\ v_cache c' = 11 # 10
       /\ v_vals c' = {| min_value := - (11 # 10); max_value := 11 # 10 |}.
Proof.
  split.
  - destruct (proj1 (set_mode_range_change Text.parse_float Text.parse_int
                       Text.format_f6 (fresh_qdac 24 1000 ["0.5"%string])
                       1 vlow_ilow (fresh_channel 1) "0.5" [] (5 # 10)
                       eq_refl ltac:(discriminate) eq_refl eq_refl)
                    eq_refl eq_refl)
      as (q' & Hrun & _).
    now rewrite Hrun.
  - destruct (proj2 (set_mode_range_change Text.parse_float Text.parse_int
                       Text.format_f6 forced_qdac
                       1 vlow_ilow (fresh_channel 1) "5.0"
                       ["0,0,0"; "a"; "b"; "c"]%string (50 # 10)
                       eq_refl ltac:(discriminate) eq_refl eq_refl)
                    eq_refl calibrated_ranges
                    {| Min := - (11 # 10); Max := 11 # 10 |}
                    "0,0,0"%string "0"%string "0"%string "0"%string 0
                    ["a"; "b"; "c"]%string
                    eq_refl eq_refl (or_introl eq_refl) eq_refl eq_refl
                    eq_refl eq_refl)
      as (q' & c' & Hrun & Htr & Hc & Hv & Hvals & _).
    + vm_compute. lia.
    + exists q', c'. repeat split; assumption.
Defined.

(* ===================================================================== *)
(** * Dictionaries                                                         *)
(* ===================================================================== *)

Lemma get_set_same {V : Type} (k : Z) (v : V) (d : Dict.t V) :
  Dict.get k (Dict.set k v d) = Some v.
Proof.
  induction d as [| [k' v'] tl IH]; cbn.
  - now rewrite Z.eqb_refl.
  - destruct (k =? k') eqn:E; cbn; rewrite E; [reflexivity | exact IH].
Qed.

Lemma get_set_other {V : Type} (k k' : Z) (v : V) (d : Dict.t V) :
  k <> k' -> Dict.get k' (Dict.set k v d) = Dict.get k' d.
Proof.
  intros Hne. induction d as [| [k0 v0] tl IH]; cbn.
  - destruct (Z.eqb_spec k' k); [congruence | reflexivity].
  - destruct (Z.eqb_spec k k0) as [-> | Hk]; cbn.
    + destruct (Z.eqb_spec k' k0); [congruence | reflexivity].
    + destruct (k' =? k0); [reflexivity | exact IH].
Qed.

(* ===================================================================== *)
(** * What a successful [write] leaves behind                              *)
(* ===================================================================== *)

Lemma write_trace (cmd : string) (q : QDac) :
  trace (snd (write cmd q)) = trace q ++ [Written cmd].
Proof.
  unfold write, visa_write, emit, check_error, raise_if, bind, modify, gets.
  cbn. destruct (negb (visa_status q =? 0)); cbn; [reflexivity |].
  pose proof (read_responses_keeps trace (fun _ _ => eq_refl)
                (fun _ _ => eq_refl) (Py.count ";" cmd + 1)
                (with_trace (trace q ++ [Written cmd]) q)) as H.
  unfold keeps in H. cbn in H.
  destruct (read_responses _ _) as [[[] | e] s]; cbn in *; exact H.
Qed.

Lemma write_Ok_inv (cmd : string) (q q' : QDac) :
  write cmd q = (Ok tt, q') ->
  trace q' = trace q ++ [Written cmd] /\ settings q' = settings q.
Proof.
  intros H. split.
  - pose proof (write_trace cmd q) as Ht. now rewrite H in Ht.
  - pose proof (write_keeps settings (fun _ _ => eq_refl)
                  (fun _ _ => eq_refl) (fun _ _ => eq_refl) cmd q) as Hs.
    unfold keeps in Hs. now rewrite H in Hs.
Qed.

(* ===================================================================== *)
(** * The programming loop and the end-time bookkeeping                    *)
(* ===================================================================== *)

Lemma append_nonempty (a b : string) :
  b <> EmptyString -> (a ++ b)%string <> EmptyString.
Proof. destruct a; cbn; [auto | discriminate]. Qed.

Lemma drop_last_wav (s : string) :
  wav_headed s ->
  String.prefix "wav " (Py.drop_last s) = true
  /\ String.prefix "trig " (Py.drop_last s) = false.
Proof.
  intros (r & Hr & ->). destruct r as [| c [| c' r]]; [contradiction | |];
    split; reflexivity.
Qed.

Lemma append_assoc (a b c : string) :
  ((a ++ b) ++ c)%string = (a ++ (b ++ c))%string.
Proof. induction a as [| x a IH]; cbn; [reflexivity | now rewrite IH]. Qed.

Lemma drop_last_snoc (a : string) (c : ascii) :
  Py.drop_last (a ++ String c EmptyString) = a.
Proof.
  induction a as [| x a IH]; [reflexivity |].
  cbn [String.append Py.drop_last]. rewrite IH.
  destruct a; reflexivity.
Qed.

Section ProgramFacts.

Variable format_float : Q -> string.
Variables (slow_chans fast_chans channellist : list Z).
Variables (v_startlist v_endlist : list Q).
Variables (step_length_ms slow_steps fast_steps trigger : Z).

Local Abbreviation body :=
  (program_channel format_float slow_chans fast_chans channellist
     v_startlist v_endlist step_length_ms slow_steps fast_steps trigger).

(** One round: generators, clock and trace untouched; the trigger is
    recorded for the generator of channel [i] (when there is one); the
    message stays, or becomes, a waveform-programming message. *)
Lemma program_channel_Ok msg i q msg' q' :
  body msg i q = (Ok msg', q') ->
  _assigned_fgs q' = _assigned_fgs q
  /\ trace q' = trace q /\ clock q' = clock q
  /\ (trigger <= 0 -> _assigned_triggers q' = _assigned_triggers q)
  /\ (0 < trigger ->
      exists ch g,
        nth_error channellist i = Some ch
        /\ Dict.get ch (_assigned_fgs q) = Some g
        /\ _assigned_triggers q'
           = Dict.set (fg g) trigger (_assigned_triggers q))
  /\ (msg = EmptyString \/ wav_headed msg -> wav_headed msg')
  /\ ends_with_trigger trigger msg'.
Proof.
  unfold program_channel. intros H.
  apply bind_Ok_inv in H. destruct H as (v_end & s1 & H1 & H).
  apply or_raise_Ok_inv in H1. destruct H1 as [Hve ->].
  apply bind_Ok_inv in H. destruct H as (v_start & s1 & H1 & H).
  apply or_raise_Ok_inv in H1. destruct H1 as [Hvs ->].
  apply bind_Ok_inv in H. destruct H as (ch & s1 & H1 & H).
  apply or_raise_Ok_inv in H1. destruct H1 as [Hch ->].
  apply bind_Ok_inv in H. destruct H as (assigned & s1 & H1 & H).
  unfold gets in H1. injection H1 as <- <-.
  apply bind_Ok_inv in H. destruct H as (g & s1 & H1 & H).
  apply or_raise_Ok_inv in H1. destruct H1 as [Hg ->].
  apply bind_Ok_inv in H. destruct H as ([] & s1 & H1 & H).
  apply bind_Ok_inv in H. destruct H as ([] & s2 & H2 & H).
  unfold ret in H. injection H as <- <-.
  assert (Hs2 : _assigned_fgs s2 = _assigned_fgs s1
                /\ trace s2 = trace s1 /\ clock s2 = clock s1
                /\ _assigned_triggers s2 = _assigned_triggers s1).
  { pose proof (update_channel_keeps
                  (fun s => (_assigned_fgs s, trace s, clock s,
                             _assigned_triggers s))
                  (fun _ _ => eq_refl) (ch - 1) (with_v_cache v_end) s1) as Hk.
    unfold v_cache_set in H2. unfold keeps in Hk. rewrite H2 in Hk. cbn in Hk.
    injection Hk. auto. }
  destruct Hs2 as (Hf2 & Ht2 & Hc2 & Hg2).
  assert (Hmsg :
    msg = EmptyString \/ wav_headed msg ->
    wav_headed
      ((msg ++ "wav " ++ Py.str ch ++ " " ++ Py.str (fg g) ++ " "
            ++ format_float (v_end - v_start) ++ " " ++ format_float v_start)
       ++ ";fun " ++ Py.str (fg g) ++ " " ++ Py.str Waveform.staircase ++ " "
       ++ Py.str (if contains fast_chans ch then step_length_ms
                  else fast_steps * step_length_ms) ++ " "
       ++ Py.str (if contains slow_chans ch then slow_steps else fast_steps)
       ++ " " ++ Py.str (if contains fast_chans ch then slow_steps else 1)
       ++ " " ++ Py.str trigger ++ ";")%string).
  { intros [-> | (r & Hr & ->)].
    - eexists. split; [| cbn; reflexivity].
      apply append_nonempty. discriminate.
    - eexists. split; [| cbn; reflexivity].
      apply append_nonempty. discriminate. }
  assert (Hend :
    ends_with_trigger trigger
      ((msg ++ "wav " ++ Py.str ch ++ " " ++ Py.str (fg g) ++ " "
            ++ format_float (v_end - v_start) ++ " " ++ format_float v_start)
       ++ ";fun " ++ Py.str (fg g) ++ " " ++ Py.str Waveform.staircase ++ " "
       ++ Py.str (if contains fast_chans ch then step_length_ms
                  else fast_steps * step_length_ms) ++ " "
       ++ Py.str (if contains slow_chans ch then slow_steps else fast_steps)
       ++ " " ++ Py.str (if contains fast_chans ch then slow_steps else 1)
       ++ " " ++ Py.str trigger ++ ";")%string).
  { eexists. rewrite <- !append_assoc. reflexivity. }
  destruct (Z.ltb_spec 0 trigger) as [Hpos | Hnon].
  - unfold modify in H1. injection H1 as <-.
    cbn [_assigned_fgs trace clock _assigned_triggers
         with_assigned_triggers] in Hf2, Ht2, Hc2, Hg2.
    repeat split; try assumption.
    + intros Hle. lia.
    + intros _. exists ch, g. repeat split; assumption.
  - unfold ret in H1. injection H1 as <-.
    repeat split; try assumption.
    + intros _. assumption.
    + intros Hlt. lia.
Qed.

(** The whole loop. *)
Lemma program_channels_Ok (idx : list nat) :
  forall msg q msg' q',
    program_channels body idx msg q = (Ok msg', q') ->
    _assigned_fgs q' = _assigned_fgs q
    /\ trace q' = trace q /\ clock q' = clock q
    /\ (trigger <= 0 -> _assigned_triggers q' = _assigned_triggers q)
    /\ (0 < trigger ->
        (forall i, In i idx ->
           exists ch g,
             nth_error channellist i = Some ch
             /\ Dict.get ch (_assigned_fgs q) = Some g
             /\ Dict.get (fg g) (_assigned_triggers q') = Some trigger)
        /\ (forall k, Dict.get k (_assigned_triggers q) = Some trigger ->
                      Dict.get k (_assigned_triggers q') = Some trigger))
    /\ (idx <> [] -> msg = EmptyString \/ wav_headed msg -> wav_headed msg')
    /\ (idx <> [] -> ends_with_trigger trigger msg')
    /\ (idx = [] -> msg' = msg).
Proof.
  induction idx as [| i rest IH]; intros msg q msg' q' H.
  - cbn in H. unfold ret in H. injection H as <- <-.
    repeat split; auto; try contradiction.
  - cbn [program_channels] in H.
    apply bind_Ok_inv in H. destruct H as (m1 & q1 & Hround & Hrest).
    apply program_channel_Ok in Hround.
    destruct Hround as (Hf1 & Ht1 & Hc1 & Hnon1 & Hpos1 & Hmsg1 & Hend1).
    apply IH in Hrest.
    destruct Hrest as (Hf & Ht & Hc & Hnon & Hpos & Hmsg & Hend & Hnil).
    repeat split.
    + congruence.
    + congruence.
    + congruence.
    + intros Hle. rewrite (Hnon Hle). now apply Hnon1.
    + intros j [<- | Hj].
      * destruct (Hpos1 H) as (ch & g & Hch & Hg & Hset).
        exists ch, g. repeat split; try assumption.
        apply (proj2 (Hpos H)). rewrite Hset. apply get_set_same.
      * destruct (proj1 (Hpos H) j Hj) as (ch & g & Hch & Hg & Hget).
        exists ch, g. repeat split; try assumption. congruence.
    + intros k Hk. apply (proj2 (Hpos H)).
      destruct (Hpos1 H) as (ch & g & _ & _ & Hset). rewrite Hset.
      destruct (Z.eq_dec (fg g) k) as [<- | Hne].
      * apply get_set_same.
      * now rewrite get_set_other.
    + intros _ Hhead. specialize (Hmsg1 Hhead).
      destruct rest as [| i' rest'].
      * now rewrite (Hnil eq_refl).
      * apply Hmsg; [discriminate | now right].
    + intros _. destruct rest as [| i' rest'].
      * now rewrite (Hnil eq_refl).
      * apply Hend. discriminate.
    + discriminate.
Qed.

End ProgramFacts.

(** [set_end_times]: every listed channel ends at [time_end]; generator
    numbers, triggers, clock and trace stay. *)
Lemma set_end_times_Ok (l : list Z) (time_end : Q) :
  forall q q',
    set_end_times l time_end q = (Ok tt, q') ->
    _assigned_triggers q' = _assigned_triggers q
    /\ trace q' = trace q /\ clock q' = clock q
    /\ (forall ch, In ch l ->
          exists g, Dict.get ch (_assigned_fgs q') = Some g
                    /\ t_end g = time_end)
    /\ (forall ch g, Dict.get ch (_assigned_fgs q) = Some g ->
          exists g', Dict.get ch (_assigned_fgs q') = Some g'
                     /\ fg g' = fg g
                     /\ (t_end g = time_end -> t_end g' = time_end)).
Proof.
  induction l as [| chan tl IH]; intros q q' H.
  - cbn in H. unfold ret in H. injection H as <-.
    repeat split; try reflexivity.
    + intros ch [].
    + intros ch g Hg. exists g. auto.
  - cbn [set_end_times for_each] in H.
    apply bind_Ok_inv in H. destruct H as ([] & q1 & Hone & Hrest).
    apply bind_Ok_inv in Hone. destruct Hone as (assigned & s & Hs & Hone).
    unfold gets in Hs. injection Hs as <- <-.
    apply bind_Ok_inv in Hone. destruct Hone as (g0 & s & Hs & Hone).
    apply or_raise_Ok_inv in Hs. destruct Hs as [Hg0 ->].
    unfold modify in Hone. injection Hone as <-.
    apply IH in Hrest. cbn in Hrest.
    destruct Hrest as (Htrig & Htr & Hclk & Hall & Hkeep).
    assert (Hstep : forall ch g, Dict.get ch (_assigned_fgs q) = Some g ->
              exists g1,
                Dict.get ch (Dict.set chan (with_t_end time_end g0)
                                      (_assigned_fgs q)) = Some g1
                /\ fg g1 = fg g
                /\ (t_end g = time_end -> t_end g1 = time_end)).
    { intros ch g Hg. destruct (Z.eq_dec chan ch) as [<- | Hne].
      - rewrite get_set_same. eexists. split; [reflexivity |].
        assert (g0 = g) by congruence. subst. cbn. auto.
      - rewrite get_set_other by assumption. exists g. auto. }
    repeat split; try assumption.
    + intros ch [<- | Hin].
      * destruct (Hkeep chan (with_t_end time_end g0)) as (g' & Hg' & _ & Ht).
        { apply get_set_same. }
        exists g'. split; [assumption | now apply Ht].
      * now apply Hall.
    + intros ch g Hg. destruct (Hstep ch g Hg) as (g1 & Hg1 & Hfg1 & Ht1).
      destruct (Hkeep ch g1 Hg1) as (g' & Hg' & Hfg' & Ht').
      exists g'. repeat split; [assumption | congruence | auto].
Qed.

(** [find_trigger] reads the state only. *)
Lemma find_trigger_Ok (n : nat) (q : QDac) (t : Z) (q' : QDac) :
  find_trigger n q = (Ok t, q') ->
  q' = q
  /\ (n = 1%nat -> t = 0)
  /\ (n <> 1%nat ->
      Py.min_int (Py.difference _trigs (Dict.values (_assigned_triggers q)))
      = Some t
      /\ 1 <= t <= 9).
Proof.
  unfold find_trigger. destruct (Nat.eqb_spec n 1) as [-> | Hn].
  - unfold ret. intros H. injection H as <- <-.
    split; [reflexivity |]. split; [reflexivity |].
    intros Hc. now contradiction Hc.
  - intros H. apply bind_Ok_inv in H. destruct H as (trs & s & Hs & H).
    unfold gets in Hs. injection Hs as <- <-.
    apply or_raise_Ok_inv in H. destruct H as [Hmin ->].
    split; [reflexivity |]. split; [intros Hc; contradiction |].
    intros _. split; [assumption |].
    apply min_int_spec in Hmin. destruct Hmin as [Hin _].
    apply difference_spec in Hin. destruct Hin as [Hin _].
    now apply trigs_spec in Hin.
Qed.

(* ===================================================================== *)
(** * Ramps that succeed                                                   *)
(* ===================================================================== *)

Lemma preserves_at {S A : Type} (R : S -> S -> Prop) (m : M S A) s r s' :
  preserves R m -> m s = (r, s') -> R s s'.
Proof. intros Hm H. specialize (Hm s). now rewrite H in Hm. Qed.

Section RampFacts.

Variable float_of_str : string -> option Q.
Variable format_float : Q -> string.
Variable format_f6 : Q -> string.

Lemma quiet_warned w : quiet (Warned w).
Proof. exact I. Qed.

Lemma quiet_slept d : quiet (Slept d).
Proof. exact I. Qed.

Lemma quiet_dc ch v : quiet (Written (dc_command format_f6 ch v)).
Proof. reflexivity. Qed.

Lemma quiet_query n : quiet (Written ("set " ++ Py.str n)).
Proof. reflexivity. Qed.

Lemma quiet_syn args : quiet (Written ("syn " ++ args)).
Proof. reflexivity. Qed.

(** The shape of every successful [ramp_voltages_2d]. *)
Lemma ramp_success (slow_chans : list Z) (slow_vstart slow_vend : list Q)
  (fast_chans : list Z) (fast_vstart fast_vend : list Q)
  (step_length : Q) (slow_steps fast_steps : Z) (q : QDac) (d : Q) (q' : QDac) :
  ramp_voltages_2d float_of_str format_float format_f6
    slow_chans slow_vstart slow_vend fast_chans fast_vstart fast_vend
    step_length slow_steps fast_steps q = (Ok d, q') ->
  let channellist := slow_chans ++ fast_chans in
  d = expected_duration step_length slow_steps fast_steps
  /\ exists trigger pre msg,
      (List.length channellist = 1%nat -> trigger = 0)
      /\ (List.length channellist <> 1%nat ->
          Py.min_int
            (Py.difference _trigs (Dict.values (_assigned_triggers q)))
          = Some trigger
          /\ 1 <= trigger <= 9)
      /\ trace q'
         = trace q ++ pre
           ++ Written (Py.drop_last msg)
              :: (if 0 <? trigger
                  then [Written ("trig " ++ Py.str trigger)] else [])
      /\ Forall quiet pre
      /\ (channellist <> [] ->
          String.prefix "wav " (Py.drop_last msg) = true
          /\ String.prefix "trig " (Py.drop_last msg) = false)
      /\ (channellist <> [] ->
          exists body,
            Py.drop_last msg = ((body ++ " ") ++ Py.str trigger)%string)
      /\ (channellist = [] -> msg = EmptyString)
      /\ (trigger = 0 -> _assigned_triggers q' = _assigned_triggers q)
      /\ (forall ch, In ch channellist ->
            exists g,
              Dict.get ch (_assigned_fgs q') = Some g
              /\ t_end g = (d + clock q')%Q
              /\ (0 < trigger ->
                  Dict.get (fg g) (_assigned_triggers q') = Some trigger)).
Proof.
  intros H channellist. unfold ramp_voltages_2d in H. fold channellist in H.
  (* the stages of the call, one after the other *)
  apply bind_Ok_inv in H. destruct H as ([] & qa & Hwarn & H).
  apply bind_Ok_inv in H. destruct H as ([] & s & Hs & H).
  apply raise_if_Ok_inv in Hs. destruct Hs as [_ ->].
  apply bind_Ok_inv in H. destruct H as ([] & s & Hs & H).
  apply raise_if_Ok_inv in Hs. destruct Hs as [_ ->].
  apply bind_Ok_inv in H. destruct H as ([] & qb & Hacq & H).
  apply bind_Ok_inv in H. destruct H as ([] & s & Hval & H).
  assert (s = qb) as ->
    by (apply (preserves_at _ _ _ _ _
                 (validate_voltages_keeps (fun s => s) _ _) Hval)).
  apply bind_Ok_inv in H. destruct H as ([] & s & Hval2 & H).
  assert (s = qb) as ->.
  { destruct (slow_vstart ++ fast_vstart).
    - unfold ret in Hval2. congruence.
    - apply (preserves_at _ _ _ _ _
               (validate_voltages_keeps (fun s => s) _ _) Hval2). }
  apply bind_Ok_inv in H. destruct H as (svs & qc1 & Hsv & H).
  apply bind_Ok_inv in H. destruct H as (fvs & qc & Hfv & H).
  apply bind_Ok_inv in H. destruct H as ([] & s & Hs & H).
  apply raise_if_Ok_inv in Hs. destruct Hs as [_ ->].
  apply bind_Ok_inv in H. destruct H as (t & s & Htrig & H).
  apply find_trigger_Ok in Htrig. destruct Htrig as (-> & Hone & Hmany).
  apply bind_Ok_inv in H. destruct H as ([] & qd & Hsyn & H).
  apply bind_Ok_inv in H. destruct H as (msg & qe & Hprog & H).
  apply bind_Ok_inv in H. destruct H as ([] & qf & Hwrite & H).
  apply bind_Ok_inv in H. destruct H as ([] & qg & Hfire & H).
  apply bind_Ok_inv in H. destruct H as (now & s & Hs & H).
  unfold time_time, gets in Hs. injection Hs as <- <-.
  apply bind_Ok_inv in H. destruct H as ([] & qh & Hend & H).
  unfold ret in H. injection H as <- <-.
  (* the trace and the triggers up to the programming loop *)
  assert (Hpre : emits quiet q qd).
  { apply emits_trans with qa.
    { destruct (Py.ltb step_length (1 # 1000)).
      - apply (preserves_at _ _ _ _ _
                 (emit_emits quiet _ (quiet_warned _)) Hwarn).
      - unfold ret in Hwarn. injection Hwarn as <-. apply emits_refl. }
    apply emits_trans with qb.
    { apply (preserves_at _ _ _ _ _
               (acquire_generators_emits format_f6 quiet quiet_warned
                  quiet_slept quiet_dc _) Hacq). }
    apply emits_trans with qc1.
    { apply (preserves_at _ _ _ _ _
               (start_voltages_emits float_of_str quiet quiet_query _ _) Hsv). }
    apply emits_trans with qc.
    { apply (preserves_at _ _ _ _ _
               (start_voltages_emits float_of_str quiet quiet_query _ _) Hfv). }
    apply (preserves_at _ _ _ _ _
             (configure_syncs_emits quiet quiet_syn _) Hsyn). }
  assert (Htq : _assigned_triggers qc = _assigned_triggers q).
  { transitivity (_assigned_triggers qc1).
    { apply (preserves_at _ _ _ _ _
               (start_voltages_keeps float_of_str _assigned_triggers
                  (fun _ _ => eq_refl) (fun _ _ => eq_refl)
                  (fun _ _ => eq_refl) _ _) Hfv). }
    transitivity (_assigned_triggers qb).
    { apply (preserves_at _ _ _ _ _
               (start_voltages_keeps float_of_str _assigned_triggers
                  (fun _ _ => eq_refl) (fun _ _ => eq_refl)
                  (fun _ _ => eq_refl) _ _) Hsv). }
    transitivity (_assigned_triggers qa).
    { apply (preserves_at _ _ _ _ _
               (acquire_generators_keeps format_f6 _assigned_triggers
                  (fun _ _ => eq_refl) (fun _ _ => eq_refl)
                  (fun _ _ => eq_refl) (fun _ _ => eq_refl)
                  (fun _ _ => eq_refl) _) Hacq). }
    destruct (Py.ltb step_length (1 # 1000)).
    - apply (preserves_at _ _ _ _ _
               (emit_keeps _assigned_triggers (fun _ _ => eq_refl) _) Hwarn).
    - unfold ret in Hwarn. now injection Hwarn as <-. }
  assert (Htd : _assigned_triggers qd = _assigned_triggers qc).
  { apply (preserves_at _ _ _ _ _
             (configure_syncs_keeps _assigned_triggers (fun _ _ => eq_refl)
                (fun _ _ => eq_refl) (fun _ _ => eq_refl) _) Hsyn). }
  (* the programming loop, the two writes, the end times *)
  apply program_channels_Ok in Hprog.
  destruct Hprog as (Hfe & Htre & Hce & Hnone & Hrec & Hmsg & Hends & Hnil).
  apply write_Ok_inv in Hwrite. destruct Hwrite as [Htrf Hsetf].
  destruct (settings_inv _ _ Hsetf)
    as (_ & _ & _ & _ & _ & Hff & Htf & _ & _ & _).
  assert (Hg : trace qg
               = trace qf ++ (if 0 <? t
                              then [Written ("trig " ++ Py.str t)] else [])
               /\ _assigned_fgs qg = _assigned_fgs qf
               /\ _assigned_triggers qg = _assigned_triggers qf).
  { destruct (0 <? t).
    - apply write_Ok_inv in Hfire. destruct Hfire as [Htrg Hsetg].
      destruct (settings_inv _ _ Hsetg)
        as (_ & _ & _ & _ & _ & Hfg & Htg & _).
      auto.
    - unfold ret in Hfire. injection Hfire as <-.
      now rewrite app_nil_r. }
  destruct Hg as (Htrg & Hfg & Htg).
  apply set_end_times_Ok in Hend.
  destruct Hend as (Hth & Htrh & Hch & Hall & Hkeep).
  split; [reflexivity |].
  destruct Hpre as (pre & Hpre & Hquiet).
  exists t, pre, msg.
  split; [exact Hone |].
  split; [intros Hn; rewrite <- Htq; now apply Hmany |].
  split.
  { rewrite Htrh, Htrg, Htrf, Htre, Hpre, <- !app_assoc. reflexivity. }
  split; [exact Hquiet |].
  split.
  { intros Hne. apply drop_last_wav. apply Hmsg; [| now left].
    destruct channellist; [contradiction | discriminate]. }
  split.
  { intros Hne. destruct Hends as (body & ->).
    { destruct channellist; [contradiction | discriminate]. }
    exists body. apply drop_last_snoc. }
  split.
  { intros Hnone'. apply Hnil. now rewrite Hnone'. }
  split.
  { intros ->. rewrite Hth, Htg, Htf, Hnone by lia. congruence. }
  intros ch Hin. destruct (Hall ch Hin) as (g & Hg & Hend).
  exists g. split; [exact Hg |]. split.
  { rewrite Hend, Hch. reflexivity. }
  intros Hpos. destruct (Hrec Hpos) as [Hidx _].
  destruct (In_nth_error _ _ Hin) as (i & Hi).
  destruct (Hidx i) as (ch' & g0 & Hch' & Hg0 & Hget).
  { apply in_seq. split; [lia |]. cbn.
    apply nth_error_Some. congruence. }
  assert (ch' = ch) by congruence. subst ch'.
  destruct (Hkeep ch g0) as (g' & Hg' & Hfg' & _).
  { now rewrite Hfg, Hff, Hfe. }
  assert (g' = g) by congruence. subst g'.
  rewrite Hth, Htg, Htf, Hfg'. exact Hget.
Qed.

End RampFacts.

(* ===================================================================== *)
(** * Ramps: triggers and expected duration                                *)
(* ===================================================================== *)

Lemma lowest_free_trigger (used : list Z) (t : Z) :
  Py.min_int (Py.difference _trigs used) = Some t ->
  1 <= t <= 9 /\ ~ In t used
  /\ (forall t', 1 <= t' <= 9 -> ~ In t' used -> t <= t').
Proof.
  intros Hmin. apply min_int_spec in Hmin. destruct Hmin as [Hin Hall].
  apply difference_spec in Hin. destruct Hin as [Ht Hfree].
  apply trigs_spec in Ht. repeat split; try lia; try assumption.
  intros t' Ht' Hfree'. apply Hall. apply difference_spec.
  split; [now apply trigs_spec | assumption].
Qed.

(** C4.  A successful [ramp_voltages_2d] with exactly one participating
    channel never writes a ['trig'] command, programs its generator with
    trigger id 0 and records no trigger; with two or more channels it
    selects one trigger, the lowest id not already assigned, records it
    for the generator of every participating channel, and fires it with
    a single ['trig'] write, the last write of the call, issued right
    after the batched waveform-programming write. *)
Theorem ramp_trigger_discipline
  (float_of_str : string -> option Q) (format_float format_f6 : Q -> string)
  (slow_chans : list Z) (slow_vstart slow_vend : list Q)
  (fast_chans : list Z) (fast_vstart fast_vend : list Q)
  (step_length : Q) (slow_steps fast_steps : Z) (q : QDac) (d : Q) (q' : QDac) :
  ramp_voltages_2d float_of_str format_float format_f6
    slow_chans slow_vstart slow_vend fast_chans fast_vstart fast_vend
    step_length slow_steps fast_steps q = (Ok d, q') ->
  let channellist := slow_chans ++ fast_chans in
  let used := Dict.values (_assigned_triggers q) in
  (List.length channellist = 1%nat ->
   _assigned_triggers q' = _assigned_triggers q
   /\ exists pre body,
        trace q' = trace q ++ pre ++ [Written ((body ++ " ") ++ Py.str 0)]
        /\ Forall quiet pre
        /\ quiet (Written ((body ++ " ") ++ Py.str 0))
        /\ String.prefix "wav " ((body ++ " ") ++ Py.str 0) = true)
  /\ ((2 <= List.length channellist)%nat ->
      exists trigger pre program,
        Py.min_int (Py.difference _trigs used) = Some trigger
        /\ (1 <= trigger <= 9 /\ ~ In trigger used
            /\ forall t', 1 <= t' <= 9 -> ~ In t' used -> trigger <= t')
        /\ trace q'
           = trace q ++ pre
             ++ [Written program; Written ("trig " ++ Py.str trigger)]
        /\ Forall quiet pre
        /\ quiet (Written program)
        /\ String.prefix "wav " program = true
        /\ (forall ch, In ch channellist ->
              exists g,
                Dict.get ch (_assigned_fgs q') = Some g
                /\ Dict.get (fg g) (_assigned_triggers q') = Some trigger)).
Proof.
  intros H channellist used.
  destruct (ramp_success _ _ _ _ _ _ _ _ _ _ _ _ _ _ _ H)
    as (_ & t & pre & msg & Hone & Hmany & Htr & Hquiet & Hwav & Hbody
        & _ & Hkeep & Hrec).
  fold channellist in Hone, Hmany, Hwav, Hbody, Hrec.
  assert (Hne : (1 <= List.length channellist)%nat -> channellist <> []).
  { intros Hlen ->. cbn in Hlen. lia. }
  split.
  - intros Hlen. specialize (Hone Hlen). subst t.
    split; [now apply Hkeep |].
    destruct (Hbody (Hne ltac:(lia))) as (body & Hmsg).
    destruct (Hwav (Hne ltac:(lia))) as (Hw & Hq).
    exists pre, body. rewrite <- Hmsg. repeat split; assumption.
  - intros Hlen. destruct Hmany as (Hmin & Ht); [lia |].
    destruct (Hwav (Hne ltac:(lia))) as (Hw & Hq).
    exists t, pre, (Py.drop_last msg).
    split; [exact Hmin |].
    split; [now apply lowest_free_trigger |].
    split.
    { rewrite Htr.
      replace (0 <? t) with true by (symmetry; apply Z.ltb_lt; lia).
      reflexivity. }
    repeat split; try assumption.
    intros ch Hin. destruct (Hrec ch Hin) as (g & Hg & _ & Htrig).
    exists g. split; [exact Hg | apply Htrig; lia].
Qed.

Lemma ramp_trigger_discipline_witness :
  let run :=
    ramp_voltages_2d Text.parse_float Text.format_float Text.format_f6
      [] [] [] [1; 2] [] [0; 1]%Q (1 # 1000) 1 100 two_channel_qdac in
  exists pre program,
    trace (snd run) = pre ++ [Written program; Written "trig 1"]
    /\ Forall quiet pre
    /\ Dict.get 1 (_assigned_triggers (snd run)) = Some 1
    /\ Dict.get 2 (_assigned_triggers (snd run)) = Some 1.
Proof.
  intros run.
  assert (Hrun : run = (Ok (100 # 1000), snd run)) by (vm_compute; reflexivity).
  destruct (proj2 (ramp_trigger_discipline Text.parse_float Text.format_float
                     Text.format_f6 [] [] [] [1; 2] [] [0; 1]%Q (1 # 1000)
                     1 100 two_channel_qdac (100 # 1000) (snd run) Hrun))
    as (t & pre & program & Hmin & _ & Htr & Hquiet & _ & _ & _).
  - cbn. lia.
  - vm_compute in Hmin. injection Hmin as <-.
    exists pre, program. split; [exact Htr |]. split; [exact Hquiet |].
    split; vm_compute; reflexivity.
Defined.



(* ===================================================================== *)
(** * Ramps that are rejected                                              *)
(* ===================================================================== *)

Lemma raise_through {A B : Type} (R : QDac -> QDac -> Prop)
  (m : M QDac A) (f : A -> M QDac B) (q0 s : QDac) :
  (forall s1 s2 s3, R s1 s2 -> R s2 s3 -> R s1 s3) ->
  R q0 s ->
  preserves R m ->
  (forall a s', m s = (Ok a, s') -> R q0 s' -> raises_within R q0 (f a s')) ->
  raises_within R q0 (bind m f s).
Proof.
  intros Htrans Hacc Hm Hk. unfold bind. specialize (Hm s).
  destruct (m s) as [[a | e] s'] eqn:E; cbn in Hm.
  - apply Hk; [reflexivity | now apply Htrans with s].
  - split; [now exists e | now apply Htrans with s].
Qed.

Lemma for_each_readonly {A : Type} (body : A -> M QDac unit) (l : list A) :
  (forall x s r s', body x s = (r, s') -> s' = s) ->
  forall q q',
    for_each l body q = (Ok tt, q') ->
    q' = q /\ forall x, In x l -> body x q = (Ok tt, q).
Proof.
  intros Hro. induction l as [| x tl IH]; intros q q' H.
  - cbn in H. unfold ret in H. injection H as <-. split; [reflexivity |].
    intros x [].
  - cbn [for_each] in H. apply bind_Ok_inv in H.
    destruct H as ([] & q1 & Hx & Htl).
    pose proof (Hro _ _ _ _ Hx) as ->.
    destruct (IH _ _ Htl) as [-> Hall]. split; [reflexivity |].
    intros y [<- | Hy]; [exact Hx | now apply Hall].
Qed.

(** A validation loop that passes has checked every channel of the list
    against its validator. *)
Lemma validate_voltages_Ok (channellist : list Z) (voltages : list Q) q q' :
  validate_voltages channellist voltages q = (Ok tt, q') ->
  q' = q
  /\ forall i ch, nth_error channellist i = Some ch ->
       exists c v,
         Py.getitem (channels q) (ch - 1) = Some c
         /\ nth_error voltages i = Some v
         /\ in_bounds (v_vals c) v = true.
Proof.
  intros H. unfold validate_voltages in H.
  apply for_each_readonly in H.
  - destruct H as [-> Hall]. split; [reflexivity |].
    intros i ch Hch.
    assert (Hi : In i (seq 0 (List.length channellist))).
    { apply in_seq. split; [lia |]. cbn. apply nth_error_Some. congruence. }
    specialize (Hall i Hi). cbv beta in Hall.
    apply bind_Ok_inv in Hall. destruct Hall as (ch' & s & Hs & Hall).
    apply or_raise_Ok_inv in Hs. destruct Hs as [Hch' ->].
    assert (ch' = ch) by congruence. subst ch'.
    apply bind_Ok_inv in Hall. destruct Hall as (c & s & Hs & Hall).
    unfold channel in Hs. apply bind_Ok_inv in Hs.
    destruct Hs as (chs & s0 & Hs0 & Hs). unfold gets in Hs0.
    injection Hs0 as <- <-. apply or_raise_Ok_inv in Hs. destruct Hs as [Hc ->].
    apply bind_Ok_inv in Hall. destruct Hall as (v & s & Hs & Hall).
    apply or_raise_Ok_inv in Hs. destruct Hs as [Hv ->].
    unfold v_validate in Hall.
    apply bind_Ok_inv in Hall. destruct Hall as (c' & s & Hs & Hall).
    unfold channel in Hs. apply bind_Ok_inv in Hs.
    destruct Hs as (chs & s0 & Hs0 & Hs). unfold gets in Hs0.
    injection Hs0 as <- <-. apply or_raise_Ok_inv in Hs. destruct Hs as [Hc' ->].
    assert (c' = c) by congruence. subst c'.
    apply raise_if_Ok_inv in Hall. destruct Hall as [Hb _].
    exists c, v. repeat split; try assumption.
    now apply negb_false_iff.
  - intros x s r s' Hx.
    assert (Hk : keeps (fun s : QDac => s) s s'); [| exact Hk].
    eapply preserves_at; [| exact Hx].
    repeat frame_step (keeps_refl (fun s : QDac => s))
                      (keeps_trans (fun s : QDac => s));
      try apply (channel_keeps (fun s => s));
      apply (v_validate_keeps (fun s => s)).
Qed.

Lemma map_m_length {A B : Type} (f : A -> M QDac B) (l : list A) :
  forall q ys q', map_m f l q = (Ok ys, q') -> List.length ys = List.length l.
Proof.
  induction l as [| x tl IH]; intros q ys q' H.
  - cbn in H. unfold ret in H. now injection H as <- <-.
  - cbn [map_m] in H. apply bind_Ok_inv in H. destruct H as (y & q1 & _ & H).
    apply bind_Ok_inv in H. destruct H as (ys' & q2 & Htl & H).
    unfold ret in H. injection H as <- <-. cbn. f_equal. eauto.
Qed.

Section RejectFacts.

Variable float_of_str : string -> option Q.
Variable format_float : Q -> string.
Variable format_f6 : Q -> string.

Lemma rejected_early_trans q1 q2 q3 :
  (rejected_early format_f6) q1 q2 -> (rejected_early format_f6) q2 q3 -> (rejected_early format_f6) q1 q3.
Proof.
  intros [K1 E1] [K2 E2]. split;
    [eapply keeps_trans | eapply emits_trans]; eassumption.
Qed.

Lemma rejected_late_trans q1 q2 q3 :
  (rejected_late format_f6) q1 q2 -> (rejected_late format_f6) q2 q3 -> (rejected_late format_f6) q1 q3.
Proof.
  intros [K1 E1] [K2 E2]. split;
    [eapply keeps_trans | eapply emits_trans]; eassumption.
Qed.

Lemma rejected_early_late q q' : (rejected_early format_f6) q q' -> (rejected_late format_f6) q q'.
Proof.
  intros [K E]. split.
  - unfold keeps, untouched in *. injection K as _ _ -> -> ->. reflexivity.
  - eapply emits_weaken; [| exact E]. intros [cmd | |]; cbn; auto.
Qed.

Lemma acquire_generators_Ok (l : list Z) :
  forall q q',
    acquire_generators format_f6 l q = (Ok tt, q') ->
    forall ch, In ch l -> Py.in_range 1 (num_chans q + 1) ch = true.
Proof.
  induction l as [| chan tl IH]; intros q q' H ch Hin; [destruct Hin |].
  unfold acquire_generators in H. cbn [for_each] in H.
  apply bind_Ok_inv in H. destruct H as ([] & q1 & Hone & Htl).
  assert (Hn : num_chans q1 = num_chans q).
  { assert (Hacq : acquire_generators format_f6 [chan] q = (Ok tt, q1)).
    { unfold acquire_generators. cbn [for_each].
      now rewrite (bind_Ok _ _ _ _ _ Hone). }
    apply (preserves_at _ _ _ _ _
             (acquire_generators_keeps format_f6 num_chans
                (fun _ _ => eq_refl) (fun _ _ => eq_refl)
                (fun _ _ => eq_refl) (fun _ _ => eq_refl)
                (fun _ _ => eq_refl) [chan]) Hacq). }
  destruct Hin as [<- | Hin].
  - apply bind_Ok_inv in Hone. destruct Hone as (n & s & Hs & Hone).
    unfold gets in Hs. injection Hs as <- <-.
    apply bind_Ok_inv in Hone. destruct Hone as ([] & s & Hs & _).
    apply raise_if_Ok_inv in Hs. destruct Hs as [Hr _].
    now apply negb_false_iff.
  - rewrite <- Hn. eapply IH; eassumption.
Qed.

Lemma preserves_early {A : Type} (m : M QDac A) :
  preserves (keeps untouched) m -> preserves (emits (reset_only format_f6)) m ->
  preserves (rejected_early format_f6) m.
Proof. intros H1 H2 s. split; [apply H1 | apply H2]. Qed.

Lemma preserves_late {A : Type} (m : M QDac A) :
  preserves (keeps (fun s => (_assigned_triggers s, _syncoutputs s, _slopes s))) m ->
  preserves (emits (reset_or_query format_f6)) m ->
  preserves (rejected_late format_f6) m.
Proof. intros H1 H2 s. split; [apply H1 | apply H2]. Qed.

Lemma reset_only_dc ch v : (reset_only format_f6) (Written (dc_command format_f6 ch v)).
Proof. cbn. eauto. Qed.

Lemma reset_or_query_query n : (reset_or_query format_f6) (Written ("set " ++ Py.str n)).
Proof. cbn. eauto. Qed.

Lemma warn_early (c : bool) :
  preserves (rejected_early format_f6)
    (if c then log_warning StepLengthTooShort else ret tt).
Proof.
  apply preserves_early; destruct c.
  - now apply emit_keeps.
  - apply preserves_ret, keeps_refl.
  - now apply emit_emits.
  - apply preserves_ret, emits_refl.
Qed.

Lemma raise_if_early c e : preserves (rejected_early format_f6) (raise_if c e).
Proof.
  apply preserves_early; apply preserves_raise_if;
    [apply keeps_refl | apply emits_refl].
Qed.

Lemma acquire_early l :
  preserves (rejected_early format_f6) (acquire_generators format_f6 l).
Proof.
  apply preserves_early.
  - now apply acquire_generators_keeps.
  - apply acquire_generators_emits; cbn; auto. apply reset_only_dc.
Qed.

Lemma validate_early l vs : preserves (rejected_early format_f6) (validate_voltages l vs).
Proof.
  intros s.
  pose proof (validate_voltages_keeps (fun s => s) l vs s) as H.
  unfold keeps in H. rewrite H. split; [apply keeps_refl | apply emits_refl].
Qed.

Lemma early_to_late {A : Type} (m : M QDac A) :
  preserves (rejected_early format_f6) m -> preserves (rejected_late format_f6) m.
Proof. intros H s. apply rejected_early_late, H. Qed.

Lemma start_voltages_late vs l :
  preserves (rejected_late format_f6) (start_voltages float_of_str vs l).
Proof.
  apply preserves_late.
  - now apply start_voltages_keeps.
  - apply start_voltages_emits. apply reset_or_query_query.
Qed.

Lemma start_voltages_length vs l q ys q' :
  start_voltages float_of_str vs l q = (Ok ys, q') ->
  List.length ys
  = match vs with [] => List.length l | _ => List.length vs end.
Proof.
  unfold start_voltages. destruct vs.
  - apply map_m_length.
  - unfold ret. intros H. now injection H as <- <-.
Qed.


End RejectFacts.



(* ===================================================================== *)
(** * More on the line protocol                                            *)
(* ===================================================================== *)

Lemma write_result (cmd : string) (q : QDac) :
  fst (write cmd q)
  = (if negb (visa_status q =? 0) then Raise VisaIOError
     else if (Py.count ";" cmd + 1 <=? List.length (visa_incoming q))%nat
          then Ok tt else Raise VisaIOError)
  /\ visa_incoming (snd (write cmd q))
     = (if negb (visa_status q =? 0) then visa_incoming q
        else skipn (Py.count ";" cmd + 1) (visa_incoming q)).
Proof.
  destruct (Z.eqb_spec (visa_status q) 0) as [Hst | Hst]; cbn [negb].
  - destruct (Nat.leb_spec (Py.count ";" cmd + 1)
                (List.length (visa_incoming q))) as [Hlen | Hlen].
    + destruct (write_Ok cmd q Hst Hlen) as (q' & Hrun & Hin & _).
      rewrite Hrun. cbn. auto.
    + unfold write, visa_write, emit, check_error, raise_if, bind, modify,
        gets, ret. cbn. rewrite Hst. cbn.
      destruct (read_responses_short (Py.count ";" cmd + 1)
                  (with_trace (trace q ++ [Written cmd]) q) Hlen)
        as (q' & Hrun & Hin).
      rewrite Hrun. cbn. split; [reflexivity |].
      rewrite Hin. symmetry. apply skipn_all2. lia.
  - unfold write, visa_write, emit, check_error, raise_if, bind, modify,
      gets, ret. cbn.
    destruct (visa_status q =? 0) eqn:E; [apply Z.eqb_eq in E; contradiction |].
    cbn. auto.
Qed.

Lemma write_Ok_cond (cmd : string) (q q' : QDac) :
  write cmd q = (Ok tt, q') ->
  visa_status q = 0
  /\ (Py.count ";" cmd + 1 <= List.length (visa_incoming q))%nat.
Proof.
  intros H. pose proof (proj1 (write_result cmd q)) as Hr.
  rewrite H in Hr. cbn [fst] in Hr.
  destruct (Z.eqb_spec (visa_status q) 0); cbn in Hr; [| discriminate].
  destruct (Nat.leb_spec (Py.count ";" cmd + 1)
              (List.length (visa_incoming q))); [auto | discriminate].
Qed.

(** X1.  [write] fails in exactly two ways, both with the command
    already sent: the handle reports a non-zero status, and then no
    reply is read; or fewer than [count(';') + 1] replies are pending,
    and then all of them have been taken.  Nothing but the trace, the
    reply queue and the retained reply ever changes. *)
Theorem write_outcomes (cmd : string) (q : QDac) :
  fst (write cmd q)
  = (if negb (visa_status q =? 0) then Raise VisaIOError
     else if (Py.count ";" cmd + 1 <=? List.length (visa_incoming q))%nat
          then Ok tt else Raise VisaIOError)
  /\ visa_incoming (snd (write cmd q))
     = (if negb (visa_status q =? 0) then visa_incoming q
        else skipn (Py.count ";" cmd + 1) (visa_incoming q))
  /\ trace (snd (write cmd q)) = trace q ++ [Written cmd]
  /\ settings (snd (write cmd q)) = settings q.
Proof.
  destruct (write_result cmd q) as [Hr Hin].
  split; [exact Hr |]. split; [exact Hin |]. split.
  - apply write_trace.
  - apply (write_keeps settings); intros; reflexivity.
Qed.

(** X2.  Batching: when two commands written one after the other both
    succeed, writing them joined by [';'] succeeds too, takes the same
    reply lines, retains the same last reply and leaves the same
    instrument state; only the trace differs (one command, not two). *)
Theorem write_joined (a b : string) (q q1 q2 : QDac) :
  write a q = (Ok tt, q1) ->
  write b q1 = (Ok tt, q2) ->
  exists q',
    write (a ++ ";" ++ b) q = (Ok tt, q')
    /\ visa_incoming q' = visa_incoming q2
    /\ _write_response q' = _write_response q2
    /\ settings q' = settings q2
    /\ trace q' = trace q ++ [Written (a ++ ";" ++ b)]
    /\ trace q2 = trace q ++ [Written a; Written b].
Proof.
  intros Ha Hb.
  destruct (write_Ok_cond _ _ _ Ha) as [Hst Hla].
  destruct (write_Ok_cond _ _ _ Hb) as [Hst1 Hlb].
  destruct (write_Ok a q Hst Hla) as (q1' & Ha' & Hin1 & Hr1 & Ht1 & Hs1).
  assert (q1' = q1) by congruence. subst q1'.
  destruct (write_Ok b q1 Hst1 Hlb) as (q2' & Hb' & Hin2 & Hr2 & Ht2 & Hs2).
  assert (q2' = q2) by congruence. subst q2'.
  assert (Hcount : (Py.count ";" (a ++ ";" ++ b) + 1
                    = (Py.count ";" a + 1) + (Py.count ";" b + 1))%nat).
  { rewrite count_app. change (";" ++ b)%string with (String ";" b).
    cbn. lia. }
  rewrite Hin1, length_skipn in Hlb.
  destruct (write_Ok (a ++ ";" ++ b) q Hst) as (q' & Hab & Hin & Hr & Ht & Hs).
  { rewrite Hcount. lia. }
  exists q'. split; [exact Hab |]. split.
  { rewrite Hin, Hin2, Hin1, Hcount, skipn_skipn.
    f_equal. lia. }
  split.
  { rewrite Hin1, nth_error_skipn in Hr2.
    replace (Py.count ";" (a ++ ";" ++ b))
      with (Py.count ";" a + 1 + Py.count ";" b)%nat in Hr by lia.
    congruence. }
  split; [congruence |]. split; [exact Ht |].
  rewrite Ht2, Ht1, <- app_assoc. reflexivity.
Qed.

Lemma write_joined_witness :
  exists q',
    write "wav 1 0 0 0;set 1 0.5" (fresh_qdac 24 1000 ["a"; "b"; "c"]%string)
    = (Ok tt, q')
    /\ _write_response q' = "b"%string.
Proof.
  destruct (write_joined "wav 1 0 0 0" "set 1 0.5"
              (fresh_qdac 24 1000 ["a"; "b"; "c"]%string)
              (snd (write "wav 1 0 0 0"
                      (fresh_qdac 24 1000 ["a"; "b"; "c"]%string)))
              (snd (write "set 1 0.5"
                      (snd (write "wav 1 0 0 0"
                              (fresh_qdac 24 1000 ["a"; "b"; "c"]%string))))))
    as (q' & Hrun & _ & Hresp & _).
  - reflexivity.
  - reflexivity.
  - exists q'. split; [exact Hrun |]. rewrite Hresp. reflexivity.
Defined.

(* ===================================================================== *)
(** * The generator pool                                                   *)
(* ===================================================================== *)

(** The state in which the first part of a computation ends is the one
    in which the second starts. *)
Lemma snd_bind {S A B : Type} (P : S -> Prop) (m : M S A) (k : A -> M S B) s :
  (forall e s', m s = (Raise e, s') -> P s') ->
  (forall a s', m s = (Ok a, s') -> P (snd (k a s'))) ->
  P (snd (bind m k s)).
Proof.
  intros Hraise Hok. unfold bind.
  destruct (m s) as [[a | e] s'] eqn:E; [now apply Hok | now apply (Hraise e)].
Qed.

Lemma maintains_refl (I : QDac -> Prop) q : maintains I q q.
Proof. intros H. exact H. Qed.

Lemma maintains_trans (I : QDac -> Prop) q1 q2 q3 :
  maintains I q1 q2 -> maintains I q2 q3 -> maintains I q1 q3.
Proof. unfold maintains. auto. Qed.

Lemma in_values {V : Type} (d : Dict.t V) (v : V) :
  In v (Dict.values d) <-> exists k, In (k, v) d.
Proof.
  unfold Dict.values. rewrite in_map_iff. split.
  - intros ([k v'] & Heq & Hin). cbn in Heq. subst. now exists k.
  - intros (k & Hin). now exists (k, v).
Qed.

Lemma in_keys {V : Type} (d : Dict.t V) (k : Z) :
  In k (Dict.keys d) <-> exists v, In (k, v) d.
Proof.
  unfold Dict.keys. rewrite in_map_iff. split.
  - intros ([k' v] & Heq & Hin). cbn in Heq. subst. now exists v.
  - intros (v & Hin). now exists (k, v).
Qed.

Lemma in_set {V : Type} (k : Z) (v : V) (d : Dict.t V) (x : Z * V) :
  In x (Dict.set k v d) -> x = (k, v) \/ In x d.
Proof.
  induction d as [| [k' v'] tl IH]; cbn.
  - intros [<- | []]. now left.
  - destruct (Z.eqb_spec k k') as [-> | Hne]; cbn.
    + intros [<- | Hin]; [now left | right; now right].
    + intros [<- | Hin]; [right; now left |].
      destruct (IH Hin) as [-> | H]; [now left | right; now right].
Qed.

Lemma in_pop {V : Type} (k : Z) (d : Dict.t V) (x : Z * V) :
  In x (Dict.pop k d) -> In x d.
Proof.
  induction d as [| [k' v'] tl IH]; cbn; [auto |].
  destruct (k =? k'); cbn; [now right |].
  intros [<- | Hin]; [now left | right; now apply IH].
Qed.

Lemma get_in {V : Type} (k : Z) (d : Dict.t V) (v : V) :
  Dict.get k d = Some v -> In (k, v) d.
Proof.
  induction d as [| [k' v'] tl IH]; cbn; [discriminate |].
  destruct (Z.eqb_spec k k') as [-> | Hne].
  - intros H. injection H as ->. now left.
  - intros H. right. now apply IH.
Qed.

Lemma get_none {V : Type} (k : Z) (d : Dict.t V) :
  Dict.get k d = None <-> ~ In k (Dict.keys d).
Proof.
  induction d as [| [k' v'] tl IH]; cbn; [tauto |].
  destruct (Z.eqb_spec k k') as [-> | Hne].
  - split; [discriminate | intros H; exfalso; apply H; now left].
  - rewrite IH. split; [intros H [Heq | Hin]; congruence || tauto | tauto].
Qed.

(** ** Dictionaries in which no two keys share a value

    [f] selects what must differ from one entry to the other: the
    generator number of a [Generator], the sync output itself. *)

Section Unique.

Context {V : Type} (f : V -> Z).

Lemma unique_set (k : Z) (v : V) (d : Dict.t V) :
  NoDup (Dict.keys d) ->
  NoDup (map f (Dict.values d)) ->
  (forall k' v', In (k', v') d -> k' <> k -> f v' <> f v) ->
  NoDup (Dict.keys (Dict.set k v d))
  /\ NoDup (map f (Dict.values (Dict.set k v d))).
Proof.
  induction d as [| [k0 g0] tl IH]; intros Hk Hg Hfresh.
  - cbn. split; repeat constructor; auto.
  - cbn in Hk, Hg. inversion Hk as [| ? ? Hk0 Hk']; subst.
    inversion Hg as [| ? ? Hg0 Hg']; subst.
    cbn [Dict.set]. destruct (Z.eqb_spec k k0) as [-> | Hne].
    + cbn. split.
      * now constructor.
      * constructor; [| assumption].
        intros Hin. apply in_map_iff in Hin. destruct Hin as (g & Heq & Hin).
        apply in_values in Hin. destruct Hin as (k' & Hin).
        apply (Hfresh k' g); [now right | | assumption].
        intros ->. apply Hk0. apply in_keys. now exists g.
    + destruct IH as (IHk & IHg); [assumption | assumption | |].
      { intros k' g Hin. apply Hfresh. now right. }
      cbn. split.
      * constructor; [| assumption].
        intros Hin. apply in_keys in Hin. destruct Hin as (g & Hin).
        apply in_set in Hin. destruct Hin as [Heq | Hin].
        -- injection Heq as -> ->. now apply Hne.
        -- apply Hk0. apply in_keys. now exists g.
      * constructor; [| assumption].
        intros Hin. apply in_map_iff in Hin. destruct Hin as (g & Heq & Hin).
        apply in_values in Hin. destruct Hin as (k' & Hin).
        apply in_set in Hin. destruct Hin as [Hin | Hin].
        -- injection Hin as -> ->.
           apply (Hfresh k0 g0); [now left | congruence | congruence].
        -- apply Hg0. rewrite <- Heq. apply in_map. apply in_values.
           now exists k'.
Qed.

Lemma unique_pop (k : Z) (d : Dict.t V) :
  NoDup (Dict.keys d) ->
  NoDup (map f (Dict.values d)) ->
  NoDup (Dict.keys (Dict.pop k d))
  /\ NoDup (map f (Dict.values (Dict.pop k d))).
Proof.
  induction d as [| [k0 g0] tl IH]; intros Hk Hg; cbn.
  - now split.
  - cbn in Hk, Hg. inversion Hk as [| ? ? Hk0 Hk']; subst.
    inversion Hg as [| ? ? Hg0 Hg']; subst.
    destruct (k =? k0); [now split |].
    destruct IH as (IHk & IHg); [assumption | assumption |].
    cbn. split.
    + constructor; [| assumption].
      intros Hin. apply in_keys in Hin. destruct Hin as (g & Hin).
      apply in_pop in Hin. apply Hk0. apply in_keys. now exists g.
    + constructor; [| assumption].
      intros Hin. apply in_map_iff in Hin. destruct Hin as (g & Heq & Hin).
      apply in_values in Hin. destruct Hin as (k' & Hin).
      apply in_pop in Hin. apply Hg0. rewrite <- Heq. apply in_map.
      apply in_values. now exists k'.
Qed.

(** The value of a removed entry is shared by no entry left. *)
Lemma popped_value_free (k : Z) (d : Dict.t V) (old : V) :
  NoDup (map f (Dict.values d)) ->
  Dict.get k d = Some old ->
  forall k' g, In (k', g) (Dict.pop k d) -> f g <> f old.
Proof.
  induction d as [| [k0 g0] tl IH]; cbn; [discriminate |].
  intros Hg Hget k' g. inversion Hg as [| ? ? Hg0 Hg']; subst.
  destruct (k =? k0).
  - injection Hget as ->. intros Hin Heq. apply Hg0. rewrite <- Heq.
    apply in_map. apply in_values. now exists k'.
  - intros [Hin | Hin].
    + injection Hin as -> ->. intros Heq. apply Hg0. rewrite Heq.
      apply in_map. apply in_values. exists k. now apply get_in.
    + now apply (IH Hg' Hget k').
Qed.

(** Two keys never share a value. *)
Lemma distinct_values (d : Dict.t V) k1 g1 k2 g2 :
  NoDup (map f (Dict.values d)) ->
  In (k1, g1) d -> In (k2, g2) d -> k1 <> k2 -> f g1 <> f g2.
Proof.
  induction d as [| [k0 g0] tl IH]; intros Hg; [intros [] |].
  cbn in Hg. inversion Hg as [| ? ? Hg0 Hg']; subst.
  intros [H1 | H1] [H2 | H2] Hne.
  - congruence.
  - injection H1 as -> ->. intros Heq. apply Hg0. rewrite Heq.
    apply in_map. apply in_values. now exists k2.
  - injection H2 as -> ->. intros Heq. apply Hg0. rewrite <- Heq.
    apply in_map. apply in_values. now exists k1.
  - now apply IH.
Qed.

End Unique.

Lemma well_formed_set (k : Z) (v : Generator) (d : Dict.t Generator) :
  well_formed_pool d ->
  1 <= fg v <= 8 ->
  (forall k' g, In (k', g) d -> k' <> k -> fg g <> fg v) ->
  well_formed_pool (Dict.set k v d).
Proof.
  intros (Hk & Hg & Hall) Hv Hfresh.
  destruct (unique_set fg k v d Hk Hg Hfresh) as [Hk' Hg'].
  split; [exact Hk' |]. split; [exact Hg' |].
  rewrite Forall_forall in *. intros g Hin.
  apply in_values in Hin. destruct Hin as (k' & Hin).
  apply in_set in Hin. destruct Hin as [Heq | Hin].
  - now injection Heq as -> ->.
  - apply Hall. apply in_values. now exists k'.
Qed.

Lemma well_formed_pop (k : Z) (d : Dict.t Generator) :
  well_formed_pool d -> well_formed_pool (Dict.pop k d).
Proof.
  intros (Hk & Hg & Hall).
  destruct (unique_pop fg k d Hk Hg) as [Hk' Hg'].
  split; [exact Hk' |]. split; [exact Hg' |].
  rewrite Forall_forall in *. intros g Hin.
  apply in_values in Hin. destruct Hin as (k' & Hin).
  apply in_pop in Hin. apply Hall. apply in_values. now exists k'.
Qed.

Lemma fgs_spec (g : Z) : In g _fgs <-> 1 <= g <= 8.
Proof. change _fgs with [1; 2; 3; 4; 5; 6; 7; 8]. cbn [In]. lia. Qed.

(** With fewer than 8 generators held, one of the 8 is free; the one
    chosen is the lowest. *)
Lemma free_generator (used : list Z) :
  (List.length used < 8)%nat ->
  exists g,
    Py.min_int (Py.difference _fgs used) = Some g
    /\ 1 <= g <= 8 /\ ~ In g used
    /\ (forall g', 1 <= g' <= 8 -> ~ In g' used -> g <= g').
Proof.
  intros Hlen.
  destruct (Py.difference _fgs used) as [| x tl] eqn:E.
  - exfalso.
    assert (Hincl : incl _fgs used).
    { intros t Ht. destruct (in_dec Z.eq_dec t used) as [Hin | Hout];
        [assumption |].
      assert (In t (Py.difference _fgs used))
        by (apply difference_spec; now split).
      rewrite E in H. destruct H. }
    assert (Hnd : NoDup _fgs).
    { change _fgs with [1; 2; 3; 4; 5; 6; 7; 8].
      repeat constructor; cbn [In]; lia. }
    pose proof (NoDup_incl_length Hnd Hincl) as Hle.
    change _fgs with [1; 2; 3; 4; 5; 6; 7; 8] in Hle. cbn in Hle. lia.
  - destruct (Py.min_int (x :: tl)) as [t |] eqn:Hmin; [| discriminate].
    exists t. split; [reflexivity |].
    apply min_int_spec in Hmin. destruct Hmin as [Hin Hall].
    rewrite <- E in Hin, Hall. apply difference_spec in Hin.
    destruct Hin as [Ht Hfree]. apply fgs_spec in Ht.
    repeat split; try lia; try assumption.
    intros t' Ht' Hfree'. apply Hall. apply difference_spec.
    split; [now apply fgs_spec | assumption].
Qed.

Lemma values_length {V : Type} (d : Dict.t V) :
  List.length (Dict.values d) = List.length d.
Proof. apply length_map. Qed.

(** Changing the end time of a recorded generator keeps the pool well
    formed. *)
Lemma well_formed_retime (k : Z) (g : Generator) (t : Q) (d : Dict.t Generator) :
  well_formed_pool d ->
  Dict.get k d = Some g ->
  well_formed_pool (Dict.set k (with_t_end t g) d).
Proof.
  intros Hwf Hget. apply get_in in Hget. apply well_formed_set.
  - exact Hwf.
  - cbn. destruct Hwf as (_ & _ & Hall). rewrite Forall_forall in Hall.
    apply Hall. apply in_values. now exists k.
  - intros k' g' Hin Hne. cbn.
    destruct Hwf as (_ & Hg & _).
    exact (distinct_values fg d k' g' k g Hg Hin Hget Hne).
Qed.

Section PoolInvariant.

Variable float_of_str : string -> option Q.
Variable format_float : Q -> string.
Variable format_f6 : Q -> string.

(** X3.  While fewer than 8 generators are held, a request never waits
    and never fails: it hands over the lowest generator number held by
    no channel, records a generator with that number for the channel,
    and sends nothing to the instrument. *)
Theorem get_functiongenerator_lowest_free (chan : Z) (q : QDac) :
  (List.length (_assigned_fgs q) < 8)%nat ->
  exists g,
    _get_functiongenerator format_f6 chan q
    = (Ok g,
       with_assigned_fgs
         (Dict.set chan (new_Generator g) (_assigned_fgs q)) q)
    /\ 1 <= g <= 8
    /\ ~ In g (map fg (Dict.values (_assigned_fgs q)))
    /\ (forall g', 1 <= g' <= 8 ->
          ~ In g' (map fg (Dict.values (_assigned_fgs q))) -> g <= g').
Proof.
  intros Hlen.
  destruct (free_generator (map fg (Dict.values (_assigned_fgs q))))
    as (g & Hmin & Hrange & Hfree & Hlow).
  { now rewrite length_map, values_length. }
  exists g. split; [| now repeat split].
  unfold _get_functiongenerator, bind, gets.
  apply Nat.ltb_lt in Hlen. rewrite Hlen, Hmin. reflexivity.
Qed.

Lemma pool_ok_frame (q q' : QDac) :
  keeps _assigned_fgs q q' -> maintains pool_ok q q'.
Proof. unfold keeps, maintains, pool_ok. now intros ->. Qed.

Lemma keeps_pool {A : Type} (m : M QDac A) :
  preserves (keeps _assigned_fgs) m -> preserves (maintains pool_ok) m.
Proof. intros H q. apply pool_ok_frame, H. Qed.

Lemma modify_run {S : Type} (f : S -> S) (s : S) r s' :
  modify f s = (r, s') -> r = Ok tt /\ s' = f s.
Proof. unfold modify. intros H. now injection H as <- <-. Qed.

Lemma gets_run {S A : Type} (f : S -> A) (s : S) r s' :
  gets f s = (r, s') -> r = Ok (f s) /\ s' = s.
Proof. unfold gets. intros H. now injection H as <- <-. Qed.

Lemma or_raise_Raise_inv {S A : Type} e (o : option A) (s : S) e' s' :
  or_raise e o s = (Raise e', s') -> s' = s.
Proof. destruct o; cbn; intros H; [discriminate | now injection H]. Qed.

Lemma get_functiongenerator_pool (chan : Z) :
  preserves (maintains pool_ok) (_get_functiongenerator format_f6 chan).
Proof.
  intros q Hok. unfold _get_functiongenerator.
  apply snd_bind; [discriminate |]. intros assigned q0 H0.
  injection H0 as <- <-.
  destruct (List.length (_assigned_fgs q) <? 8)%nat eqn:Hlen.
  - apply snd_bind.
    { intros e s' H. apply or_raise_Raise_inv in H. now subst. }
    intros g s' H. apply or_raise_Ok_inv in H. destruct H as [Hmin ->].
    apply min_int_spec in Hmin. destruct Hmin as [Hin _].
    apply difference_spec in Hin. destruct Hin as [Hg Hfree].
    apply fgs_spec in Hg.
    cbn. apply well_formed_set; [exact Hok | exact Hg |].
    intros k' g' Hin _ Heq. cbn in Heq.
    apply Hfree. rewrite <- Heq. apply in_map. apply in_values. now exists k'.
  - apply snd_bind; [discriminate |]. intros time_now q0 H0.
    apply gets_run in H0. destruct H0 as [H0 ->]. injection H0 as ->.
    assert (Hwait :
      preserves (keeps _assigned_fgs)
        (match
           Py.min_float
             (map t_end
                (filter
                   (fun g => Py.ltb (t_end g) (clock q + fgs_timeout)%Q)
                   (Dict.values (_assigned_fgs q))))
         with
         | Some first_ready_t =>
             (if Py.ltb (clock q) first_ready_t
              then log_warning WaitingForGenerator ;;
                   time_sleep (first_ready_t - clock q)%Q
              else ret tt) ;;
             ret (map fst
                    (filter
                       (fun cg => Py.eqb (t_end (snd cg)) first_ready_t)
                       (_assigned_fgs q)))
         | None => ret []
         end)).
    { unfold log_warning.
      repeat frame_step (keeps_refl _assigned_fgs) (keeps_trans _assigned_fgs);
        [apply emit_keeps | apply time_sleep_keeps]; reflexivity. }
    assert (Hrest : forall s, pool_ok s ->
      forall available, pool_ok (snd (
        match available with
        | oldchan :: _ =>
            assigned <- gets _assigned_fgs ;;
            old <- or_raise KeyError (Dict.get oldchan assigned) ;;
            modify (fun q =>
              with_assigned_fgs (Dict.pop oldchan (_assigned_fgs q)) q) ;;
            modify (fun q =>
              with_assigned_fgs
                (Dict.set chan (new_Generator (fg old)) (_assigned_fgs q)) q) ;;
            v_set <- v_cache_get (oldchan - 1) ;;
            write (dc_command format_f6 oldchan v_set) ;;
            ret (fg old)
        | [] => raise (RuntimeError MSG_NO_GENERATOR)
        end s))).
    { intros s Hs [| oldchan rest]; [exact Hs |].
      apply snd_bind; [discriminate |]. intros d s0 H0.
      apply gets_run in H0. destruct H0 as [H0 ->]. injection H0 as ->.
      apply snd_bind.
      { intros e s' H. apply or_raise_Raise_inv in H. now subst. }
      intros old s' H. apply or_raise_Ok_inv in H. destruct H as [Hget ->].
      apply snd_bind; [intros e s' H; apply modify_run in H;
                       destruct H; discriminate |].
      intros [] s1 H1. apply modify_run in H1. destruct H1 as [_ ->].
      apply snd_bind; [intros e s' H; apply modify_run in H;
                       destruct H; discriminate |].
      intros [] s2 H2. apply modify_run in H2. destruct H2 as [_ ->].
      apply keeps_pool.
      { unfold v_cache_get.
        repeat frame_step (keeps_refl _assigned_fgs)
                          (keeps_trans _assigned_fgs);
          [apply channel_keeps
          | apply write_keeps; intros; reflexivity]. }
      unfold pool_ok. cbn.
      apply well_formed_set.
      - apply well_formed_pop. exact Hs.
      - cbn. destruct Hs as (_ & _ & Hall).
        rewrite Forall_forall in Hall. apply Hall.
        apply in_values. exists oldchan. now apply get_in.
      - intros k' g Hin _. cbn.
        destruct Hs as (_ & Hg & _).
        exact (popped_value_free fg _ _ _ Hg Hget k' g Hin). }
    apply snd_bind.
    + intros e s' H. apply (preserves_at _ _ _ _ _ Hwait) in H.
      exact (pool_ok_frame _ _ H Hok).
    + intros available s' H. apply (preserves_at _ _ _ _ _ Hwait) in H.
      apply Hrest. exact (pool_ok_frame _ _ H Hok).
Qed.

Ltac pool_step :=
  frame_step (maintains_refl pool_ok) (maintains_trans pool_ok).

Ltac pool_frame :=
  apply keeps_pool;
  first
    [ apply emit_keeps
    | apply write_keeps
    | apply ask_keeps
    | apply channel_keeps
    | apply update_channel_keeps
    | apply v_get_keeps
    | apply validate_voltages_keeps
    | apply start_voltages_keeps
    | apply configure_syncs_keeps
    | apply sync_set_keeps ];
  intros; reflexivity.

Lemma acquire_generators_pool (l : list Z) :
  preserves (maintains pool_ok) (acquire_generators format_f6 l).
Proof.
  unfold acquire_generators. repeat pool_step.
  apply get_functiongenerator_pool.
Qed.

Lemma set_end_times_pool (l : list Z) (time_end : Q) :
  preserves (maintains pool_ok) (set_end_times l time_end).
Proof.
  unfold set_end_times. pool_step.
  intros s Hs. unfold bind, gets.
  destruct (Dict.get x (_assigned_fgs s)) as [g |] eqn:E; cbn;
    [| exact Hs].
  now apply well_formed_retime.
Qed.

Lemma release_generator_pool (chan : Z) :
  preserves (maintains pool_ok) (release_generator chan).
Proof.
  intros q Hq. unfold release_generator, except_KeyError, bind, gets, modify.
  destruct (Dict.get chan (_assigned_fgs q)) as [g |] eqn:E; cbn;
    [| exact Hq].
  now apply well_formed_retime.
Qed.

Lemma program_channel_pool slow_chans fast_chans channellist
  v_startlist v_endlist step_length_ms slow_steps fast_steps trigger msg i :
  preserves (maintains pool_ok)
    (program_channel format_float slow_chans fast_chans channellist
       v_startlist v_endlist step_length_ms slow_steps fast_steps
       trigger msg i).
Proof.
  unfold program_channel, v_cache_set.
  repeat pool_step; try pool_frame; intros H; exact H.
Qed.

Lemma program_channels_pool (body : string -> nat -> M QDac string)
  (indices : list nat) :
  (forall msg i, preserves (maintains pool_ok) (body msg i)) ->
  forall msg, preserves (maintains pool_ok) (program_channels body indices msg).
Proof.
  intros Hbody. induction indices as [| i rest IH]; intros msg;
    cbn [program_channels].
  - pool_step.
  - pool_step; [apply Hbody | apply IH].
Qed.

Lemma ramp_voltages_2d_pool slow_chans slow_vstart slow_vend
  fast_chans fast_vstart fast_vend step_length slow_steps fast_steps :
  preserves (maintains pool_ok)
    (ramp_voltages_2d float_of_str format_float format_f6
       slow_chans slow_vstart slow_vend fast_chans fast_vstart fast_vend
       step_length slow_steps fast_steps).
Proof.
  unfold ramp_voltages_2d, log_warning, find_trigger, time_time.
  repeat pool_step;
    try pool_frame;
    try apply acquire_generators_pool;
    try apply set_end_times_pool;
    apply program_channels_pool; intros; apply program_channel_pool.
Qed.

Lemma ramp_voltages_pool channellist v_startlist v_endlist ramptime :
  preserves (maintains pool_ok)
    (ramp_voltages float_of_str format_float format_f6
       channellist v_startlist v_endlist ramptime).
Proof.
  unfold ramp_voltages, log_warning.
  repeat pool_step; try pool_frame; apply ramp_voltages_2d_pool.
Qed.

Lemma setslope_pool chan slope :
  preserves (maintains pool_ok) (_setslope float_of_str format_f6 chan slope).
Proof.
  unfold _setslope.
  repeat pool_step; try pool_frame;
    try apply release_generator_pool; intros H; exact H.
Qed.

Lemma set_voltage_pool chan v_set :
  preserves (maintains pool_ok)
    (_set_voltage float_of_str format_float format_f6 chan v_set).
Proof.
  unfold _set_voltage.
  repeat pool_step; try pool_frame; apply ramp_voltages_pool.
Qed.

(** X4.  The generator pool stays well formed -- no channel listed
    twice, no generator held by two channels, generator numbers within
    1..8 -- through every method that touches it, whether the method
    returns or raises: [_get_functiongenerator], [ramp_voltages_2d],
    [ramp_voltages], [_set_voltage] and [_setslope]. *)
Theorem generator_pool_invariant (q : QDac) :
  pool_ok q ->
  (forall chan,
     pool_ok (snd (_get_functiongenerator format_f6 chan q)))
  /\ (forall slow_chans slow_vstart slow_vend fast_chans fast_vstart
             fast_vend step_length slow_steps fast_steps,
        pool_ok (snd (ramp_voltages_2d float_of_str format_float format_f6
                        slow_chans slow_vstart slow_vend
                        fast_chans fast_vstart fast_vend
                        step_length slow_steps fast_steps q)))
  /\ (forall channellist v_startlist v_endlist ramptime,
        pool_ok (snd (ramp_voltages float_of_str format_float format_f6
                        channellist v_startlist v_endlist ramptime q)))
  /\ (forall chan v_set,
        pool_ok (snd (_set_voltage float_of_str format_float format_f6
                        chan v_set q)))
  /\ (forall chan slope,
        pool_ok (snd (_setslope float_of_str format_f6 chan slope q))).
Proof.
  intros Hq. split; [| split; [| split; [| split]]]; intros.
  - now apply get_functiongenerator_pool.
  - now apply ramp_voltages_2d_pool.
  - now apply ramp_voltages_pool.
  - now apply set_voltage_pool.
  - now apply setslope_pool.
Qed.

End PoolInvariant.

Lemma fold_qmin_spec (l : list Q) :
  forall x,
    (fold_left Py.qmin l x = x \/ In (fold_left Py.qmin l x) l)
    /\ (fold_left Py.qmin l x <= x)%Q
    /\ (forall y, In y l -> (fold_left Py.qmin l x <= y)%Q).
Proof.
  induction l as [| a tl IH]; intros x; cbn [fold_left].
  - split; [now left |]. split; [apply Qle_refl | intros y []].
  - destruct (IH (Py.qmin x a)) as (Hin & Hle & Hall).
    assert (Hmin : (Py.qmin x a <= x)%Q /\ (Py.qmin x a <= a)%Q
                   /\ (Py.qmin x a = x \/ Py.qmin x a = a)).
    { unfold Py.qmin. destruct (Qle_bool x a) eqn:E.
      - apply Qle_bool_iff in E. split; [apply Qle_refl |]. split; auto.
      - assert (~ (x <= a)%Q) by (intros H; apply Qle_bool_iff in H; congruence).
        split; [lra |]. split; [apply Qle_refl | auto]. }
    destruct Hmin as (Hx & Ha & Hor). split; [| split].
    + destruct Hin as [Heq | Hin].
      * rewrite Heq. destruct Hor as [-> | ->]; [now left | right; now left].
      * right. now right.
    + lra.
    + intros y [<- | Hy]; [lra | now apply Hall].
Qed.

Lemma min_float_spec (l : list Q) (m : Q) :
  Py.min_float l = Some m -> In m l /\ (forall y, In y l -> (m <= y)%Q).
Proof.
  destruct l as [| x tl]; [discriminate |]. cbn. intros H. injection H as <-.
  destruct (fold_qmin_spec tl x) as (Hin & Hle & Hall). split.
  - destruct Hin as [-> | Hin]; [now left | now right].
  - intros y [<- | Hy]; [exact Hle | now apply Hall].
Qed.

Lemma get_of_in {V : Type} (k : Z) (v : V) (d : Dict.t V) :
  NoDup (Dict.keys d) -> In (k, v) d -> Dict.get k d = Some v.
Proof.
  induction d as [| [k0 v0] tl IH]; cbn; [intros _ [] |].
  intros Hk. inversion Hk as [| ? ? Hk0 Hk']; subst.
  intros [Heq | Hin].
  - injection Heq as -> ->. now rewrite Z.eqb_refl.
  - destruct (Z.eqb_spec k k0) as [-> | Hne]; [| now apply IH].
    exfalso. apply Hk0. apply in_keys. now exists v.
Qed.

Section ReclaimFacts.

Variable format_f6 : Q -> string.

(** X5.  With all generators held, a request that returns has taken
    over the generator whose ramp ends first among those ending within
    [fgs_timeout] of the present time: if that end lies ahead it has
    warned and slept exactly until then; the channel that held the
    generator has lost its entry and been put in DC mode at its cached
    voltage; the requesting channel holds a new generator of the same
    number. *)
Theorem get_functiongenerator_reclaims (chan : Z) (q : QDac) (g : Z)
  (q' : QDac) :
  pool_ok q ->
  (8 <= List.length (_assigned_fgs q))%nat ->
  _get_functiongenerator format_f6 chan q = (Ok g, q') ->
  exists oldchan old c waited,
    Dict.get oldchan (_assigned_fgs q) = Some old
    /\ g = fg old
    /\ (t_end old < clock q + fgs_timeout)%Q
    /\ (forall k' g', In (k', g') (_assigned_fgs q) ->
          (t_end g' < clock q + fgs_timeout)%Q -> (t_end old <= t_end g')%Q)
    /\ Py.getitem (channels q) (oldchan - 1) = Some c
    /\ _assigned_fgs q'
       = Dict.set chan (new_Generator g) (Dict.pop oldchan (_assigned_fgs q))
    /\ trace q'
       = trace q ++ waited
         ++ [Written (dc_command format_f6 oldchan (v_cache c))]
    /\ (if Py.ltb (clock q) (t_end old)
        then (clock q' == t_end old)%Q
             /\ exists d, (d == t_end old - clock q)%Q
                  /\ waited = [Warned WaitingForGenerator; Slept d]
        else clock q' = clock q /\ waited = []).
Proof.
  intros Hok Hlen H. unfold _get_functiongenerator, time_time in H.
  apply bind_Ok_inv in H. destruct H as (assigned & s0 & H0 & H).
  apply gets_run in H0. destruct H0 as [H0 ->]. injection H0 as ->.
  assert (Hfull : (List.length (_assigned_fgs q) <? 8)%nat = false)
    by (apply Nat.ltb_ge; exact Hlen).
  rewrite Hfull in H.
  apply bind_Ok_inv in H. destruct H as (time_now & s0 & H0 & H).
  apply gets_run in H0. destruct H0 as [H0 ->]. injection H0 as ->.
  apply bind_Ok_inv in H. destruct H as (available & s1 & Hwait & H).
  destruct available as [| oldchan rest]; [discriminate |].
  destruct (Py.min_float _) as [t |] eqn:Hmin in Hwait;
    [| discriminate].
  apply min_float_spec in Hmin. destruct Hmin as [Ht Hleast].
  apply in_map_iff in Ht. destruct Ht as (gm & Hgm & Ht).
  apply filter_In in Ht. destruct Ht as [_ Hsoon].
  apply ltb_true_iff in Hsoon. rewrite Hgm in Hsoon.
  apply bind_Ok_inv in Hwait. destruct Hwait as (u & s2 & Hsleep & Hav).
  unfold ret in Hav. injection Hav as Hav <-.
  (* the displaced channel is the first whose generator ends at [t] *)
  assert (Hfirst : exists old,
             In (oldchan, old) (_assigned_fgs q)
             /\ (t_end old == t)%Q).
  { assert (Hin : In oldchan
                    (map fst
                       (filter (fun cg => Py.eqb (t_end (snd cg)) t)
                          (_assigned_fgs q))))
      by (rewrite Hav; now left).
    apply in_map_iff in Hin. destruct Hin as ([k old] & Hk & Hin).
    cbn in Hk. subst k. apply filter_In in Hin. destruct Hin as [Hin He].
    exists old. split; [exact Hin |]. now apply Qeq_bool_iff in He. }
  destruct Hfirst as (old & Hin & Hend).
  assert (Hget : Dict.get oldchan (_assigned_fgs q) = Some old)
    by (apply get_of_in; [apply Hok | exact Hin]).
  (* the state after the wait *)
  assert (Hs2 :
    _assigned_fgs s2 = _assigned_fgs q /\ channels s2 = channels q
    /\ exists waited,
         trace s2 = trace q ++ waited
         /\ (if Py.ltb (clock q) t
             then (clock s2 == t)%Q
                  /\ exists d, (d == t - clock q)%Q
                       /\ waited = [Warned WaitingForGenerator; Slept d]
             else clock s2 = clock q /\ waited = [])).
  { destruct (Py.ltb (clock q) t).
    - unfold log_warning, time_sleep, emit, bind, modify in Hsleep.
      injection Hsleep as _ <-. cbn. split; [reflexivity |].
      split; [reflexivity |].
      exists [Warned WaitingForGenerator; Slept (t - clock q)%Q].
      split; [now rewrite <- app_assoc |].
      split; [lra |]. exists (t - clock q)%Q. split; [lra | reflexivity].
    - unfold ret in Hsleep. injection Hsleep as _ <-.
      split; [reflexivity |]. split; [reflexivity |].
      exists []. split; [now rewrite app_nil_r |]. now split. }
  destruct Hs2 as (Hfgs2 & Hch2 & waited & Htr2 & Hclock2).
  apply bind_Ok_inv in H. destruct H as (d & s3 & H0 & H).
  apply gets_run in H0. destruct H0 as [H0 ->]. injection H0 as ->.
  apply bind_Ok_inv in H. destruct H as (old' & s3 & H0 & H).
  apply or_raise_Ok_inv in H0. destruct H0 as [Hget' ->].
  rewrite Hfgs2, Hget in Hget'. injection Hget' as <-.
  apply bind_Ok_inv in H. destruct H as (u1 & s3 & H0 & H).
  apply modify_run in H0. destruct H0 as [_ ->].
  apply bind_Ok_inv in H. destruct H as (u2 & s4 & H0 & H).
  apply modify_run in H0. destruct H0 as [_ ->].
  apply bind_Ok_inv in H. destruct H as (v_set & s5 & Hcache & H).
  unfold v_cache_get in Hcache.
  apply bind_Ok_inv in Hcache. destruct Hcache as (c & s6 & Hc & Hret).
  unfold channel in Hc.
  apply bind_Ok_inv in Hc. destruct Hc as (chs & s7 & H0 & Hc).
  apply gets_run in H0. destruct H0 as [H0 ->]. injection H0 as ->.
  apply or_raise_Ok_inv in Hc. destruct Hc as [Hc ->].
  unfold ret in Hret. injection Hret as <- <-.
  apply bind_Ok_inv in H. destruct H as (u3 & s8 & Hw & Hret).
  unfold ret in Hret. injection Hret as <- <-.
  destruct u3. apply write_Ok_inv in Hw. destruct Hw as [Htr Hset].
  apply settings_inv in Hset.
  destruct Hset as (_ & _ & _ & _ & _ & Hfgs & _ & _ & _ & Hclock).
  cbn in Hc, Htr, Hfgs, Hclock. rewrite Hch2 in Hc. rewrite Hfgs2 in Hfgs.
  exists oldchan, old, c, waited.
  split; [exact Hget |]. split; [reflexivity |].
  split; [lra |].
  split.
  { intros k' g' Hin' Hsoon'.
    assert (t <= t_end g')%Q; [| lra].
    apply Hleast. apply in_map. apply filter_In. split.
    - apply in_values. now exists k'.
    - now apply ltb_true_iff. }
  split; [exact Hc |]. split; [exact Hfgs |].
  split; [rewrite Htr, Htr2, <- app_assoc; reflexivity |].
  rewrite Hclock.
  assert (Hsame : Py.ltb (clock q) (t_end old) = Py.ltb (clock q) t).
  { destruct (Py.ltb (clock q) t) eqn:E.
    - apply ltb_true_iff in E. apply ltb_true_iff. lra.
    - apply ltb_false_iff in E. apply ltb_false_iff. lra. }
  rewrite Hsame. destruct (Py.ltb (clock q) t).
  - destruct Hclock2 as (Hcl & dd & Hd & Hw). split; [lra |].
    exists dd. split; [lra | exact Hw].
  - exact Hclock2.
Qed.

End ReclaimFacts.

(** Generators 1 to 3 are held: the next request gets generator 4. *)
Lemma get_functiongenerator_lowest_free_witness :
  exists g,
    _get_functiongenerator Text.format_f6 9 (busy_qdac 24 1000 [] 3 0)
    = (Ok g,
       with_assigned_fgs
         (Dict.set 9 (new_Generator g)
            (_assigned_fgs (busy_qdac 24 1000 [] 3 0)))
         (busy_qdac 24 1000 [] 3 0))
    /\ 1 <= g <= 8
    /\ ~ In g (map fg (Dict.values (_assigned_fgs (busy_qdac 24 1000 [] 3 0))))
    /\ (forall g', 1 <= g' <= 8 ->
          ~ In g' (map fg (Dict.values
                             (_assigned_fgs (busy_qdac 24 1000 [] 3 0)))) ->
          g <= g').
Proof.
  apply (get_functiongenerator_lowest_free Text.format_f6 9
           (busy_qdac 24 1000 [] 3 0)).
  vm_compute. lia.
Defined.

Lemma idle_full_pool_ok : pool_ok idle_full_qdac.
Proof.
  unfold pool_ok, well_formed_pool.
  change (Dict.keys (_assigned_fgs idle_full_qdac))
    with [1; 2; 3; 4; 5; 6; 7; 8].
  change (map fg (Dict.values (_assigned_fgs idle_full_qdac)))
    with [1; 2; 3; 4; 5; 6; 7; 8].
  split; [| split].
  - repeat constructor; cbn [In]; lia.
  - repeat constructor; cbn [In]; lia.
  - vm_compute. repeat constructor; discriminate.
Qed.

(** A ninth channel ramped on an instrument whose 8 generators are all
    held. *)
Lemma generator_pool_invariant_witness :
  pool_ok
    (snd (ramp_voltages Text.parse_float Text.format_float Text.format_f6
            [9] [0%Q] [1 # 2] (1 # 100) idle_full_qdac)).
Proof.
  apply (generator_pool_invariant Text.parse_float Text.format_float
           Text.format_f6 idle_full_qdac idle_full_pool_ok).
Defined.

(** All 8 generators ended long ago: channel 9 takes over generator 1
    from channel 1 without waiting. *)
Lemma get_functiongenerator_reclaims_witness :
  exists oldchan old c waited,
    Dict.get oldchan (_assigned_fgs idle_full_qdac) = Some old
    /\ 1 = fg old
    /\ (t_end old < clock idle_full_qdac + fgs_timeout)%Q
    /\ (forall k' g', In (k', g') (_assigned_fgs idle_full_qdac) ->
          (t_end g' < clock idle_full_qdac + fgs_timeout)%Q ->
          (t_end old <= t_end g')%Q)
    /\ Py.getitem (channels idle_full_qdac) (oldchan - 1) = Some c
    /\ _assigned_fgs
         (snd (_get_functiongenerator Text.format_f6 9 idle_full_qdac))
       = Dict.set 9 (new_Generator 1)
           (Dict.pop oldchan (_assigned_fgs idle_full_qdac))
    /\ trace (snd (_get_functiongenerator Text.format_f6 9 idle_full_qdac))
       = trace idle_full_qdac ++ waited
         ++ [Written (dc_command Text.format_f6 oldchan (v_cache c))]
    /\ (if Py.ltb (clock idle_full_qdac) (t_end old)
        then (clock (snd (_get_functiongenerator Text.format_f6 9
                            idle_full_qdac)) == t_end old)%Q
             /\ exists d, (d == t_end old - clock idle_full_qdac)%Q
                  /\ waited = [Warned WaitingForGenerator; Slept d]
        else clock (snd (_get_functiongenerator Text.format_f6 9
                           idle_full_qdac))
             = clock idle_full_qdac /\ waited = []).
Proof.
  apply (get_functiongenerator_reclaims Text.format_f6 9 idle_full_qdac 1
           (snd (_get_functiongenerator Text.format_f6 9 idle_full_qdac))).
  - exact idle_full_pool_ok.
  - vm_compute. lia.
  - vm_compute. reflexivity.
Defined.

(* ===================================================================== *)
(** * Sync outputs and slopes                                              *)
(* ===================================================================== *)

Lemma get_pop_same {V : Type} (k : Z) (d : Dict.t V) :
  NoDup (Dict.keys d) -> Dict.get k (Dict.pop k d) = None.
Proof.
  induction d as [| [k0 v0] tl IH]; cbn; [reflexivity |].
  intros Hk. inversion Hk as [| ? ? Hk0 Hk']; subst.
  destruct (Z.eqb_spec k k0) as [-> | Hne].
  - now apply get_none.
  - cbn. destruct (Z.eqb_spec k k0); [contradiction | now apply IH].
Qed.

Lemma get_pop_other {V : Type} (k k' : Z) (d : Dict.t V) :
  k <> k' -> Dict.get k' (Dict.pop k d) = Dict.get k' d.
Proof.
  intros Hne. induction d as [| [k0 v0] tl IH]; cbn; [reflexivity |].
  destruct (Z.eqb_spec k k0) as [-> | Hne0].
  - destruct (Z.eqb_spec k' k0); [congruence | reflexivity].
  - cbn. now rewrite IH.
Qed.

Lemma raise_if_Raise_inv {S : Type} c e (s : S) e' s' :
  raise_if c e s = (Raise e', s') -> c = true /\ e' = e /\ s' = s.
Proof.
  destruct c; cbn; intros H; [| discriminate].
  injection H as <- <-. auto.
Qed.

Lemma bind_run {S A B : Type} (m : M S A) (k : A -> M S B) s r s' :
  bind m k s = (r, s') ->
  (exists e, m s = (Raise e, s') /\ r = Raise e)
  \/ (exists a s1, m s = (Ok a, s1) /\ k a s1 = (r, s')).
Proof.
  unfold bind. destruct (m s) as [[a | e] s1]; intros H.
  - right. now exists a, s1.
  - left. exists e. now injection H as <- <-.
Qed.

Lemma channel_run (i : Z) (q : QDac) r q' :
  channel i q = (r, q') ->
  q' = q
  /\ match r with
     | Ok c => Py.getitem (channels q) i = Some c
     | Raise e => Py.getitem (channels q) i = None /\ e = IndexError
     end.
Proof.
  unfold channel, bind, gets.
  destruct (Py.getitem (channels q) i); cbn; intros H;
    injection H as <- <-; auto.
Qed.

Lemma sync_cache_get_syncs (i : Z) (q : QDac) r q' :
  sync_cache_get i q = (r, q') -> _syncoutputs q' = _syncoutputs q.
Proof.
  intros H.
  apply (preserves_at (keeps _syncoutputs) (sync_cache_get i) q r q');
    [| exact H].
  apply sync_cache_get_keeps; intros; reflexivity.
Qed.

Lemma syncs_ok_frame (q q' : QDac) :
  keeps _syncoutputs q q' -> maintains syncs_ok q q'.
Proof. unfold keeps, maintains, syncs_ok. now intros ->. Qed.

Lemma write_syncs (cmd : string) (q : QDac) r q' :
  write cmd q = (r, q') -> _syncoutputs q' = _syncoutputs q.
Proof.
  intros H.
  apply (preserves_at (keeps _syncoutputs) (write cmd) q r q');
    [| exact H].
  apply write_keeps; intros; reflexivity.
Qed.

Lemma syncs_pop (k : Z) (d : Dict.t Z) :
  NoDup (Dict.keys d) /\ NoDup (Dict.values d) ->
  NoDup (Dict.keys (Dict.pop k d)) /\ NoDup (Dict.values (Dict.pop k d)).
Proof.
  intros [Hk Hv]. rewrite <- (map_id (Dict.values d)) in Hv.
  destruct (unique_pop (fun s => s) k d Hk Hv) as [Hk' Hv'].
  now rewrite map_id in Hv'.
Qed.

Lemma syncs_set (k v : Z) (d : Dict.t Z) :
  NoDup (Dict.keys d) /\ NoDup (Dict.values d) ->
  (forall k' v', In (k', v') d -> k' <> k -> v' <> v) ->
  NoDup (Dict.keys (Dict.set k v d))
  /\ NoDup (Dict.values (Dict.set k v d)).
Proof.
  intros [Hk Hv] Hfresh. rewrite <- (map_id (Dict.values d)) in Hv.
  destruct (unique_set (fun s => s) k v d Hk Hv Hfresh) as [Hk' Hv'].
  now rewrite map_id in Hv'.
Qed.

(** The part of [_setsync] that clears the hardware before a sync
    output is recorded for [chan]: what it leaves of [_syncoutputs]. *)
Lemma setsync_clearing (chan sync : Z) (q : QDac) r s :
  (if Dict.mem chan (_syncoutputs q) then
     oldsync <- sync_cache_get (chan - 1) ;;
     match oldsync with
     | Some o =>
         if sync =? o then ret tt
         else write ("syn " ++ Py.str_opt oldsync ++ " 0 0 0")
     | None => write ("syn " ++ Py.str_opt oldsync ++ " 0 0 0")
     end
   else if existsb (Z.eqb sync) (Dict.values (_syncoutputs q)) then
     let oldchan :=
       map fst (filter (fun cs => snd cs =? sync) (_syncoutputs q)) in
     first <- or_raise IndexError (nth_error oldchan 0) ;;
     modify (fun q => with_syncoutputs (Dict.pop first (_syncoutputs q)) q) ;;
     write ("syn " ++ Py.str sync ++ " 0 0 0")
   else ret tt) q = (r, s) ->
  (Dict.mem chan (_syncoutputs q) = true
   /\ _syncoutputs s = _syncoutputs q)
  \/ (Dict.mem chan (_syncoutputs q) = false
      /\ exists first,
           In (first, sync) (_syncoutputs q)
           /\ _syncoutputs s = Dict.pop first (_syncoutputs q))
  \/ (Dict.mem chan (_syncoutputs q) = false
      /\ existsb (Z.eqb sync) (Dict.values (_syncoutputs q)) = false
      /\ _syncoutputs s = _syncoutputs q).
Proof.
  destruct (Dict.mem chan (_syncoutputs q)) eqn:Hmem.
  - intros H. left. split; [reflexivity |].
    apply bind_run in H.
    destruct H as [(e & H0 & _) | (oldsync & s1 & H0 & H)];
      apply sync_cache_get_syncs in H0; [exact H0 |].
    rewrite <- H0.
    destruct oldsync as [o |]; [destruct (sync =? o) |];
      try (now apply write_syncs in H).
    now injection H as _ <-.
  - destruct (existsb (Z.eqb sync) (Dict.values (_syncoutputs q))) eqn:Hex.
    + intros H. right. left. split; [reflexivity |].
      cbv zeta in H.
      destruct (filter (fun cs => snd cs =? sync) (_syncoutputs q))
        as [| [first v] rest] eqn:Hf.
      * exfalso. apply existsb_exists in Hex. destruct Hex as (v & Hin & Hv).
        apply Z.eqb_eq in Hv. subst v.
        apply in_values in Hin. destruct Hin as (k & Hin).
        assert (In (k, sync) (filter (fun cs => snd cs =? sync)
                                (_syncoutputs q)))
          by (apply filter_In; split; [assumption | apply Z.eqb_refl]).
        rewrite Hf in H0. destruct H0.
      * assert (Hin : In (first, v)
                        (filter (fun cs => snd cs =? sync) (_syncoutputs q)))
          by (rewrite Hf; now left).
        apply filter_In in Hin. destruct Hin as [Hin Hv].
        apply Z.eqb_eq in Hv. cbn in Hv. subst v.
        exists first. split; [exact Hin |].
        apply bind_run in H.
        destruct H as [(e & H0 & _) | (first' & s1 & H0 & H)];
          [discriminate |].
        injection H0 as <- <-.
        apply bind_run in H.
        destruct H as [(e & H0 & _) | (u & s1 & H0 & H)];
          [discriminate |].
        apply modify_run in H0. destruct H0 as [_ ->].
        now apply write_syncs in H.
    + intros H. right. right. split; [reflexivity |].
      split; [reflexivity |]. now injection H as _ <-.
Qed.

(** X6.  A channel number outside [1..num_chans] is refused by
    [_setsync] and by [_setslope] with a [ValueError] naming the number
    of channels, before anything is sent or recorded. *)
Theorem channel_number_checked (float_of_str : string -> option Q)
  (format_f6 : Q -> string) (chan : Z) (q : QDac) :
  Py.in_range 1 (num_chans q + 1) chan = false ->
  (forall sync,
     _setsync chan sync q
     = (Raise (ValueError (MSG_CHANNEL_NUMBER (num_chans q))), q))
  /\ (forall slope,
        _setslope float_of_str format_f6 chan slope q
        = (Raise (ValueError (MSG_CHANNEL_NUMBER (num_chans q))), q)).
Proof.
  intros H. split; intros; unfold _setsync, _setslope, bind, gets;
    rewrite H; reflexivity.
Qed.

Lemma channel_number_checked_witness :
  _setsync 25 1 (fresh_qdac 24 1000 [])
  = (Raise (ValueError (MSG_CHANNEL_NUMBER 24)), fresh_qdac 24 1000 []).
Proof.
  apply (channel_number_checked Text.parse_float Text.format_f6 25
           (fresh_qdac 24 1000 [])).
  reflexivity.
Defined.

Lemma setsync_Ok (chan sync : Z) (q q' : QDac) :
  _setsync chan sync q = (Ok tt, q') ->
  Py.in_range 1 (num_chans q + 1) chan = true
  /\ ((sync = 0 /\ _syncoutputs q' = Dict.pop chan (_syncoutputs q))
      \/ (sync <> 0 /\ Dict.mem chan (_syncoutputs q) = true
          /\ _syncoutputs q' = Dict.set chan sync (_syncoutputs q))
      \/ (sync <> 0 /\ Dict.mem chan (_syncoutputs q) = false
          /\ exists first,
               In (first, sync) (_syncoutputs q)
               /\ _syncoutputs q'
                  = Dict.set chan sync (Dict.pop first (_syncoutputs q)))
      \/ (sync <> 0 /\ Dict.mem chan (_syncoutputs q) = false
          /\ existsb (Z.eqb sync) (Dict.values (_syncoutputs q)) = false
          /\ _syncoutputs q' = Dict.set chan sync (_syncoutputs q))).
Proof.
  intros H. unfold _setsync in H.
  apply bind_Ok_inv in H. destruct H as (n & s0 & H0 & H).
  apply gets_run in H0. destruct H0 as [H0 ->]. injection H0 as ->.
  apply bind_Ok_inv in H. destruct H as (u & s0 & H0 & H).
  apply raise_if_Ok_inv in H0. destruct H0 as [Hrange ->].
  apply negb_false_iff in Hrange. split; [exact Hrange |].
  destruct (Z.eqb_spec sync 0) as [-> | Hnz].
  - left. split; [reflexivity |].
    apply bind_Ok_inv in H. destruct H as (oldsync & s0 & H0 & H).
    apply sync_cache_get_syncs in H0. rewrite <- H0.
    apply bind_Ok_inv in H. destruct H as (u1 & s1 & H1 & H).
    apply modify_run in H1. destruct H1 as [_ ->].
    destruct oldsync.
    + now apply write_syncs in H.
    + now injection H as <-.
  - right.
    apply bind_Ok_inv in H. destruct H as (syncs & s0 & H0 & H).
    apply gets_run in H0. destruct H0 as [H0 ->]. injection H0 as ->.
    apply bind_Ok_inv in H. destruct H as (u1 & s1 & Hclear & H).
    apply modify_run in H. destruct H as [_ ->]. cbn.
    apply setsync_clearing in Hclear.
    destruct Hclear as [[Hmem ->] | [(Hmem & first & Hin & ->)
                                    | (Hmem & Hex & ->)]].
    + left. auto.
    + right. left. split; [exact Hnz |]. split; [exact Hmem |].
      exists first. auto.
    + right. right. auto.
Qed.

(** X7.  After [_setsync chan sync] has returned, [_getsync chan]
    answers [sync] (0 once the output is unassigned), and every other
    channel answers as before, except a previous owner of [sync] that
    was evicted and now answers 0. *)
Theorem setsync_then_getsync (chan sync : Z) (q q' : QDac) :
  NoDup (Dict.keys (_syncoutputs q)) ->
  _setsync chan sync q = (Ok tt, q') ->
  _getsync chan q' = (Ok sync, q')
  /\ (forall other, other <> chan ->
        _getsync other q' = (fst (_getsync other q), q')
        \/ (_getsync other q = (Ok sync, q)
            /\ _getsync other q' = (Ok 0, q'))).
Proof.
  intros Hk H. apply setsync_Ok in H. destruct H as [_ H].
  unfold _getsync, bind, gets, ret. cbn [fst].
  destruct H as [[-> ->] | [(Hnz & Hmem & ->) | [(Hnz & Hmem & first & Hin & ->)
                                             | (Hnz & Hmem & Hex & ->)]]].
  - split.
    + now rewrite get_pop_same.
    + intros other Hne. left. now rewrite get_pop_other by congruence.
  - split.
    + now rewrite get_set_same.
    + intros other Hne. left. now rewrite get_set_other by congruence.
  - split.
    + now rewrite get_set_same.
    + intros other Hne. rewrite get_set_other by congruence.
      destruct (Z.eq_dec other first) as [-> | Hne'].
      * right. rewrite (get_of_in _ _ _ Hk Hin), get_pop_same by exact Hk.
        auto.
      * left. now rewrite get_pop_other by congruence.
  - split.
    + now rewrite get_set_same.
    + intros other Hne. left. now rewrite get_set_other by congruence.
Qed.

(** Channel 3 takes sync output 1 over from channel 1. *)
Lemma setsync_then_getsync_witness :
  _getsync 3 (snd (_setsync 3 1 synced_qdac))
  = (Ok 1, snd (_setsync 3 1 synced_qdac))
  /\ (forall other, other <> 3 ->
        _getsync other (snd (_setsync 3 1 synced_qdac))
        = (fst (_getsync other synced_qdac), snd (_setsync 3 1 synced_qdac))
        \/ (_getsync other synced_qdac = (Ok 1, synced_qdac)
            /\ _getsync other (snd (_setsync 3 1 synced_qdac))
               = (Ok 0, snd (_setsync 3 1 synced_qdac)))).
Proof.
  apply (setsync_then_getsync 3 1 synced_qdac
           (snd (_setsync 3 1 synced_qdac))).
  - vm_compute. repeat constructor; cbn [In]; lia.
  - reflexivity.
Defined.

(** X8.  No sync output is ever recorded for two channels, as long as
    [_setsync] is used to unassign, to give an output to a channel that
    owns none, or to move a channel to an output no other channel
    owns -- whether the call returns or raises. *)
Theorem setsync_outputs_unique (chan sync : Z) (q : QDac) :
  syncs_ok q ->
  (sync = 0
   \/ Dict.mem chan (_syncoutputs q) = false
   \/ (forall other v, In (other, v) (_syncoutputs q) ->
         other <> chan -> v <> sync)) ->
  syncs_ok (snd (_setsync chan sync q)).
Proof.
  intros Hok Hpre. unfold _setsync.
  apply snd_bind; [discriminate |]. intros n s0 H0.
  apply gets_run in H0. destruct H0 as [H0 ->]. injection H0 as ->.
  apply snd_bind.
  { intros e s' H. apply raise_if_Raise_inv in H. now destruct H as (_ & _ & ->). }
  intros u s0 H0. apply raise_if_Ok_inv in H0. destruct H0 as [_ ->].
  destruct (Z.eqb_spec sync 0) as [-> | Hnz].
  - apply snd_bind.
    { intros e s' H. apply sync_cache_get_syncs in H.
      unfold syncs_ok. now rewrite H. }
    intros oldsync s0 H0. apply sync_cache_get_syncs in H0.
    assert (Hok0 : syncs_ok s0) by (unfold syncs_ok; now rewrite H0).
    apply snd_bind; [intros e s' H; apply modify_run in H;
                     destruct H; discriminate |].
    intros [] s1 H1. apply modify_run in H1. destruct H1 as [_ ->].
    assert (Hw : preserves (keeps _syncoutputs)
                   (match oldsync with
                    | Some _ => write ("syn " ++ Py.str_opt oldsync ++ " 0 0 0")
                    | None => ret tt
                    end)).
    { destruct oldsync; [apply write_keeps; intros; reflexivity |].
      apply preserves_ret. apply keeps_refl. }
    apply (syncs_ok_frame _ _ (Hw _)). now apply syncs_pop.
  - apply snd_bind; [discriminate |]. intros syncs s0 H0.
    apply gets_run in H0. destruct H0 as [H0 ->]. injection H0 as ->.
    apply snd_bind.
    + intros e s' H. apply setsync_clearing in H.
      destruct H as [[_ Hs] | [(_ & first & _ & Hs) | (_ & _ & Hs)]];
        unfold syncs_ok; rewrite Hs; [exact Hok | | exact Hok].
      now apply syncs_pop.
    + intros u1 s1 H. apply setsync_clearing in H. cbn.
      destruct H as [[Hmem Hs] | [(Hmem & first & Hin & Hs) | (_ & Hex & Hs)]];
        unfold syncs_ok; cbn; rewrite Hs.
      * apply syncs_set; [exact Hok |].
        destruct Hpre as [Hz | [Hm | Hfree]]; [contradiction | congruence |].
        exact Hfree.
      * apply syncs_set; [now apply syncs_pop |].
        intros k' v' Hin' _. destruct Hok as [Hk Hv].
        rewrite <- (map_id (Dict.values (_syncoutputs q))) in Hv.
        exact (popped_value_free (fun s => s) first (_syncoutputs q) sync
                 Hv (get_of_in _ _ _ Hk Hin) k' v' Hin').
      * apply syncs_set; [exact Hok |].
        intros k' v' Hin' _ ->.
        assert (existsb (Z.eqb sync) (Dict.values (_syncoutputs q)) = true);
          [| congruence].
        apply existsb_exists. exists sync. split; [| apply Z.eqb_refl].
        apply in_values. now exists k'.
Qed.

Lemma setsync_outputs_unique_witness :
  syncs_ok (snd (_setsync 3 1 synced_qdac)).
Proof.
  apply (setsync_outputs_unique 3 1 synced_qdac).
  - split; vm_compute; repeat constructor; cbn [In]; lia.
  - right. left. reflexivity.
Defined.

(** X9.  Moving a channel that already owns a sync output to an output
    owned by another channel does not evict that owner: once the call
    has returned, both channels are recorded on the same output. *)
Theorem setsync_shares_output (chan other sync : Z) (q q' : QDac) :
  sync <> 0 ->
  Dict.mem chan (_syncoutputs q) = true ->
  other <> chan ->
  Dict.get other (_syncoutputs q) = Some sync ->
  _setsync chan sync q = (Ok tt, q') ->
  _getsync chan q' = (Ok sync, q')
  /\ _getsync other q' = (Ok sync, q')
  /\ ~ syncs_ok q'.
Proof.
  intros Hnz Hmem Hne Hother H. apply setsync_Ok in H. destruct H as [_ H].
  assert (Hs : _syncoutputs q' = Dict.set chan sync (_syncoutputs q)).
  { destruct H as [[-> _] | [(_ & _ & Hs) | [(_ & Hm & _) | (_ & Hm & _)]]];
      [contradiction | exact Hs | congruence | congruence]. }
  assert (Hc : Dict.get chan (_syncoutputs q') = Some sync)
    by (rewrite Hs; apply get_set_same).
  assert (Ho : Dict.get other (_syncoutputs q') = Some sync)
    by (rewrite Hs, get_set_other by congruence; exact Hother).
  unfold _getsync, bind, gets, ret. rewrite Hc, Ho.
  split; [reflexivity |]. split; [reflexivity |].
  intros [_ Hv]. rewrite <- (map_id (Dict.values (_syncoutputs q'))) in Hv.
  apply get_in in Hc, Ho.
  exact (distinct_values (fun s => s) _ _ _ _ _ Hv Hc Ho
           (not_eq_sym Hne) eq_refl).
Qed.

(** Channel 1, owner of sync output 1, is moved to output 2, which
    channel 2 owns. *)
Lemma setsync_shares_output_witness :
  _getsync 1 (snd (_setsync 1 2 synced_qdac))
  = (Ok 2, snd (_setsync 1 2 synced_qdac))
  /\ _getsync 2 (snd (_setsync 1 2 synced_qdac))
     = (Ok 2, snd (_setsync 1 2 synced_qdac))
  /\ ~ syncs_ok (snd (_setsync 1 2 synced_qdac)).
Proof.
  apply (setsync_shares_output 1 2 2 synced_qdac
           (snd (_setsync 1 2 synced_qdac))).
  - lia.
  - reflexivity.
  - lia.
  - reflexivity.
  - reflexivity.
Defined.

Lemma release_generator_run (chan : Z) (q : QDac) :
  release_generator chan q
  = (Ok tt,
     match Dict.get chan (_assigned_fgs q) with
     | Some g =>
         with_assigned_fgs
           (Dict.set chan (with_t_end 0 g) (_assigned_fgs q)) q
     | None => q
     end).
Proof.
  unfold release_generator, except_KeyError, bind, gets, modify.
  destruct (Dict.get chan (_assigned_fgs q)); reflexivity.
Qed.

(** [sync.set] only adds commands to what was sent. *)
Lemma sync_set_emits (P : event -> Prop) (chan value : Z) :
  (forall cmd, P (Written cmd)) ->
  preserves (emits P) (sync_set chan value).
Proof.
  intros HP. unfold sync_set, _setsync, sync_cache_get, _getsync.
  repeat frame_step (emits_refl P) (emits_trans P);
    try apply channel_emits;
    try (apply write_emits; apply HP);
    try apply update_channel_emits;
    now apply emits_untraced.
Qed.

Section SlopeFacts.

Variable float_of_str : string -> option Q.
Variable format_float : Q -> string.
Variable format_f6 : Q -> string.

Lemma v_get_Ok_inv (i : Z) (q : QDac) (v : Q) (q1 : QDac) :
  v_get float_of_str i q = (Ok v, q1) ->
  exists c reply rest,
    Py.getitem (channels q) i = Some c
    /\ visa_incoming q = reply :: rest
    /\ float_of_str reply = Some v
    /\ q1 = with_channels (Py.setitem (channels q) i (with_v_cache v c))
              (with_incoming rest
                 (with_trace
                    (trace q ++ [Written ("set " ++ Py.str (channum c))]) q)).
Proof.
  intros H.
  destruct (Py.getitem (channels q) i) as [c |] eqn:Hc.
  2:{ unfold v_get, channel, bind, gets in H. rewrite Hc in H. discriminate. }
  destruct (visa_incoming q) as [| reply rest] eqn:Hin.
  { unfold v_get, channel, ask, visa_write, visa_read, emit, bind, gets,
      modify in H. rewrite Hc in H. cbn in H. rewrite Hin in H.
    discriminate. }
  destruct (float_of_str reply) as [v' |] eqn:Hf.
  2:{ unfold v_get, channel, ask, visa_write, visa_read, emit, bind, gets,
        modify in H. rewrite Hc in H. cbn in H. rewrite Hin in H. cbn in H.
      rewrite Hf in H. discriminate. }
  rewrite (v_get_Ok float_of_str i q c reply rest v' Hc Hin Hf) in H.
  injection H as <- <-. now exists c, reply, rest.
Qed.

(** X10.  A finite slope is only recorded: for a valid channel
    [_setslope] returns without sending anything, [_getslope] then
    answers that slope, and the other channels answer as before. *)
Theorem setslope_finite (chan : Z) (slope : Q) (q : QDac) :
  Py.in_range 1 (num_chans q + 1) chan = true ->
  let q' := with_slopes (Dict.set chan slope (_slopes q)) q in
  _setslope float_of_str format_f6 chan (Slope slope) q = (Ok tt, q')
  /\ _getslope chan q' = (Ok (Slope slope), q')
  /\ (forall other, other <> chan ->
        _getslope other q' = (fst (_getslope other q), q')).
Proof.
  intros Hrange q'. split; [| split].
  - unfold _setslope, bind, gets. rewrite Hrange. reflexivity.
  - unfold _getslope, bind, gets, ret. cbn. now rewrite get_set_same.
  - intros other Hne. unfold _getslope, bind, gets, ret. cbn.
    now rewrite get_set_other by congruence.
Qed.

(** X11.  Once [_setslope chan 'Inf'] has returned: the instrument was
    asked the channel's voltage and told to hold it in DC mode; the
    slope of the channel is forgotten, so that [_set_voltage] writes
    the voltage directly; the channel owns no sync output; its
    generator, if it holds one, keeps its number and has end time 0. *)
Theorem setslope_inf_releases (chan : Z) (q q' : QDac) :
  NoDup (Dict.keys (_slopes q)) ->
  NoDup (Dict.keys (_syncoutputs q)) ->
  _setslope float_of_str format_f6 chan Inf q = (Ok tt, q') ->
  (exists c reply rest v more,
     Py.getitem (channels q) (chan - 1) = Some c
     /\ visa_incoming q = reply :: rest
     /\ float_of_str reply = Some v
     /\ trace q'
        = trace q ++ [Written ("set " ++ Py.str (channum c));
                      Written (dc_command format_f6 chan v)] ++ more)
  /\ _getslope chan q' = (Ok Inf, q')
  /\ (forall v_set,
        _set_voltage float_of_str format_float format_f6 chan v_set q'
        = write (direct_command format_f6 chan v_set) q')
  /\ _getsync chan q' = (Ok 0, q')
  /\ _assigned_fgs q'
     = match Dict.get chan (_assigned_fgs q) with
       | Some g => Dict.set chan (with_t_end 0 g) (_assigned_fgs q)
       | None => _assigned_fgs q
       end.
Proof.
  intros Hslopes Hsyncs H. unfold _setslope in H.
  apply bind_Ok_inv in H. destruct H as (n & s0 & H0 & H).
  apply gets_run in H0. destruct H0 as [H0 ->]. injection H0 as ->.
  apply bind_Ok_inv in H. destruct H as (u & s0 & H0 & H).
  apply raise_if_Ok_inv in H0. destruct H0 as [_ ->].
  apply bind_Ok_inv in H. destruct H as (v & s1 & Hget & H).
  apply v_get_Ok_inv in Hget.
  destruct Hget as (c & reply & rest & Hc & Hin & Hf & Hs1).
  apply bind_Ok_inv in H. destruct H as ([] & s2 & Hw & H).
  apply write_Ok_inv in Hw. destruct Hw as [Htr2 Hset2].
  apply settings_inv in Hset2.
  destruct Hset2 as (_ & _ & _ & _ & Hsl2 & Hfg2 & _ & Hsy2 & _).
  apply bind_Ok_inv in H. destruct H as ([] & s3 & Hrel & H).
  rewrite release_generator_run in Hrel. injection Hrel as Hs3.
  apply bind_Ok_inv in H. destruct H as (syncs & s0 & H0 & H).
  apply gets_run in H0. destruct H0 as [H0 ->]. injection H0 as ->.
  apply bind_Ok_inv in H. destruct H as ([] & s4 & Hsync & H).
  apply modify_run in H. destruct H as [_ ->].
  (* what the release of the generator left *)
  assert (H3 : _slopes s3 = _slopes q /\ _syncoutputs s3 = _syncoutputs q
               /\ trace s3 = trace s2
               /\ _assigned_fgs s3
                  = match Dict.get chan (_assigned_fgs q) with
                    | Some g =>
                        Dict.set chan (with_t_end 0 g) (_assigned_fgs q)
                    | None => _assigned_fgs q
                    end).
  { rewrite <- Hs3, Hfg2, Hs1. cbn [_assigned_fgs with_channels with_incoming
                                    with_trace].
    destruct (Dict.get chan (_assigned_fgs q)); cbn;
      rewrite ?Hsl2, ?Hsy2, ?Hfg2, Hs1; now cbn. }
  destruct H3 as (Hsl3 & Hsy3 & Htr3 & Hfg3).
  (* what the removal of the sync output left *)
  assert (H4 : _slopes s4 = _slopes q /\ _assigned_fgs s4 = _assigned_fgs s3
               /\ Dict.get chan (_syncoutputs s4) = None
               /\ exists more, trace s4 = trace s3 ++ more).
  { destruct (Dict.mem chan (_syncoutputs s3)) eqn:Hmem.
    - pose proof (preserves_at _ _ _ _ _
                    (sync_set_keeps _slopes
                       (fun _ _ => eq_refl) (fun _ _ => eq_refl)
                       (fun _ _ => eq_refl) (fun _ _ => eq_refl)
                       (fun _ _ => eq_refl) chan 0) Hsync) as Hk1.
      pose proof (preserves_at _ _ _ _ _
                    (sync_set_keeps _assigned_fgs
                       (fun _ _ => eq_refl) (fun _ _ => eq_refl)
                       (fun _ _ => eq_refl) (fun _ _ => eq_refl)
                       (fun _ _ => eq_refl) chan 0) Hsync) as Hk2.
      unfold keeps in Hk1, Hk2.
      split; [congruence |]. split; [exact Hk2 |].
      pose proof (preserves_at _ _ _ _ _
                    (sync_set_emits (fun _ => True) chan 0 (fun _ => I))
                    Hsync) as (more & Hmore & _).
      unfold sync_set in Hsync.
      apply bind_Ok_inv in Hsync. destruct Hsync as ([] & s5 & Hss & Hup).
      pose proof (preserves_at _ _ _ _ _
                    (update_channel_keeps _syncoutputs
                       (fun _ _ => eq_refl) _ _) Hup) as Hk3.
      apply setsync_Ok in Hss. destruct Hss as [_ Hss].
      split; [| now exists more].
      unfold keeps in Hk3. rewrite Hk3.
      destruct Hss as [[_ ->] | [(Hnz & _) | [(Hnz & _) | (Hnz & _)]]];
        try contradiction.
      apply get_pop_same. now rewrite Hsy3.
    - injection Hsync as <-. split; [exact Hsl3 |]. split; [reflexivity |].
      split.
      + unfold Dict.mem in Hmem.
        destruct (Dict.get chan (_syncoutputs s3)); [discriminate | reflexivity].
      + exists []. now rewrite app_nil_r. }
  destruct H4 as (Hsl4 & Hfg4 & Hsy4 & more & Htr4).
  assert (Hslope : Dict.get chan (Dict.pop chan (_slopes s4)) = None)
    by (apply get_pop_same; now rewrite Hsl4).
  split; [| split; [| split; [| split]]].
  - exists c, reply, rest, v, more. split; [exact Hc |].
    split; [exact Hin |]. split; [exact Hf |].
    cbn. rewrite Htr4, Htr3, Htr2, Hs1. cbn. now rewrite <- !app_assoc.
  - unfold _getslope, bind, gets, ret. cbn. now rewrite Hslope.
  - intros v_set. unfold _set_voltage, bind, gets. cbn. now rewrite Hslope.
  - unfold _getsync, bind, gets, ret. cbn. now rewrite Hsy4.
  - cbn. now rewrite Hfg4.
Qed.

End SlopeFacts.

(** A slope of 0.5 V/s is recorded for channel 3. *)
Lemma setslope_finite_witness :
  _getslope 3
    (with_slopes (Dict.set 3 (1 # 2) (_slopes (fresh_qdac 24 1000 [])))
       (fresh_qdac 24 1000 []))
  = (Ok (Slope (1 # 2)),
     with_slopes (Dict.set 3 (1 # 2) (_slopes (fresh_qdac 24 1000 [])))
       (fresh_qdac 24 1000 [])).
Proof.
  apply (setslope_finite Text.parse_float Text.format_f6 3 (1 # 2)
           (fresh_qdac 24 1000 [])).
  reflexivity.
Defined.

(** Channel 1 of an instrument in the middle of ramps is released. *)
Lemma setslope_inf_releases_witness :
  let q' := snd (_setslope Text.parse_float Text.format_f6 1 Inf ramping_qdac) in
  _getslope 1 q' = (Ok Inf, q')
  /\ _getsync 1 q' = (Ok 0, q')
  /\ Dict.get 1 (_assigned_fgs q') = Some {| fg := 1; t_end := 0 |}.
Proof.
  intros q'.
  destruct (setslope_inf_releases Text.parse_float Text.format_float
              Text.format_f6 1 ramping_qdac q')
    as (_ & Hslope & _ & Hsync & Hfgs).
  - vm_compute. constructor.
  - vm_compute. constructor.
  - vm_compute. reflexivity.
  - split; [exact Hslope |]. split; [exact Hsync |].
    rewrite Hfgs. reflexivity.
Defined.

(* ===================================================================== *)
(** * Setting a voltage                                                    *)
(* ===================================================================== *)

Lemma int_floor (x : Q) : (0 <= x)%Q -> Py.int x = Qfloor x.
Proof.
  intros H. unfold Py.int. apply Qle_bool_iff in H. now rewrite H.
Qed.

Section VoltageFacts.

Variable float_of_str : string -> option Q.
Variable format_float : Q -> string.
Variable format_f6 : Q -> string.

(** The ramp time [ramp_voltages] works with, and the number of
    one-millisecond steps it asks for. *)
Lemma ramp_voltages_Ok channellist v_startlist v_endlist ramptime q d q' :
  ramp_voltages float_of_str format_float format_f6
    channellist v_startlist v_endlist ramptime q = (Ok d, q') ->
  let granted := if Py.ltb ramptime (2 # 1000) then 2 # 1000 else ramptime in
  exists s,
    s = (if Py.ltb ramptime (2 # 1000)
         then with_trace (trace q ++ [Warned RampTimeTooShort]) q else q)
    /\ ramp_voltages_2d float_of_str format_float format_f6
         [] [] [] channellist v_startlist v_endlist
         (1 # 1000) 1 (Py.int (granted * 1000)) s = (Ok d, q')
    /\ (d == inject_Z (Py.int (granted * 1000)) / 1000)%Q
    /\ (2 # 1000 <= d)%Q.
Proof.
  intros H granted. unfold ramp_voltages in H.
  apply bind_Ok_inv in H. destruct H as (rt & s & Hrt & H).
  assert (Hs : rt = granted
               /\ s = (if Py.ltb ramptime (2 # 1000)
                       then with_trace (trace q ++ [Warned RampTimeTooShort]) q
                       else q)).
  { subst granted. destruct (Py.ltb ramptime (2 # 1000)).
    - unfold log_warning, emit, bind, modify, ret in Hrt.
      now injection Hrt as <- <-.
    - unfold ret in Hrt. now injection Hrt as <- <-. }
  destruct Hs as [-> Hs]. exists s. split; [exact Hs |]. split; [exact H |].
  destruct (ramp_success _ _ _ _ _ _ _ _ _ _ _ _ _ _ _ H) as [Hd _].
  assert (Hgranted : (2 # 1000 <= granted)%Q).
  { subst granted. destruct (Py.ltb ramptime (2 # 1000)) eqn:E.
    - apply Qle_refl.
    - apply ltb_false_iff in E. lra. }
  assert (Hint : Py.int (granted * 1000) = Qfloor (granted * 1000))
    by (apply int_floor; lra).
  assert (Hdur : (d == inject_Z (Py.int (granted * 1000)) / 1000)%Q).
  { rewrite Hd. unfold expected_duration.
    change (step_length_ms_of (1 # 1000)) with 1.
    replace (1 * Py.int (granted * 1000) * 1)
      with (Py.int (granted * 1000)) by lia.
    reflexivity. }
  split; [exact Hdur |].
  assert (Hlow : (2 <= Qfloor (granted * 1000))).
  { change 2 with (Qfloor (inject_Z 2)) at 1. apply Qfloor_resp_le.
    unfold inject_Z. lra. }
  rewrite Hint in Hdur.
  assert (Hlow' : (inject_Z 2 <= inject_Z (Qfloor (granted * 1000)))%Q)
    by (rewrite <- Zle_Qle; exact Hlow).
  unfold inject_Z in Hlow' at 1.
  rewrite Hdur. apply Qle_shift_div_l; [reflexivity | lra].
Qed.

(** X12.  [ramp_voltages] never ramps for less than 2 ms: the duration
    it returns is at least 2 ms, and a request below 2 ms is warned
    about before anything else happens and then lasts exactly 2 ms. *)
Theorem ramp_voltages_duration channellist v_startlist v_endlist ramptime
  (q : QDac) (d : Q) (q' : QDac) :
  ramp_voltages float_of_str format_float format_f6
    channellist v_startlist v_endlist ramptime q = (Ok d, q') ->
  (2 # 1000 <= d)%Q
  /\ ((ramptime < 2 # 1000)%Q ->
      (d == 2 # 1000)%Q
      /\ exists rest, trace q' = trace q ++ Warned RampTimeTooShort :: rest).
Proof.
  intros H.
  destruct (ramp_voltages_Ok _ _ _ _ _ _ _ H)
    as (s & Hs & Hrun & Hd & Hlo).
  split; [exact Hlo |].
  intros Hshort. apply ltb_true_iff in Hshort. rewrite Hshort in Hs, Hd.
  split; [rewrite Hd; reflexivity |].
  destruct (ramp_success _ _ _ _ _ _ _ _ _ _ _ _ _ _ _ Hrun)
    as (_ & t & pre & msg & _ & _ & Htr & _).
  rewrite Htr, Hs. cbn. rewrite <- app_assoc. cbn. eauto.
Qed.

(** X13.  Without a slope recorded for the channel (or with slope 0),
    [_set_voltage] sends the one command
    ['wav <ch> 0 0 0;set <ch> <voltage>'] and touches nothing else: no
    generator is taken, no voltage asked for. *)
Theorem set_voltage_direct (chan : Z) (v_set : Q) (q : QDac) :
  match Dict.get chan (_slopes q) with
  | Some slope => Py.eqb slope 0 = true
  | None => True
  end ->
  _set_voltage float_of_str format_float format_f6 chan v_set q
  = write (direct_command format_f6 chan v_set) q
  /\ trace (snd (_set_voltage float_of_str format_float format_f6
                   chan v_set q))
     = trace q ++ [Written (direct_command format_f6 chan v_set)]
  /\ settings (snd (_set_voltage float_of_str format_float format_f6
                      chan v_set q))
     = settings q.
Proof.
  intros Hslope.
  assert (Heq : _set_voltage float_of_str format_float format_f6 chan v_set q
                = write (direct_command format_f6 chan v_set) q).
  { unfold _set_voltage, bind, gets.
    destruct (Dict.get chan (_slopes q)); [now rewrite Hslope | reflexivity]. }
  rewrite Heq. split; [reflexivity |]. split.
  - apply write_trace.
  - apply (write_keeps settings); intros; reflexivity.
Qed.

(** X14.  With a slope recorded, a [_set_voltage] that returns has asked
    the instrument for the present voltage and then started a ramp of
    the one channel from there: a generator is held by the channel,
    due to end 2 ms from now at the earliest; no trigger is allocated
    or fired. *)
Theorem set_voltage_ramped (chan : Z) (v_set slope : Q) (q q' : QDac) :
  Dict.get chan (_slopes q) = Some slope ->
  Py.eqb slope 0 = false ->
  _set_voltage float_of_str format_float format_f6 chan v_set q
  = (Ok tt, q') ->
  exists c reply rest v_start,
    Py.getitem (channels q) (chan - 1) = Some c
    /\ visa_incoming q = reply :: rest
    /\ float_of_str reply = Some v_start
    /\ (exists pre program,
          trace q'
          = trace q ++ Written ("set " ++ Py.str (channum c))
                       :: pre ++ [Written program]
          /\ Forall quiet pre
          /\ String.prefix "wav " program = true)
    /\ _assigned_triggers q' = _assigned_triggers q
    /\ (exists g d,
          Dict.get chan (_assigned_fgs q') = Some g
          /\ t_end g = (d + clock q')%Q
          /\ (2 # 1000 <= d)%Q).
Proof.
  intros Hslope Hnz H. unfold _set_voltage in H.
  apply bind_Ok_inv in H. destruct H as (slopes & s0 & H0 & H).
  apply gets_run in H0. destruct H0 as [H0 ->]. injection H0 as ->.
  rewrite Hslope, Hnz in H.
  apply bind_Ok_inv in H. destruct H as (v_start & s1 & Hget & H).
  apply v_get_Ok_inv in Hget.
  destruct Hget as (c & reply & rest & Hc & Hin & Hf & Hs1).
  apply bind_Ok_inv in H. destruct H as (d & s2 & Hramp & Hret).
  unfold ret in Hret. injection Hret as <-.
  destruct (ramp_voltages_Ok _ _ _ _ _ _ _ Hramp)
    as (s & Hs & Hrun & _ & Hd).
  destruct (ramp_success _ _ _ _ _ _ _ _ _ _ _ _ _ _ _ Hrun)
    as (_ & t & pre & msg & Hone & _ & Htr & Hquiet & Hwav & _ & _
        & Hkeep & Hrec).
  cbn [app List.length] in Hone, Hwav, Hrec.
  specialize (Hone eq_refl). subst t.
  destruct Hwav as [Hwav _]; [discriminate |].
  destruct (Hrec chan (or_introl eq_refl)) as (g & Hg & Hend & _).
  exists c, reply, rest, v_start.
  split; [exact Hc |]. split; [exact Hin |]. split; [exact Hf |].
  split; [| split].
  - cbn in Htr.
    destruct (Py.ltb (Qabs (v_set - v_start) / slope) (2 # 1000)).
    + exists (Warned RampTimeTooShort :: pre), (Py.drop_last msg).
      split; [| split; [| exact Hwav]].
      * rewrite Htr, Hs, Hs1. cbn. rewrite <- !app_assoc. reflexivity.
      * constructor; [exact I | exact Hquiet].
    + exists pre, (Py.drop_last msg).
      split; [| split; [exact Hquiet | exact Hwav]].
      rewrite Htr, Hs, Hs1. cbn. rewrite <- !app_assoc. reflexivity.
  - rewrite (Hkeep eq_refl), Hs, Hs1.
    destruct (Py.ltb _ _); reflexivity.
  - exists g, d. split; [exact Hg |]. split; [exact Hend | exact Hd].
Qed.

End VoltageFacts.

(** Channels 1 and 2 asked to ramp in 1 ms. *)
Lemma ramp_voltages_duration_witness :
  let run :=
    ramp_voltages Text.parse_float Text.format_float Text.format_f6
      [1; 2] [] [0; 1]%Q (1 # 1000) two_channel_qdac in
  exists d rest,
    fst run = Ok d /\ (d == 2 # 1000)%Q
    /\ trace (snd run)
       = trace two_channel_qdac ++ Warned RampTimeTooShort :: rest.
Proof.
  intros run.
  assert (Hrun : run = (Ok (2 # 1000), snd run)) by (vm_compute; reflexivity).
  destruct (ramp_voltages_duration Text.parse_float Text.format_float
              Text.format_f6 [1; 2] [] [0; 1]%Q (1 # 1000) two_channel_qdac
              (2 # 1000) (snd run) Hrun) as [_ Hshort].
  destruct Hshort as (Hd & rest & Htr); [vm_compute; reflexivity |].
  exists (2 # 1000)%Q, rest.
  split; [rewrite Hrun; reflexivity |]. split; [exact Hd | exact Htr].
Defined.

(** No slope was ever set on a fresh instrument. *)
Lemma set_voltage_direct_witness :
  trace (snd (_set_voltage Text.parse_float Text.format_float Text.format_f6
                3 (1 # 2) (fresh_qdac 24 1000 ["ok"; "ok"]%string)))
  = [Written "wav 3 0 0 0;set 3 0.500000"].
Proof.
  destruct (set_voltage_direct Text.parse_float Text.format_float
              Text.format_f6 3 (1 # 2)
              (fresh_qdac 24 1000 ["ok"; "ok"]%string) I)
    as (_ & Htr & _).
  rewrite Htr. vm_compute. reflexivity.
Defined.

(** Channel 1, limited to 1 V/s and at 0 V, is set to 0.5 V. *)
Lemma set_voltage_ramped_witness :
  let q := with_slopes [(1, 1%Q)]
             (fresh_qdac 24 1000 ["0.000000"; "ok"; "ok"]%string) in
  let q' := snd (_set_voltage Text.parse_float Text.format_float
                   Text.format_f6 1 (1 # 2) q) in
  _assigned_triggers q' = _assigned_triggers q
  /\ exists g d,
       Dict.get 1 (_assigned_fgs q') = Some g
       /\ t_end g = (d + clock q')%Q /\ (2 # 1000 <= d)%Q.
Proof.
  intros q q'.
  destruct (set_voltage_ramped Text.parse_float Text.format_float
              Text.format_f6 1 (1 # 2) 1%Q q q')
    as (c & reply & rest & v_start & _ & _ & _ & _ & Htrig & Hgen).
  - reflexivity.
  - reflexivity.
  - vm_compute. reflexivity.
  - split; [exact Htrig | exact Hgen].
Defined.

(* ===================================================================== *)
(** * The polling loop of the HID mixin                                    *)
(* ===================================================================== *)

(** A reply that arrives during sleep [k + 1] of at most [n] is returned
    after exactly [k + 1] sleeps, and the mailbox is left empty. *)
Lemma poll_delivers (k : nat) (r : list byte)
  (rest : list (option (list byte))) :
  forall n dev,
    (k < n)%nat ->
    HID._data_buffer dev = None ->
    HID.arrivals dev = repeat None k ++ Some r :: rest ->
    exists dev',
      HID.poll n dev = (Ok (Some r), dev')
      /\ HID.sleeps dev' = (HID.sleeps dev + S k)%nat
      /\ HID._data_buffer dev' = None
      /\ HID.arrivals dev' = rest
      /\ HID.output_reports dev' = HID.output_reports dev.
Proof.
  induction k as [| k IH]; intros n dev Hk Hbuf Harr;
    (destruct n as [| n]; [lia |]); cbn [HID.poll];
    unfold bind at 1; unfold HID.sleep_once; rewrite Harr; cbn [repeat app].
  - unfold bind at 1, HID._get_data_buffer, bind, gets, modify, ret. cbn.
    eexists. split; [reflexivity |]. cbn. repeat split; lia.
  - unfold bind at 1, HID._get_data_buffer, bind, gets, modify, ret. cbn.
    rewrite Hbuf.
    match goal with
    | |- exists dev', HID.poll n ?d = _ /\ _ =>
        destruct (IH n d) as (dev' & Hrun & Hs & Hb & Ha & Ho);
        [lia | reflexivity | reflexivity |]
    end.
    exists dev'. split; [exact Hrun |]. cbn in Hs, Ho.
    repeat split; try assumption. lia.
Qed.

(** With an empty mailbox and no arrival during [n] sleeps, the loop
    ends without a reply after exactly [n] sleeps. *)
Lemma poll_waits (n : nat) :
  forall dev,
    HID._data_buffer dev = None ->
    (forall i, (i < n)%nat -> nth i (HID.arrivals dev) None = None) ->
    exists dev',
      HID.poll n dev = (Ok None, dev')
      /\ HID.sleeps dev' = (HID.sleeps dev + n)%nat
      /\ HID.output_reports dev' = HID.output_reports dev.
Proof.
  induction n as [| n IH]; intros dev Hbuf Hnone.
  - exists dev. cbn. repeat split. lia.
  - cbn [HID.poll]. unfold bind at 1. unfold HID.sleep_once.
    destruct (HID.arrivals dev) as [| [data |] rest] eqn:Harr.
    + unfold bind at 1, HID._get_data_buffer, bind, gets, modify, ret. cbn.
      rewrite Hbuf.
      match goal with
      | |- exists dev', HID.poll n ?d = _ /\ _ =>
          destruct (IH d) as (dev' & Hrun & Hs & Ho);
          [reflexivity | intros i _; now destruct i |]
      end.
      exists dev'. split; [exact Hrun |]. cbn in Hs, Ho. split; [lia | exact Ho].
    + specialize (Hnone O ltac:(lia)). discriminate.
    + unfold bind at 1, HID._get_data_buffer, bind, gets, modify, ret. cbn.
      rewrite Hbuf.
      match goal with
      | |- exists dev', HID.poll n ?d = _ /\ _ =>
          destruct (IH d) as (dev' & Hrun & Hs & Ho);
          [reflexivity
          | intros i Hi; exact (Hnone (S i) ltac:(lia)) |]
      end.
      exists dev'. split; [exact Hrun |]. cbn in Hs, Ho. split; [lia | exact Ho].
Qed.

(** A packet already in the mailbox is returned at the first poll,
    unless another one arrives during the first sleep. *)
Lemma poll_stale (n : nat) (dev : HID.USBHIDMixin) (stale : list byte) :
  (1 <= n)%nat ->
  HID._data_buffer dev = Some stale ->
  hd None (HID.arrivals dev) = None ->
  exists dev',
    HID.poll n dev = (Ok (Some stale), dev')
    /\ HID.sleeps dev' = S (HID.sleeps dev)
    /\ HID._data_buffer dev' = None
    /\ HID.output_reports dev' = HID.output_reports dev.
Proof.
  intros Hn Hbuf Hhd. destruct n as [| n]; [lia |].
  cbn [HID.poll]. unfold bind at 1. unfold HID.sleep_once.
  destruct (HID.arrivals dev) as [| [data |] rest] eqn:Harr;
    [| discriminate |];
    unfold bind at 1, HID._get_data_buffer, bind, gets, modify, ret; cbn;
    rewrite Hbuf; eexists; (split; [reflexivity |]); cbn; auto.
Qed.

Lemma send_hid_accepted (fid : Z) (id : byte) (data : list byte)
  (dev : HID.USBHIDMixin) :
  0 <= fid < 256 -> Byte.of_N (Z.to_N fid) = Some id ->
  Z.of_nat (List.length data) <= HID.packet_size dev ->
  HID.device_accepts dev = true ->
  HID.send_hid fid data dev
  = (Ok tt,
     HID.with_output_report (hid_report id data (HID.packet_size dev)) dev).
Proof.
  intros Hfid Hid Hfits Hacc. unfold HID.send_hid, bind at 1, gets.
  replace (HID.packet_size dev - Z.of_nat (List.length data) <? 0) with false
    by (symmetry; apply Z.ltb_ge; lia).
  unfold bind at 1, raise_if, ret. unfold bind at 1.
  rewrite (struct_pack_report fid id data (HID.packet_size dev) Hfid Hid Hfits).
  unfold or_raise, ret, bind at 1.
  unfold HID.send_output_report, bind, modify, gets. cbn.
  rewrite Hacc. reflexivity.
Qed.

(** X15.  What [ask_hid] does once its request has been accepted by the
    device, [n] being the number of polls the timeout allows:
    with an empty mailbox and no packet during the first [n] sleeps it
    raises [TimeoutError] after exactly [n] sleeps (at once when
    [n = 0]); a packet arriving during sleep [k + 1 <= n] is returned,
    without its first byte, after exactly [k + 1] sleeps and the mailbox
    is left empty; a packet that was in the mailbox before the request
    was sent is returned as the reply after the first sleep. *)
Theorem ask_hid_polling (fid : Z) (id : byte) (data : list byte)
  (dev : HID.USBHIDMixin) (n : nat) :
  0 <= fid < 256 -> Byte.of_N (Z.to_N fid) = Some id ->
  Z.of_nat (List.length data) <= HID.packet_size dev ->
  HID.device_accepts dev = true ->
  Z.to_nat (Py.int (5 * HID._timeout dev)) = n ->
  let sent := HID.output_reports dev
              ++ [hid_report id data (HID.packet_size dev)] in
  (HID._data_buffer dev = None ->
   (forall i, (i < n)%nat -> nth i (HID.arrivals dev) None = None) ->
   exists dev',
     HID.ask_hid fid data dev = (Raise TimeoutError, dev')
     /\ HID.sleeps dev' = (HID.sleeps dev + n)%nat
     /\ HID.output_reports dev' = sent)
  /\ (forall k r rest,
        HID._data_buffer dev = None ->
        (k < n)%nat ->
        HID.arrivals dev = repeat None k ++ Some r :: rest ->
        exists dev',
          HID.ask_hid fid data dev = (Ok (tl r), dev')
          /\ HID.sleeps dev' = (HID.sleeps dev + S k)%nat
          /\ HID._data_buffer dev' = None
          /\ HID.arrivals dev' = rest
          /\ HID.output_reports dev' = sent)
  /\ (forall stale,
        HID._data_buffer dev = Some stale ->
        (1 <= n)%nat ->
        hd None (HID.arrivals dev) = None ->
        exists dev',
          HID.ask_hid fid data dev = (Ok (tl stale), dev')
          /\ HID.sleeps dev' = S (HID.sleeps dev)
          /\ HID.output_reports dev' = sent).
Proof.
  intros Hfid Hid Hfits Hacc Hn sent.
  pose proof (send_hid_accepted fid id data dev Hfid Hid Hfits Hacc) as Hsend.
  set (dev1 := HID.with_output_report
                 (hid_report id data (HID.packet_size dev)) dev) in *.
  assert (Hask : HID.ask_hid fid data dev
                 = (response <- HID.poll n ;;
                    match response with
                    | None => raise TimeoutError
                    | Some r => ret (tl r)
                    end) dev1).
  { unfold HID.ask_hid. rewrite (bind_Ok _ _ _ _ _ Hsend).
    unfold bind at 1, gets. cbv zeta.
    change (HID._timeout dev1) with (HID._timeout dev). now rewrite Hn. }
  rewrite Hask. split; [| split].
  - intros Hbuf Hnone.
    destruct (poll_waits n dev1 Hbuf Hnone) as (dev' & Hrun & Hs & Ho).
    exists dev'. rewrite (bind_Ok _ _ _ _ _ Hrun).
    split; [reflexivity |]. split; [exact Hs | exact Ho].
  - intros k r rest Hbuf Hk Harr.
    destruct (poll_delivers k r rest n dev1 Hk Hbuf Harr)
      as (dev' & Hrun & Hs & Hb & Ha & Ho).
    exists dev'. rewrite (bind_Ok _ _ _ _ _ Hrun).
    split; [reflexivity |]. repeat split; assumption.
  - intros stale Hbuf Hone Hhd.
    destruct (poll_stale n dev1 stale Hone Hbuf Hhd)
      as (dev' & Hrun & Hs & _ & Ho).
    exists dev'. rewrite (bind_Ok _ _ _ _ _ Hrun).
    split; [reflexivity |]. split; [exact Hs | exact Ho].
Qed.

(** The reply of the small device arrives during the second of the 10
    sleeps its 2 s timeout allows. *)
Lemma ask_hid_polling_witness :
  exists dev',
    HID.ask_hid 1 [x2a] small_device = (Ok [x2a; x2b; x00; x00], dev')
    /\ HID.sleeps dev' = 2%nat
    /\ HID._data_buffer dev' = None.
Proof.
  destruct (ask_hid_polling 1 x01 [x2a] small_device 10) as (_ & Hreply & _).
  - lia.
  - reflexivity.
  - vm_compute. discriminate.
  - reflexivity.
  - vm_compute. reflexivity.
  - destruct (Hreply 1%nat [x01; x2a; x2b; x00; x00] [])
      as (dev' & Hrun & Hs & Hb & _).
    + reflexivity.
    + lia.
    + reflexivity.
    + exists dev'. split; [exact Hrun |]. split; [exact Hs | exact Hb].
Defined.

(* ===================================================================== *)
(** * Modes and bookkeeping                                                *)
(* ===================================================================== *)

Section ModeFacts.

Variable float_of_str : string -> option Q.
Variable int_of_str : string -> option Z.
Variable format_f6 : Q -> string.

Lemma mode_eqb_eq (a b : Mode) : mode_eqb a b = true <-> a = b.
Proof. destruct a, b; cbn; split; congruence. Qed.

(** X16.  Setting the mode a channel already has does nothing at all;
    a change of the current range alone, within the high voltage range,
    sends the one command ['cur <ch> <range>']: the voltage is not
    asked for, and neither validator nor cached voltage is touched. *)
Theorem set_mode_without_range_change (chan : Z) (new_mode : Mode)
  (c : QDacChannel) (q : QDac) :
  Py.getitem (channels q) (chan - 1) = Some c ->
  (new_mode = mode_cache c ->
   _set_mode float_of_str int_of_str format_f6 chan new_mode q = (Ok tt, q))
  /\ (new_mode <> mode_cache c ->
      mode_v new_mode = mode_v (mode_cache c) ->
      mode_v (mode_cache c) = 0 ->
      _set_mode float_of_str int_of_str format_f6 chan new_mode q
      = write ("cur " ++ Py.str chan ++ " " ++ Py.str (mode_i new_mode)) q
      /\ settings (snd (_set_mode float_of_str int_of_str format_f6
                          chan new_mode q)) = settings q).
Proof.
  intros Hc.
  assert (Hchan : channel (chan - 1) q = (Ok c, q)).
  { unfold channel, bind, gets, or_raise. now rewrite Hc. }
  split.
  - intros ->. unfold _set_mode. rewrite (bind_Ok _ _ _ _ _ Hchan).
    replace (mode_eqb (mode_cache c) (mode_cache c)) with true
      by (symmetry; now apply mode_eqb_eq).
    reflexivity.
  - intros Hne Hv Hhigh.
    assert (Heq : _set_mode float_of_str int_of_str format_f6 chan new_mode q
                  = write ("cur " ++ Py.str chan ++ " "
                           ++ Py.str (mode_i new_mode)) q).
    { unfold _set_mode. rewrite (bind_Ok _ _ _ _ _ Hchan).
      destruct (mode_eqb (mode_cache c) new_mode) eqn:E;
        [apply mode_eqb_eq in E; congruence |].
      assert (Hi : (mode_i new_mode =? mode_i (mode_cache c)) = false).
      { apply Z.eqb_neq. intros Hi. apply Hne.
        destruct new_mode, (mode_cache c); cbn in *; congruence. }
      rewrite Hi, Hv, Hhigh. cbn [negb andb Z.eqb].
      unfold bind at 1, ret. reflexivity. }
    split; [exact Heq |]. rewrite Heq.
    apply (write_keeps settings); intros; reflexivity.
Qed.

End ModeFacts.

(** Channel 1 of a fresh instrument, in mode [vhigh_ihigh], is switched
    to the low current range. *)
Lemma set_mode_without_range_change_witness :
  trace (snd (_set_mode Text.parse_float Text.parse_int Text.format_f6
                1 vhigh_ilow (fresh_qdac 24 1000 ["ok"%string])))
  = [Written "cur 1 0"].
Proof.
  destruct (set_mode_without_range_change Text.parse_float Text.parse_int
              Text.format_f6 1 vhigh_ilow (fresh_channel 1)
              (fresh_qdac 24 1000 ["ok"%string]))
    as [_ Hcur]; [reflexivity |].
  destruct Hcur as [Heq _]; [discriminate | reflexivity | reflexivity |].
  rewrite Heq. vm_compute. reflexivity.
Defined.

(** X17.  [_reset_bookkeeping] empties the generator pool, the trigger,
    sync and slope records and nothing else: afterwards both
    invariants hold, every channel answers sync 0 and slope ['Inf'],
    and the next generator request is given generator 1 without a
    word to the instrument. *)
Theorem reset_bookkeeping_clears (format_f6 : Q -> string) (q : QDac) :
  let q' := snd (_reset_bookkeeping q) in
  fst (_reset_bookkeeping q) = Ok tt
  /\ pool_ok q' /\ syncs_ok q'
  /\ _assigned_triggers q' = []
  /\ (forall chan, _getsync chan q' = (Ok 0, q'))
  /\ (forall chan, _getslope chan q' = (Ok Inf, q'))
  /\ (forall chan,
        _get_functiongenerator format_f6 chan q'
        = (Ok 1, with_assigned_fgs [(chan, new_Generator 1)] q'))
  /\ (channels q', vranges q', mode_force q', visa_incoming q', trace q')
     = (channels q, vranges q, mode_force q, visa_incoming q, trace q).
Proof.
  cbv zeta. unfold _reset_bookkeeping, modify. cbn [fst snd].
  split; [reflexivity |]. split.
  { unfold pool_ok, well_formed_pool. cbn. repeat constructor. }
  split.
  { unfold syncs_ok. cbn. split; constructor. }
  repeat split.
Qed.
